(** * PhenoStore example client: patient summary, start-up checks, care plans

    A shallow embedding of these parts of the clinic demo:

    - [PatientSummary]: four store calls issued from four goroutines, joined
      on a [sync.WaitGroup], followed by the ordered choice of the one error
      that is shown to the operator;
    - [Initialize] and [validatePhenoStoreURL]: the start-up checks on the
      environment;
    - [CompleteActivity]: the read-modify-write that marks one care-plan
      activity as completed;
    - the readers of decoded resources in the fhir package: [PatientRef],
      [PatientName], [carePlanProgress] and [GetDashboardPlan];
    - [DeleteSeedData] with [searchByTag]: the removal of the seed data;
    - [AddActivity] and [UpdateContact]: the two other read-modify-writes;
    - [ClinicDashboard] with [resolvePatientName];
    - the pickers [PickPatient] and [PickCarePlan].

    Store replies, clock readings, the parsed form of a URL and the operator's
    menu choices are inputs of the model: they come from the SDK, the Go
    runtime and the terminal, none of which is part of this program. *)

From Stdlib Require Import ZArith String Ascii List Lia DecimalString.
From stdpp Require Import base option list gmap strings relations.

Set Warnings "-register-all,-clear-no-such-hyp".

Local Open Scope Z_scope.

(** ** Go values shared by all parts *)

(** [json.RawMessage]: an opaque payload; the nil message is the empty one. *)
Definition RawMessage : Type := string.

(** Modelled from the spec: the error kinds of the store, which belongs to
    the SDK and not to this program.  NotFound is the distinguished kind of a
    missing entity; Transport stands for every other failure. *)
Inductive ErrorKind : Type :=
| NotFound
| Transport.

(** Go [error] values that occur in this program.  A nil [error] is [None]
    at type [option error].
    - [StoreError]: an error produced by the SDK client, with its kind;
    - [ErrUserAborted]: the sentinel [huh.ErrUserAborted];
    - [Errorf text]: [fmt.Errorf] without a wrapped cause;
    - [Errorf_w prefix cause]: [fmt.Errorf(prefix + "%w", cause)]. *)
Inductive error : Type :=
| StoreError (kind : ErrorKind) (text : string)
| ErrUserAborted
| Errorf (text : string)
| Errorf_w (prefix : string) (cause : error).

(** [err.Error()] *)
Fixpoint Error (e : error) : string :=
  match e with
  | StoreError _ text => text
  | ErrUserAborted => "user aborted"
  | Errorf text => text
  | Errorf_w prefix cause => prefix +:+ Error cause
  end.

(** Modelled from the spec: the test behind [phenostore.IsNotFound] on a
    non-nil error, a function of the SDK.  An error is of NotFound kind when
    it is, or wraps at any depth, a store error of that kind, which is how
    [errors.As] searches the chain of causes. *)
Fixpoint hasNotFound (e : error) : bool :=
  match e with
  | StoreError NotFound _ => true
  | StoreError Transport _ => false
  | ErrUserAborted => false
  | Errorf _ => false
  | Errorf_w _ cause => hasNotFound cause
  end.

(** Modelled from the spec: [phenostore.IsNotFound(err)], false on nil and
    otherwise whether the error is of NotFound kind. *)
Definition IsNotFound (err : option error) : bool :=
  match err with
  | None => false
  | Some e => hasNotFound e
  end.

(** The chain search behind [errors.Is(err, huh.ErrUserAborted)]. *)
Fixpoint hasUserAborted (e : error) : bool :=
  match e with
  | ErrUserAborted => true
  | Errorf_w _ cause => hasUserAborted cause
  | _ => false
  end.

(** helpers.go, [isAbort] *)
Definition isAbort (err : option error) : bool :=
  match err with
  | None => false
  | Some e => hasUserAborted e
  end.

(** The verb [%d] of [fmt]. *)
Definition itoa (z : Z) : string := NilZero.string_of_int (Z.to_int z).

(** Values of type [any] as [json.Unmarshal] produces them.  A Go map is a
    reference: [AMap l] names the map object at location [l] of the heap, so
    that a write through one name of a map is seen through all its names.  A
    number is kept as its literal. *)
Definition loc : Type := positive.

Inductive any : Type :=
| ANil
| ABool (b : bool)
| ANumber (literal : string)
| AString (s : string)
| ASlice (xs : list any)
| AMap (l : loc).

(** The map objects: for each location the entries of the map at it. *)
Abbreviation heap := (gmap loc (gmap string any)).

(** What the operator sees and what is sent to the store.  The body of an
    update is the object that [json.Marshal] serialises: the map at [root]
    with everything it refers to in [h]. *)
Inductive Event : Type :=
| ShowError (err : error)
| PressEnter
| Println (line : string)
| PrintSummary (patient : RawMessage)
               (observations conditions plans : list RawMessage)
| showTiming (msg : string) (d : Z)
| UpdateResource (resourceType id : string) (root : loc) (h : heap).

(** ** Search helpers *)

Record BundleEntry : Type := mkBundleEntry { Resource : option RawMessage }.

Record Bundle : Type := mkBundle { Entry : option (list BundleEntry) }.

(** [extractResources]: the resources of the entries that carry one; a nil
    [Entry] gives the nil slice. *)
Definition extractResources (bundle : Bundle) : list RawMessage :=
  match Entry bundle with
  | None => []
  | Some entries => omap Resource entries
  end.

(** What [SearchResourcesWithResponse] hands back: an error of the call, or
    an HTTP response with its status code and its body as [json.Unmarshal]
    decodes it into a [gen.Bundle]. *)
Inductive SearchReply : Type :=
| CallFailed (err : error)
| Replied (StatusCode : Z) (decoded : error + Bundle).

(** The SDK client as this program uses it.  [ReadResource] takes the
    resource type and the id; [SearchResourcesWithResponse] takes the resource
    type and the query parameters that the request editor sets. *)
Record Client : Type := mkClient {
  ReadResource : string -> string -> RawMessage * option error;
  SearchResourcesWithResponse : string -> list (string * string) -> SearchReply
}.

(** [searchByPatient] *)
Definition searchByPatient (a : Client) (resourceType patientID : string)
  : list RawMessage * option error :=
  match SearchResourcesWithResponse a resourceType [("patient", patientID)] with
  | CallFailed err =>
      ([], Some (Errorf_w ("searching " +:+ resourceType +:+ ": ") err))
  | Replied StatusCode decoded =>
      if 400 <=? StatusCode then
        ([], Some (Errorf ("search " +:+ resourceType +:+ " failed: HTTP "
                           +:+ itoa StatusCode)))
      else
        match decoded with
        | inl err =>
            ([], Some (Errorf_w ("parsing " +:+ resourceType +:+ " response: ") err))
        | inr bundle => (extractResources bundle, None)
        end
  end.

(** ** PatientSummary: the closure run under the spinner *)

(** The variables the closure and its four goroutines share: the four result
    slots and [apiErr], [elapsed] declared by [PatientSummary], and [start]
    and the four error slots declared inside the closure. *)
Record Vars : Type := mkVars {
  patient : RawMessage;
  observations : list RawMessage;
  conditions : list RawMessage;
  plans : list RawMessage;
  apiErr : option error;
  elapsed : Z;
  start : Z;
  patientErr : option error;
  observationsErr : option error;
  conditionsErr : option error;
  plansErr : option error
}.

(** All variables at their zero values. *)
Definition zeroVars : Vars :=
  mkVars "" [] [] [] None 0 0 None None None None.

Definition set_patient (x : RawMessage) (v : Vars) : Vars :=
  mkVars x (observations v) (conditions v) (plans v) (apiErr v) (elapsed v)
         (start v) (patientErr v) (observationsErr v) (conditionsErr v) (plansErr v).

Definition set_observations (x : list RawMessage) (v : Vars) : Vars :=
  mkVars (patient v) x (conditions v) (plans v) (apiErr v) (elapsed v)
         (start v) (patientErr v) (observationsErr v) (conditionsErr v) (plansErr v).

Definition set_conditions (x : list RawMessage) (v : Vars) : Vars :=
  mkVars (patient v) (observations v) x (plans v) (apiErr v) (elapsed v)
         (start v) (patientErr v) (observationsErr v) (conditionsErr v) (plansErr v).

Definition set_plans (x : list RawMessage) (v : Vars) : Vars :=
  mkVars (patient v) (observations v) (conditions v) x (apiErr v) (elapsed v)
         (start v) (patientErr v) (observationsErr v) (conditionsErr v) (plansErr v).

Definition set_apiErr (x : option error) (v : Vars) : Vars :=
  mkVars (patient v) (observations v) (conditions v) (plans v) x (elapsed v)
         (start v) (patientErr v) (observationsErr v) (conditionsErr v) (plansErr v).

Definition set_elapsed (x : Z) (v : Vars) : Vars :=
  mkVars (patient v) (observations v) (conditions v) (plans v) (apiErr v) x
         (start v) (patientErr v) (observationsErr v) (conditionsErr v) (plansErr v).

Definition set_start (x : Z) (v : Vars) : Vars :=
  mkVars (patient v) (observations v) (conditions v) (plans v) (apiErr v) (elapsed v)
         x (patientErr v) (observationsErr v) (conditionsErr v) (plansErr v).

Definition set_patientErr (x : option error) (v : Vars) : Vars :=
  mkVars (patient v) (observations v) (conditions v) (plans v) (apiErr v) (elapsed v)
         (start v) x (observationsErr v) (conditionsErr v) (plansErr v).

Definition set_observationsErr (x : option error) (v : Vars) : Vars :=
  mkVars (patient v) (observations v) (conditions v) (plans v) (apiErr v) (elapsed v)
         (start v) (patientErr v) x (conditionsErr v) (plansErr v).

Definition set_conditionsErr (x : option error) (v : Vars) : Vars :=
  mkVars (patient v) (observations v) (conditions v) (plans v) (apiErr v) (elapsed v)
         (start v) (patientErr v) (observationsErr v) x (plansErr v).

Definition set_plansErr (x : option error) (v : Vars) : Vars :=
  mkVars (patient v) (observations v) (conditions v) (plans v) (apiErr v) (elapsed v)
         (start v) (patientErr v) (observationsErr v) (conditionsErr v) x.

(** The four goroutines, in the order of their [go] statements. *)
Inductive Task : Type :=
| TPatient
| TObservations
| TConditions
| TPlans.

#[global] Instance Task_eq_dec : EqDecision Task.
Proof. solve_decision. Defined.

(** The position of a task in the order of the [go] statements, which is
    also the order of priority among failures. *)
Definition rank (t : Task) : nat :=
  match t with
  | TPatient => 0
  | TObservations => 1
  | TConditions => 2
  | TPlans => 3
  end.

(** The body of each goroutine, up to its deferred [wg.Done()].  The first
    assigns [patient] in every case and [patientErr] only for a non-nil
    error; the other three assign both results of [searchByPatient]. *)
Definition body (a : Client) (patientID : string) (t : Task) (v : Vars) : Vars :=
  match t with
  | TPatient =>
      let '(raw, err) := ReadResource a "Patient" patientID in
      let v := set_patient raw v in
      match err with
      | Some e => set_patientErr (Some e) v
      | None => v
      end
  | TObservations =>
      let '(rs, err) := searchByPatient a "Observation" patientID in
      set_observationsErr err (set_observations rs v)
  | TConditions =>
      let '(rs, err) := searchByPatient a "Condition" patientID in
      set_conditionsErr err (set_conditions rs v)
  | TPlans =>
      let '(rs, err) := searchByPatient a "CarePlan" patientID in
      set_plansErr err (set_plans rs v)
  end.

(** The statements after [wg.Wait()]: [elapsed = time.Since(start)], with
    [now] the clock reading taken by [time.Since], then the cascade of
    guarded returns that assigns [apiErr]. *)
Definition resolve (patientID : string) (now : Z) (v : Vars) : Vars :=
  let v := set_elapsed (now - start v) v in
  if IsNotFound (patientErr v) then
    set_apiErr (Some (Errorf ("patient " +:+ patientID +:+ " not found"))) v
  else
    match patientErr v with
    | Some e => set_apiErr (Some (Errorf_w "reading patient: " e)) v
    | None =>
    match observationsErr v with
    | Some e => set_apiErr (Some (Errorf_w "loading observations: " e)) v
    | None =>
    match conditionsErr v with
    | Some e => set_apiErr (Some (Errorf_w "loading conditions: " e)) v
    | None =>
    match plansErr v with
    | Some e => set_apiErr (Some (Errorf_w "loading care plans: " e)) v
    | None => v
    end end end end.

(** *** Goroutines and the wait group, as a transition system *)

(** Where a goroutine stands: not yet started by its [go] statement, started,
    past its body with the deferred [wg.Done()] still to run, or gone. *)
Inductive GoPc : Type :=
| NotStarted
| Launched
| BodyDone
| Exited.

#[global] Instance GoPc_eq_dec : EqDecision GoPc.
Proof. solve_decision. Defined.

(** Where the closure itself stands: before [start := time.Now()] and
    [wg.Add(4)], at one of the four [go] statements, blocked in [wg.Wait()],
    at the statements after the join, or returned. *)
Inductive MainPc : Type :=
| MStart
| MGo (t : Task)
| MWait
| MResolve
| MReturn.

#[global] Instance MainPc_eq_dec : EqDecision MainPc.
Proof. solve_decision. Defined.

Inductive Thread : Type :=
| Main
| Go (t : Task).

(** The statement that follows [go] statement [t]. *)
Definition afterGo (t : Task) : MainPc :=
  match t with
  | TPatient => MGo TObservations
  | TObservations => MGo TConditions
  | TConditions => MGo TPlans
  | TPlans => MWait
  end.

Record Sched : Type := mkSched {
  vars : Vars;
  wg : Z;
  pc : Task -> GoPc;
  mainPc : MainPc
}.

Definition setPc (t : Task) (p : GoPc) (f : Task -> GoPc) : Task -> GoPc :=
  fun t' => if decide (t' = t) then p else f t'.

(** The two clock readings of one run: by [time.Now()] and by [time.Since]. *)
Record Clock : Type := mkClock { atStart : Z; atJoin : Z }.

Definition initial : Sched := mkSched zeroVars 0 (fun _ => NotStarted) MStart.

(** One step of the chosen thread, [None] when that thread cannot move.
    [wg.Wait()] returns only when the counter is zero; a goroutine moves
    whenever it is started and not gone, whatever the others did. *)
Definition stepOf (a : Client) (clk : Clock) (patientID : string)
    (th : Thread) (s : Sched) : option Sched :=
  match th with
  | Main =>
      match mainPc s with
      | MStart =>
          Some (mkSched (set_start (atStart clk) (vars s)) (wg s + 4) (pc s)
                        (MGo TPatient))
      | MGo t =>
          Some (mkSched (vars s) (wg s) (setPc t Launched (pc s)) (afterGo t))
      | MWait =>
          if decide (wg s = 0)
          then Some (mkSched (vars s) (wg s) (pc s) MResolve)
          else None
      | MResolve =>
          Some (mkSched (resolve patientID (atJoin clk) (vars s)) (wg s) (pc s)
                        MReturn)
      | MReturn => None
      end
  | Go t =>
      match pc s t with
      | NotStarted => None
      | Launched =>
          Some (mkSched (body a patientID t (vars s)) (wg s)
                        (setPc t BodyDone (pc s)) (mainPc s))
      | BodyDone =>
          Some (mkSched (vars s) (wg s - 1) (setPc t Exited (pc s)) (mainPc s))
      | Exited => None
      end
  end.

Definition step (a : Client) (clk : Clock) (patientID : string)
  : relation Sched :=
  fun s s' => exists th, stepOf a clk patientID th s = Some s'.

(** A run under a given schedule; a thread that cannot move is skipped. *)
Definition runSchedule (a : Client) (clk : Clock) (patientID : string)
    (schedule : list Thread) (s : Sched) : Sched :=
  fold_left (fun s th => default s (stepOf a clk patientID th s)) schedule s.

(** The closure as a function: the variables after the join, and the
    variables when the closure returns.  The goroutines write disjoint
    slots, so that their order does not matter; [every_run_returns_Action]
    below relates these functions to the runs of the transition system. *)
Definition joined (a : Client) (clk : Clock) (patientID : string) : Vars :=
  body a patientID TPlans
    (body a patientID TConditions
       (body a patientID TObservations
          (body a patientID TPatient (set_start (atStart clk) zeroVars)))).

Definition Action (a : Client) (clk : Clock) (patientID : string) : Vars :=
  resolve patientID (atJoin clk) (joined a clk patientID).

(** The states a run of the closure can be in. *)
Definition reachable (a : Client) (clk : Clock) (patientID : string)
  : Sched -> Prop :=
  rtc (step a clk patientID) initial.

(** The error slot of a task. *)
Definition errOf (t : Task) (v : Vars) : option error :=
  match t with
  | TPatient => patientErr v
  | TObservations => observationsErr v
  | TConditions => conditionsErr v
  | TPlans => plansErr v
  end.

(** The error with which the store call of a task ends; nil on success. *)
Definition outcome (a : Client) (patientID : string) (t : Task) : option error :=
  match t with
  | TPatient => snd (ReadResource a "Patient" patientID)
  | TObservations => snd (searchByPatient a "Observation" patientID)
  | TConditions => snd (searchByPatient a "Condition" patientID)
  | TPlans => snd (searchByPatient a "CarePlan" patientID)
  end.

(** The result slot of a task; the patient read fills its slot with one
    resource. *)
Definition resultOf (t : Task) (v : Vars) : list RawMessage :=
  match t with
  | TPatient => [patient v]
  | TObservations => observations v
  | TConditions => conditions v
  | TPlans => plans v
  end.

(** What the store call of a task returns beside its error. *)
Definition taskResult (a : Client) (patientID : string) (t : Task)
  : list RawMessage :=
  match t with
  | TPatient => [fst (ReadResource a "Patient" patientID)]
  | TObservations => fst (searchByPatient a "Observation" patientID)
  | TConditions => fst (searchByPatient a "Condition" patientID)
  | TPlans => fst (searchByPatient a "CarePlan" patientID)
  end.

(** Whether a goroutine is past its body. *)
Definition ran (p : GoPc) : bool :=
  match p with
  | BodyDone | Exited => true
  | NotStarted | Launched => false
  end.

(** The share of a goroutine in the counter of the wait group. *)
Definition pending (p : GoPc) : Z :=
  match p with
  | Exited => 0
  | _ => 1
  end.

(** Whether the closure is past the [go] statement of a task. *)
Definition launchedBy (m : MainPc) (t : Task) : bool :=
  match m with
  | MStart => false
  | MGo t0 => (rank t <? rank t0)%nat
  | _ => true
  end.

(** Whether the closure is past [wg.Wait()]. *)
Definition passedWait (m : MainPc) : bool :=
  match m with
  | MResolve | MReturn => true
  | _ => false
  end.

(** What holds in every state of every run: the goroutines that are not
    started are those whose [go] statement is still ahead; the counter of the
    wait group counts the goroutines that are not gone; past [wg.Wait()] all
    are gone; a slot holds what its task returned once the body of that task
    has run and its zero value before; [apiErr] and [elapsed] are written
    only by the statements after the join. *)
Definition invariant (a : Client) (clk : Clock) (patientID : string)
    (s : Sched) : Prop :=
  (forall t, bool_decide (pc s t = NotStarted) = negb (launchedBy (mainPc s) t)) /\
  wg s = match mainPc s with
         | MStart => 0
         | _ => pending (pc s TPatient) + pending (pc s TObservations)
                + pending (pc s TConditions) + pending (pc s TPlans)
         end /\
  (passedWait (mainPc s) = true -> forall t, pc s t = Exited) /\
  (forall t, resultOf t (vars s)
             = if ran (pc s t) then taskResult a patientID t
               else resultOf t zeroVars) /\
  (forall t, errOf t (vars s)
             = if ran (pc s t) then outcome a patientID t else None) /\
  start (vars s) = match mainPc s with MStart => 0 | _ => atStart clk end /\
  (mainPc s <> MReturn -> apiErr (vars s) = None /\ elapsed (vars s) = 0) /\
  (mainPc s = MReturn -> vars s = Action a clk patientID).

(** The number of steps a thread still has to make. *)
Definition goSteps (p : GoPc) : nat :=
  match p with
  | NotStarted | Launched => 2
  | BodyDone => 1
  | Exited => 0
  end.

Definition mainSteps (m : MainPc) : nat :=
  match m with
  | MStart => 7
  | MGo t => (6 - rank t)%nat
  | MWait => 2
  | MResolve => 1
  | MReturn => 0
  end%nat.

Definition stepsLeft (s : Sched) : nat :=
  (mainSteps (mainPc s) + goSteps (pc s TPatient) + goSteps (pc s TObservations)
   + goSteps (pc s TConditions) + goSteps (pc s TPlans))%nat.

(** A schedule in which the care-plan search runs first and the patient
    read last. *)
Definition scheduleReversed : list Thread :=
  [ Main; Main; Main; Main; Main;
    Go TPlans; Go TConditions; Go TPlans; Go TObservations; Go TPatient;
    Go TObservations; Go TConditions; Go TPatient; Main; Main ].

(** *** PatientSummary *)

(** [PatientSummary]: [pick] is what [PickPatient] returned and [spin] what
    the spinner's [Run] returned. *)
Definition PatientSummary (a : Client) (clk : Clock)
    (pick : string * option error) (spin : option error) : list Event :=
  let '(patientID, err) := pick in
  if bool_decide (err <> None) || bool_decide (patientID = "") then
    match err with
    | Some e => if negb (isAbort err) then [ShowError e; PressEnter] else []
    | None => []
    end
  else
    let v := Action a clk patientID in
    match spin with
    | Some e => [ShowError e; PressEnter]
    | None =>
    match apiErr v with
    | Some e => [ShowError e; PressEnter]
    | None =>
        let total := Z.of_nat (length (observations v))
                     + Z.of_nat (length (conditions v))
                     + Z.of_nat (length (plans v)) + 1 in
        [ Println "";
          PrintSummary (patient v) (observations v) (conditions v) (plans v);
          showTiming ("Loaded patient summary (" +:+ itoa total
                      +:+ " resources, 4 parallel API calls)") (elapsed v);
          PressEnter ]
    end end.

(** *** The selection rule in the words of the specification *)

Definition priority : list Task := [TPatient; TObservations; TConditions; TPlans].

(** The label that is folded into a wrapped failure of a task. *)
Definition label (t : Task) : string :=
  match t with
  | TPatient => "reading patient: "
  | TObservations => "loading observations: "
  | TConditions => "loading conditions: "
  | TPlans => "loading care plans: "
  end.

(** The failed task of highest priority, with its failure. *)
Definition highestPriorityFailure (errs : Task -> option error)
  : option (Task * error) :=
  head (omap (fun t => pair t <$> errs t) priority).

(** The domain wording of a missing patient. *)
Definition notFoundMessage (patientID : string) : error :=
  Errorf ("patient " +:+ patientID +:+ " not found").

(** The selection rule without its special case: the selected failure is
    always returned wrapped under the label of its task. *)
Definition label_wrapped_selection (a : Client) (clk : Clock)
    (patientID : string) : Prop :=
  forall t e,
    highestPriorityFailure (outcome a patientID) = Some (t, e) ->
    apiErr (Action a clk patientID) = Some (Errorf_w (label t) e).

(** The rewording rule read over all four tasks: whenever the selected
    failure is of NotFound kind, the not-found wording is returned. *)
Definition not_found_rewording_of_selected (a : Client) (clk : Clock)
    (patientID : string) : Prop :=
  forall t e,
    highestPriorityFailure (outcome a patientID) = Some (t, e) ->
    hasNotFound e = true ->
    apiErr (Action a clk patientID) = Some (notFoundMessage patientID).

(** The events that hand the aggregate to the operator. *)
Definition delivers (ev : Event) : bool :=
  match ev with
  | PrintSummary _ _ _ _ => true
  | showTiming _ _ => true
  | _ => false
  end.

(** *** Sample stores *)

(** A search reply with status 200 whose bundle carries the given resources. *)
Definition found (rs : list RawMessage) : SearchReply :=
  Replied 200 (inr (mkBundle (Some (map (fun r => mkBundleEntry (Some r)) rs)))).

(** A store that answers the patient read with [read] and the three searches
    with [o], [c] and [p]. *)
Definition fixedStore (read : RawMessage * option error)
    (o c p : SearchReply) : Client :=
  mkClient (fun _ _ => read)
           (fun resourceType _ =>
              if bool_decide (resourceType = "Observation") then o
              else if bool_decide (resourceType = "Condition") then c
              else p).

Definition clock0 : Clock := mkClock 1000 1250.

(** All four calls succeed, with 1, 3, 2 and 1 resources. *)
Definition storeAllFound : Client :=
  fixedStore ("pat", None) (found ["o1"; "o2"; "o3"]) (found ["c1"; "c2"])
             (found ["cp1"]).

(** The patient does not exist; the condition search fails as well. *)
Definition storeNoPatient : Client :=
  fixedStore ("", Some (StoreError NotFound "HTTP 404: resource not found"))
             (found ["o1"])
             (CallFailed (StoreError Transport "timeout"))
             (found []).

(** The patient is read; the observation search fails with a NotFound error
    of the store and the care-plan search with a refused request. *)
Definition storeNoObservations : Client :=
  fixedStore ("pat", None)
             (CallFailed (StoreError NotFound "HTTP 404: resource not found"))
             (found [])
             (Replied 503 (inl (Errorf "unexpected end of JSON input"))).

(** A state in the middle of a run against [storeNoPatient]: the patient
    read has failed and its goroutine is gone, the three searches are started
    and have not run. *)
Definition stateAfterFailedRead : Sched :=
  runSchedule storeNoPatient clock0 "p1"
              [Main; Main; Main; Main; Main; Go TPatient; Go TPatient] initial.

(** The state in which the reversed schedule ends against [storeAllFound]. *)
Definition stateReversedRun : Sched :=
  runSchedule storeAllFound clock0 "p1" scheduleReversed initial.

(** ** Start-up: Initialize *)

(** [strings.ToLower] on the letters A to Z; all other bytes are kept.  The
    program compares the result only with "https", "http", "localhost",
    "127.0.0.1" and "::1", and no character outside ASCII has its lower case
    among the letters of these. *)
Definition lowerByte (c : ascii) : ascii :=
  let n := nat_of_ascii c in
  if ((65 <=? n) && (n <=? 90))%nat then ascii_of_nat (n + 32) else c.

Fixpoint ToLower (s : string) : string :=
  match s with
  | EmptyString => EmptyString
  | String c rest => String (lowerByte c) (ToLower rest)
  end.

(** The parts of a parsed [*url.URL] that the program reads: the fields
    [Scheme] and [Host], and the result of the method [Hostname()], which is
    the host without port and brackets. *)
Record URL : Type := mkURL {
  Scheme : string;
  Host : string;
  Hostname : string
}.

(** What start-up takes from outside: the environment as [os.Getenv] reads it
    once [godotenv.Load()] has run, the parser [url.Parse], and the
    constructor [phenostore.NewClient]. *)
Record Platform : Type := mkPlatform {
  Getenv : string -> string;
  Parse : string -> error + URL;
  NewClient : string -> string -> string -> string -> string -> error + Client
}.

(** [App]: the shared client, nil until start-up succeeds. *)
Record App : Type := mkApp { TheClient : option Client }.

Definition errNotAbsolute : error :=
  Errorf "invalid PHENOSTORE_URL: must be an absolute URL".

Definition errNotHTTPS : error :=
  Errorf "invalid PHENOSTORE_URL: must use https (http is only allowed for localhost)".

Definition errMissingVariables : error :=
  Errorf "missing required environment variables: PHENOSTORE_URL, PHENOSTORE_CLIENT_ID, PHENOSTORE_CLIENT_SECRET, PHENOSTORE_TENANT, PHENOSTORE_STORE".

(** [validatePhenoStoreURL] *)
Definition validatePhenoStoreURL (os : Platform) (rawURL : string)
  : option error :=
  match Parse os rawURL with
  | inl _ => Some errNotAbsolute
  | inr parsed =>
      if bool_decide (Scheme parsed = "") || bool_decide (Host parsed = "")
      then Some errNotAbsolute
      else
        let scheme := ToLower (Scheme parsed) in
        if bool_decide (scheme = "https") then None
        else if bool_decide (scheme = "http") then
          let host := ToLower (Hostname parsed) in
          if bool_decide (host = "localhost")
             || bool_decide (host = "127.0.0.1")
             || bool_decide (host = "::1")
          then None
          else Some errNotHTTPS
        else Some errNotHTTPS
  end.

(** [Initialize]: the application after the call and the error returned. *)
Definition Initialize (os : Platform) (a : App) : App * option error :=
  let url := Getenv os "PHENOSTORE_URL" in
  let clientID := Getenv os "PHENOSTORE_CLIENT_ID" in
  let clientSecret := Getenv os "PHENOSTORE_CLIENT_SECRET" in
  let tenant := Getenv os "PHENOSTORE_TENANT" in
  let store := Getenv os "PHENOSTORE_STORE" in
  if bool_decide (url = "") || bool_decide (clientID = "")
     || bool_decide (clientSecret = "") || bool_decide (tenant = "")
     || bool_decide (store = "")
  then (a, Some errMissingVariables)
  else
    match validatePhenoStoreURL os url with
    | Some err => (a, Some err)
    | None =>
        match NewClient os url clientID clientSecret tenant store with
        | inl err => (a, Some (Errorf_w "creating client: " err))
        | inr client => (mkApp (Some client), None)
        end
    end.

(** *** The start-up rule, stated as properties *)

Definition requiredVariables : list string :=
  [ "PHENOSTORE_URL"; "PHENOSTORE_CLIENT_ID"; "PHENOSTORE_CLIENT_SECRET";
    "PHENOSTORE_TENANT"; "PHENOSTORE_STORE" ].

Definition loopbackHosts : list string := ["localhost"; "127.0.0.1"; "::1"].

(** One of the five required variables is empty. *)
Definition missingVariable (os : Platform) : Prop :=
  exists name, name ∈ requiredVariables /\ Getenv os name = "".

(** [PHENOSTORE_URL] does not parse as a URL with a scheme and a host. *)
Definition notAbsolute (os : Platform) : Prop :=
  match Parse os (Getenv os "PHENOSTORE_URL") with
  | inl _ => True
  | inr parsed => Scheme parsed = "" \/ Host parsed = ""
  end.

(** [PHENOSTORE_URL] has scheme http and a host that is not a loopback host. *)
Definition plainHTTPOffLoopback (os : Platform) : Prop :=
  exists parsed,
    Parse os (Getenv os "PHENOSTORE_URL") = inr parsed /\
    ToLower (Scheme parsed) = "http" /\
    ToLower (Hostname parsed) ∉ loopbackHosts.

(** An https URL, or an http URL on a loopback host. *)
Definition acceptable (parsed : URL) : Prop :=
  ToLower (Scheme parsed) = "https" \/
  (ToLower (Scheme parsed) = "http" /\ ToLower (Hostname parsed) ∈ loopbackHosts).

(** *** Sample platforms *)

(** A parser for the few URLs of the examples. *)
Definition sampleParse (rawURL : string) : error + URL :=
  if bool_decide (rawURL = "https://api.phenostore.example.com")
  then inr (mkURL "https" "api.phenostore.example.com" "api.phenostore.example.com")
  else if bool_decide (rawURL = "http://api.phenostore.example.com")
  then inr (mkURL "http" "api.phenostore.example.com" "api.phenostore.example.com")
  else if bool_decide (rawURL = "HTTP://LocalHost:8080")
  then inr (mkURL "http" "LocalHost:8080" "LocalHost")
  else if bool_decide (rawURL = "http://[::1]:8080")
  then inr (mkURL "http" "[::1]:8080" "::1")
  else if bool_decide (rawURL = "api.phenostore.example.com")
  then inr (mkURL "" "" "")
  else inl (Errorf "parse: invalid URL").

(** An environment with all five variables set and the given URL. *)
Definition sampleEnv (url : string) (name : string) : string :=
  if bool_decide (name = "PHENOSTORE_URL") then url
  else if bool_decide (name ∈ requiredVariables) then "x"
  else "".

Definition samplePlatform (url : string) : Platform :=
  mkPlatform (sampleEnv url) sampleParse (fun _ _ _ _ _ => inr storeAllFound).

(** ** Care plans: CompleteActivity *)

(** [v.([]any)] with the second result dropped: the nil slice unless [v]
    holds a slice.  [None] stands for a missing key. *)
Definition asSlice (v : option any) : list any :=
  match v with
  | Some (ASlice xs) => xs
  | _ => []
  end.

(** [v.(map[string]any)]: the nil map, [None], unless [v] holds a map. *)
Definition asMap (v : option any) : option loc :=
  match v with
  | Some (AMap l) => Some l
  | _ => None
  end.

(** [v.(string)] with the second result dropped. *)
Definition asString (v : option any) : string :=
  match v with
  | Some (AString s) => s
  | _ => ""
  end.

(** [m[key]] for a map that may be nil. *)
Definition index (h : heap) (m : option loc) (key : string) : option any :=
  l ← m; entries ← h !! l; entries !! key.

(** [m[key] = v] on the map object at [l]. *)
Definition mapAssign (h : heap) (l : loc) (key : string) (v : any) : heap :=
  <[l := <[key := v]> (default ∅ (h !! l))]> h.

Definition newline : string := String "010" "".

(** The loop that builds the options: one per activity that is a map with a
    detail map whose status is not "completed", labelled with its position
    counted from one and carrying its index. *)
Fixpoint optionsFrom (h : heap) (i : nat) (activities : list any)
  : list (string * nat) :=
  match activities with
  | [] => []
  | a :: rest =>
      let more := optionsFrom h (S i) rest in
      match asMap (Some a) with
      | None => more
      | Some act =>
          match asMap (index h (Some act) "detail") with
          | None => more
          | Some detail =>
              let status := asString (index h (Some detail) "status") in
              if bool_decide (status = "completed") then more
              else
                let desc := asString (index h (Some detail) "description") in
                (itoa (Z.of_nat i + 1) +:+ ". " +:+ desc, i) :: more
          end
      end
  end.

Definition buildOptions (h : heap) (activities : list any) : list (string * nat) :=
  optionsFrom h 0 activities.

(** One round of the loop that computes [allDone]. *)
Definition activityDone (h : heap) (a : any) : bool :=
  let am := asMap (Some a) in
  let d := asMap (index h am "detail") in
  bool_decide (asString (index h d "status") = "completed").

(** The statements from "Mark the activity as completed" to the assignment
    of the top-level status: the heap they leave, [allDone], and the detail
    map that was written.  [None] is a run-time panic: an index out of range
    or an assignment to an entry of a nil map. *)
Definition markCompleted (h : heap) (carePlan : loc) (activities : list any)
    (actIdx : nat) : option (heap * bool * loc) :=
  a ← activities !! actIdx;
  let act := asMap (Some a) in
  detail ← asMap (index h act "detail");
  let h := mapAssign h detail "status" (AString "completed") in
  let allDone := forallb (activityDone h) activities in
  let h := if allDone
           then mapAssign h carePlan "status" (AString "completed")
           else h in
  Some (h, allDone, detail).

(** What is shown when a picker returns an error or nothing. *)
Definition pickFailed (err : option error) : list Event :=
  match err with
  | Some e => if negb (isAbort err) then [ShowError e; PressEnter] else []
  | None => []
  end.

(** What one call of [CompleteActivity] takes from the terminal and from the
    libraries: the results of the two pickers, of the two spinners, of
    [json.Unmarshal] on the plan that was read (the heap of its maps and the
    location of the plan itself), of the select over the options (the value
    it leaves in [actIdx] and its error), and of [UpdateResource]. *)
Record PlanSession : Type := mkPlanSession {
  pickedPatient : string * option error;
  pickedCarePlan : string * option error;
  loadSpin : option error;
  Unmarshal : RawMessage -> error + (heap * loc);
  selectActivity : list (string * nat) -> nat * option error;
  updateSpin : option error;
  updateReply : option error
}.

(** [CompleteActivity]; [None] is a run-time panic. *)
Definition CompleteActivity (a : Client) (ui : PlanSession)
  : option (list Event) :=
  let '(patientID, err) := pickedPatient ui in
  if bool_decide (err <> None) || bool_decide (patientID = "")
  then Some (pickFailed err) else
  let '(cpID, err) := pickedCarePlan ui in
  if bool_decide (err <> None) || bool_decide (cpID = "")
  then Some (pickFailed err) else
  let '(carePlanRaw, apiErr) := ReadResource a "CarePlan" cpID in
  match loadSpin ui with
  | Some e => Some [ShowError e; PressEnter]
  | None =>
  match apiErr with
  | Some e => Some [ShowError (Errorf_w "reading care plan: " e); PressEnter]
  | None =>
  match Unmarshal ui carePlanRaw with
  | inl e => Some [ShowError (Errorf_w "parsing care plan: " e); PressEnter]
  | inr (h, carePlan) =>
  let activities := asSlice (index h (Some carePlan) "activity") in
  if bool_decide (length activities = 0%nat)
  then Some [Println (newline +:+ "  No activities in this care plan."); PressEnter]
  else
  let options := buildOptions h activities in
  if bool_decide (length options = 0%nat)
  then Some [Println (newline +:+ "  All activities are already completed.");
             PressEnter]
  else
  let '(actIdx, err) := selectActivity ui options in
  match err with
  | Some e => Some (pickFailed err)
  | None =>
      '(h, allDone, detail) ← markCompleted h carePlan activities actIdx;
      let update := UpdateResource "CarePlan" cpID carePlan h in
      match updateSpin ui with
      | Some e => Some [update; ShowError e; PressEnter]
      | None =>
      match updateReply ui with
      | Some e =>
          Some [update; ShowError (Errorf_w "updating care plan: " e); PressEnter]
      | None =>
          let desc := asString (index h (Some detail) "description") in
          Some ([update; Println (newline +:+ "  Completed activity: " +:+ desc)]
                ++ (if allDone : bool
                    then [Println "  All activities completed — plan marked as completed."]
                    else [])
                ++ [PressEnter])
      end end
  end end end end.

(** *** The completion rule, stated as properties *)

(** The activity is a map whose detail is a map with status "completed". *)
Definition hasCompletedDetail (h : heap) (a : any) : Prop :=
  exists act detail,
    a = AMap act /\
    index h (Some act) "detail" = Some (AMap detail) /\
    index h (Some detail) "status" = Some (AString "completed").

(** The top-level status field of the plan. *)
Definition topStatus (h : heap) (carePlan : loc) : option any :=
  index h (Some carePlan) "status".

(** The plan is the root of what was decoded: it is not the detail of any
    map. *)
Definition rootIsNoDetail (h : heap) (carePlan : loc) : Prop :=
  forall l, index h (Some l) "detail" <> Some (AMap carePlan).

(** The update that a run sends, if any. *)
Definition sentUpdate (events : list Event) : option (loc * heap) :=
  head (omap (fun ev => match ev with
                        | UpdateResource _ _ root h => Some (root, h)
                        | _ => None
                        end) events).

(** The top-level status of the plan in the update that a run sends. *)
Definition sentStatus (run : option (list Event)) : option (option any) :=
  events ← run;
  '(root, h) ← sentUpdate events;
  Some (topStatus h root).

(** *** Sample plans *)

Definition activityMap (detail : loc) : gmap string any :=
  {[ "detail" := AMap detail ]}.

Definition detailMap (status description : string) : gmap string any :=
  {[ "status" := AString status; "description" := AString description ]}.

(** A plan at location 1 with two activities, the first with the given
    status and the second not started. *)
Definition samplePlan (firstStatus : string) : heap :=
  {[ 1%positive := {[ "resourceType" := AString "CarePlan";
                      "status" := AString "active";
                      "activity" := ASlice [AMap 2%positive; AMap 3%positive] ]};
     2%positive := activityMap 4%positive;
     3%positive := activityMap 5%positive;
     4%positive := detailMap firstStatus "Measure blood pressure";
     5%positive := detailMap "not-started" "Walk 30 minutes" ]}.

Definition sampleSession (firstStatus : string) (actIdx : nat) : PlanSession :=
  mkPlanSession ("p1", None) ("cp1", None) None
                (fun _ => inr (samplePlan firstStatus, 1%positive))
                (fun _ => (actIdx, None)) None None.

(** ** fhir: reading decoded resources *)

(** display.go, [getString], [getMap] and [getSlice]: the entry of a map
    under a key when it has the wanted type, else the zero value.  The map
    itself may be nil. *)
Definition getString (h : heap) (m : option loc) (key : string) : string :=
  asString (index h m key).

Definition getMap (h : heap) (m : option loc) (key : string) : option loc :=
  asMap (index h m key).

Definition getSlice (h : heap) (m : option loc) (key : string) : list any :=
  asSlice (index h m key).

(** [PatientRef]: the patient id of a subject reference such as
    "Patient/abc123"; a reference without that prefix is returned whole. *)
Definition PatientRef (h : heap) (m : option loc) : string :=
  match getMap h m "subject" with
  | None => ""
  | Some sub =>
      let ref := getString h (Some sub) "reference" in
      if String.prefix "Patient/" ref
      then substring 8 (String.length ref - 8) ref
      else ref
  end.

(** One round of the loop of [carePlanProgress] on the pair of counters
    (completed, total).  The counters are bounded by the number of
    activities, so that they are kept as natural numbers. *)
Definition countActivity (h : heap) (counts : nat * nat) (a : any) : nat * nat :=
  let '(completed, total) := counts in
  match asMap (Some a) with
  | None => (completed, total)
  | Some act =>
      match getMap h (Some act) "detail" with
      | None => (completed, total)
      | Some detail =>
          if bool_decide (getString h (Some detail) "status" = "completed")
          then (S completed, S total)
          else (completed, S total)
      end
  end.

(** [carePlanProgress]: the numbers of completed and of all activities. *)
Definition carePlanProgress (h : heap) (m : option loc) : nat * nat :=
  fold_left (countActivity h) (getSlice h m "activity") (0%nat, 0%nat).

(** [DashboardItem]: an activity that is not completed. *)
Record DashboardItem : Type := mkDashboardItem {
  Description : string;
  Status : string;
  ScheduleNote : string
}.

(** [DashboardPlan]: a care plan with the name of its patient. *)
Module DashboardPlan.
Record t : Type := mk {
  PatientName : string;
  Title : string;
  Completed : nat;
  Total : nat;
  Outstanding : list DashboardItem
}.
End DashboardPlan.

(** One round of the loop of [GetDashboardPlan]. *)
Definition dashboardActivity (h : heap) (dp : DashboardPlan.t) (a : any)
  : DashboardPlan.t :=
  match asMap (Some a) with
  | None => dp
  | Some act =>
      match getMap h (Some act) "detail" with
      | None => dp
      | Some detail =>
          if bool_decide (getString h (Some detail) "status" = "completed")
          then DashboardPlan.mk (DashboardPlan.PatientName dp) (DashboardPlan.Title dp)
                 (S (DashboardPlan.Completed dp)) (S (DashboardPlan.Total dp))
                 (DashboardPlan.Outstanding dp)
          else DashboardPlan.mk (DashboardPlan.PatientName dp) (DashboardPlan.Title dp)
                 (DashboardPlan.Completed dp) (S (DashboardPlan.Total dp))
                 (DashboardPlan.Outstanding dp
                  ++ [mkDashboardItem
                        (getString h (Some detail) "description")
                        (getString h (Some detail) "status")
                        (getString h (Some detail) "scheduledString")])
      end
  end.

(** [GetDashboardPlan] *)
Definition GetDashboardPlan (h : heap) (carePlan : option loc)
    (patientName : string) : DashboardPlan.t :=
  fold_left (dashboardActivity h) (getSlice h carePlan "activity")
            (DashboardPlan.mk patientName (getString h carePlan "title")
                              0%nat 0%nat []).

(** How the loops above see one activity: not counted, or counted with its
    being completed or not. *)
Definition activityState (h : heap) (a : any) : option bool :=
  act ← asMap (Some a);
  detail ← getMap h (Some act) "detail";
  Some (bool_decide (getString h (Some detail) "status" = "completed")).
(** *** More sample data *)

(** The schedule in which every goroutine runs to its end as soon as it is
    started. *)
Definition scheduleInOrder : list Thread :=
  [ Main; Main; Go TPatient; Go TPatient; Main; Go TObservations;
    Go TObservations; Main; Go TConditions; Go TConditions; Main; Go TPlans;
    Go TPlans; Main; Main ].

(** The states in which the two schedules end against [storeNoObservations]. *)
Definition stateInOrderFailing : Sched :=
  runSchedule storeNoObservations clock0 "p1" scheduleInOrder initial.

Definition stateReversedFailing : Sched :=
  runSchedule storeNoObservations clock0 "p1" scheduleReversed initial.


(** A care plan as [fhir.NewCarePlan] builds it for patient "abc123". *)
Definition planOfPatient : heap :=
  {[ 1%positive := {[ "resourceType" := AString "CarePlan";
                      "status" := AString "active";
                      "intent" := AString "plan";
                      "title" := AString "Low-sodium diet";
                      "subject" := AMap 2%positive;
                      "activity" := ASlice [] ]};
     2%positive := {[ "reference" := AString "Patient/abc123" ]} ]}.

(** ** The store over several calls *)

(** A call that reaches the store.  The functions below thread the list of
    the calls made so far, oldest first, so that an answer of the store may
    depend on everything that was asked of it before: a search after a
    deletion need not find what an earlier search found. *)
Inductive Call : Type :=
| CSearch (resourceType : string) (query : list (string * string))
| CRead (resourceType id : string)
| CDelete (resourceType id : string).

#[global] Instance Call_eq_dec : EqDecision Call.
Proof. solve_decision. Defined.

(** The store from the moment one of the functions below is entered: what
    it answers to a call, given the calls made since. *)
Record Server : Type := mkServer {
  searchReply : list Call -> string -> list (string * string) -> SearchReply;
  readReply : list Call -> string -> string -> RawMessage * option error;
  deleteReply : list Call -> string -> string -> option error
}.

(** The library functions that the code below calls and that are not part
    of this repository: [json.Unmarshal] into a [map[string]any], which
    gives an error, or the heap of the decoded maps with the decoded map
    itself ([None] for the nil map that the JSON value null decodes to), and
    [strings.TrimSpace]. *)
Record Library : Type := mkLibrary {
  unmarshalMap : RawMessage -> error + (heap * option loc);
  TrimSpace : string -> string
}.

(** display.go, [Parse] and [ResourceID]. *)
Definition ParseMap (lib : Library) (raw : RawMessage)
  : error + (heap * option loc) :=
  unmarshalMap lib raw.

Definition ResourceID (lib : Library) (raw : RawMessage) : string :=
  match ParseMap lib raw with
  | inl _ => ""
  | inr (h, m) => getString h m "id"
  end.

(** ** Seed data: DeleteSeedData *)

Definition seedTagQuery : string := "phenostore-example|seed".

(** [searchByTag], after the calls [past]: the calls made up to its return,
    the ids, and the error. *)
Definition searchByTag (lib : Library) (sv : Server) (past : list Call)
    (resourceType tag : string) : list Call * list string * option error :=
  let query := [("_tag", tag)] in
  let past' := past ++ [CSearch resourceType query] in
  match searchReply sv past resourceType query with
  | CallFailed err =>
      (past', [], Some (Errorf_w ("searching " +:+ resourceType +:+ ": ") err))
  | Replied StatusCode decoded =>
      if 400 <=? StatusCode then
        (past', [], Some (Errorf ("search " +:+ resourceType +:+ " failed: HTTP "
                                  +:+ itoa StatusCode)))
      else
        match decoded with
        | inl err => (past', [], Some (Errorf_w "parsing response: " err))
        | inr bundle =>
            (past',
             filter (fun id => id <> "") (ResourceID lib <$> extractResources bundle),
             None)
        end
  end.

Definition resourceTypes : list string :=
  ["CarePlan"; "Observation"; "Condition"; "Patient"].

(** The inner loop of the closure of [DeleteSeedData], over the ids of one
    resource type: the calls made, the counter [deleted], and the error with
    which the closure returns, if it does.  The counter is at most the number
    of ids of four slices, so that it is kept as a natural number. *)
Fixpoint deleteEach (sv : Server) (rt : string) (ids : list string)
    (past : list Call) (deleted : nat) : list Call * nat * option error :=
  match ids with
  | [] => (past, deleted, None)
  | id :: rest =>
      let past' := past ++ [CDelete rt id] in
      match deleteReply sv past rt id with
      | Some err =>
          (past', deleted,
           Some (Errorf_w ("deleting " +:+ rt +:+ "/" +:+ id +:+ ": ") err))
      | None => deleteEach sv rt rest past' (S deleted)
      end
  end.

(** The outer loop, over the resource types. *)
Fixpoint deleteByType (lib : Library) (sv : Server) (types : list string)
    (past : list Call) (deleted : nat) : list Call * nat * option error :=
  match types with
  | [] => (past, deleted, None)
  | rt :: rest =>
      let '(past, ids, err) := searchByTag lib sv past rt seedTagQuery in
      match err with
      | Some e => (past, deleted, Some e)
      | None =>
          let '(past, deleted, err) := deleteEach sv rt ids past deleted in
          match err with
          | Some e => (past, deleted, Some e)
          | None => deleteByType lib sv rest past deleted
          end
      end
  end.

Module Seed.

(** The variables that the closure of [DeleteSeedData] shares with it. *)
Record Vars : Type := mkVars {
  deleted : nat;
  apiErr : option error;
  elapsed : Z
}.

(** What one call of [DeleteSeedData] takes from the terminal: the value
    that the confirmation leaves in [confirm] with its error, and the error
    of the spinner. *)
Record Session : Type := mkSession {
  confirmRun : bool * option error;
  spinRun : option error
}.

End Seed.

(** The closure that [DeleteSeedData] runs under the spinner: the calls it
    makes and the variables as it leaves them.  [elapsed] is assigned only
    when both loops run to their end. *)
Definition deleteAction (lib : Library) (sv : Server) (clk : Clock)
  : list Call * Seed.Vars :=
  let '(past, deleted, err) := deleteByType lib sv resourceTypes [] 0%nat in
  (past,
   Seed.mkVars deleted err
               (match err with
                | None => atJoin clk - atStart clk
                | Some _ => 0
                end)).

(** [DeleteSeedData]: the calls made to the store and what is shown. *)
Definition DeleteSeedData (lib : Library) (sv : Server) (clk : Clock)
    (ui : Seed.Session) : list Call * list Event :=
  let '(confirm, err) := Seed.confirmRun ui in
  if bool_decide (err <> None) || negb confirm then ([], []) else
  let '(calls, v) := deleteAction lib sv clk in
  match Seed.spinRun ui with
  | Some e => (calls, [ShowError e; PressEnter])
  | None =>
  match Seed.apiErr v with
  | Some e => (calls, [ShowError e; PressEnter])
  | None =>
      if bool_decide (Seed.deleted v = 0%nat)
      then (calls, [Println (newline +:+ "  No seed data found."); PressEnter])
      else
        let n := itoa (Z.of_nat (Seed.deleted v)) in
        (calls,
         [ Println (newline +:+ "  Deleted " +:+ n +:+ " seed resources.");
           showTiming ("Deleted " +:+ n +:+ " resources") (Seed.elapsed v);
           PressEnter ])
  end end.

(** *** The run of DeleteSeedData, stated as properties *)

(** The resource type that a call names. *)
Definition typeOf (call : Call) : string :=
  match call with
  | CSearch rt _ | CRead rt _ | CDelete rt _ => rt
  end.

(** The place of a resource type in [resourceTypes]. *)
Definition placeOf (rt : string) : nat :=
  default (length resourceTypes) (fst <$> list_find (fun x => x = rt) resourceTypes).

(** The failure of a search by tag, as [searchByTag] words it. *)
Definition searchFailure (resourceType : string) (reply : SearchReply)
  : option error :=
  match reply with
  | CallFailed err =>
      Some (Errorf_w ("searching " +:+ resourceType +:+ ": ") err)
  | Replied StatusCode decoded =>
      if 400 <=? StatusCode then
        Some (Errorf ("search " +:+ resourceType +:+ " failed: HTTP "
                      +:+ itoa StatusCode))
      else
        match decoded with
        | inl err => Some (Errorf_w "parsing response: " err)
        | inr _ => None
        end
  end.

(** The error that the closure of [DeleteSeedData] takes from the answer of
    the store to [call] made after the calls [pre]. *)
Definition callError (sv : Server) (pre : list Call) (call : Call)
  : option error :=
  match call with
  | CSearch rt query => searchFailure rt (searchReply sv pre rt query)
  | CDelete rt id =>
      Errorf_w ("deleting " +:+ rt +:+ "/" +:+ id +:+ ": ")
        <$> deleteReply sv pre rt id
  | CRead _ _ => None
  end.

Definition isDelete (call : Call) : bool :=
  match call with
  | CDelete _ _ => true
  | _ => false
  end.

(** The store holds, after the calls [pre], a resource of type [rt] with
    id [id] under the seed tag: a search for the tag is answered with a
    bundle that carries a resource with that id. *)
Definition taggedAsSeed (lib : Library) (sv : Server) (pre : list Call)
    (rt id : string) : Prop :=
  exists StatusCode bundle raw,
    searchReply sv pre rt [("_tag", seedTagQuery)]
      = Replied StatusCode (inr bundle) /\
    StatusCode < 400 /\
    raw ∈ extractResources bundle /\
    ResourceID lib raw = id.

(** No call of [calls] was answered with a failure. *)
Definition noFailure (sv : Server) (calls : list Call) : Prop :=
  forall pre c post, calls = pre ++ c :: post -> callError sv pre c = None.

(** How the two loops can end: without an error, no call having failed and
    [deleted] counting the deletions; or with the error of the last call,
    no call before it having failed. *)
Definition loopsEnd (sv : Server) (r : list Call * nat * option error) : Prop :=
  let '(calls, deleted, err) := r in
  match err with
  | None =>
      noFailure sv calls /\
      deleted = length (filter (fun c => isDelete c = true) calls)
  | Some e =>
      exists pre c, calls = pre ++ [c] /\ noFailure sv pre /\
                    callError sv pre c = Some e
  end.

(** The calls name resource types of [resourceTypes] up to place [n], in
    the order of their places. *)
Definition inPlace (n : nat) (calls : list Call) : Prop :=
  (forall c, c ∈ calls ->
             typeOf c ∈ resourceTypes /\ (placeOf (typeOf c) <= n)%nat) /\
  (forall i j c1 c2,
      (i < j)%nat -> calls !! i = Some c1 -> calls !! j = Some c2 ->
      (placeOf (typeOf c1) <= placeOf (typeOf c2))%nat).

(** The types are listed by ascending place. *)
Fixpoint ascending (types : list string) : Prop :=
  match types with
  | [] => True
  | rt :: rest =>
      rt ∈ resourceTypes /\
      Forall (fun b => (placeOf rt <= placeOf b)%nat) rest /\ ascending rest
  end.

(** Every deletion among the calls is of an id that is not empty and that
    an earlier search of the run for the seed tag found under that type. *)
Definition deletionsSought (lib : Library) (sv : Server) (calls : list Call)
  : Prop :=
  forall j rt id,
    calls !! j = Some (CDelete rt id) ->
    id <> "" /\
    exists i, (i < j)%nat /\
              calls !! i = Some (CSearch rt [("_tag", seedTagQuery)]) /\
              taggedAsSeed lib sv (take i calls) rt id.

(** Every call is a deletion or a search for the seed tag. *)
Definition onlySeedCalls (calls : list Call) : Prop :=
  forall c, c ∈ calls ->
            (exists rt id, c = CDelete rt id) \/
            (exists rt, c = CSearch rt [("_tag", seedTagQuery)]).

(** *** A sample store with seed data *)

Definition sampleUnmarshal (raw : RawMessage) : error + (heap * option loc) :=
  if bool_decide (raw = "null") then inr (∅, None)
  else if bool_decide (raw = "") then inl (Errorf "unexpected end of JSON input")
  else inr ({[ 1%positive := {[ "id" := AString raw ]} ]}, Some 1%positive).

Definition sampleLibrary : Library := mkLibrary sampleUnmarshal (fun s => s).

(** A store with one seed plan and two seed patients, one of which cannot
    be deleted when [locked] is set; what is deleted is no longer found. *)
Definition seedStore (locked : bool) : Server :=
  mkServer
    (fun past rt _ =>
       let all := if bool_decide (rt = "CarePlan") then ["cp1"]
                  else if bool_decide (rt = "Patient") then ["p1"; "p2"]
                  else [] in
       let left := filter (fun id => CDelete rt id ∉ past) all in
       Replied 200 (inr (mkBundle (Some ((fun id => mkBundleEntry (Some id)) <$> left)))))
    (fun _ _ id => (id, None))
    (fun _ rt id =>
       if locked && bool_decide (id = "p2")
       then Some (StoreError Transport "resource is referenced")
       else None).

Definition seedConfirmed : Seed.Session := Seed.mkSession (true, None) None.

(** ** Care plans: AddActivity *)

(** A map literal: a new map object, at a location that was not in use. *)
Definition newMap (h : heap) (entries : gmap string any) : heap * loc :=
  let l := fresh (dom h) in (<[l := entries]> h, l).

(** resources.go, [NewCarePlanActivity]: the heap with the two maps that it
    makes, and the location of the activity. *)
Definition NewCarePlanActivity (h : heap) (description due : string)
  : heap * loc :=
  let '(h, detail) :=
    newMap h {[ "status" := AString "not-started";
                "description" := AString description ]} in
  let h := if bool_decide (due <> "")
           then mapAssign h detail "scheduledString" (AString ("By " +:+ due))
           else h in
  newMap h {[ "detail" := AMap detail ]}.

(** The three statements of [AddActivity] that add the activity to the
    decoded plan: the heap they leave, with the location of the plan.
    [None] is the run-time panic of an assignment to an entry of the nil
    map. *)
Definition appendActivity (h : heap) (carePlan : option loc)
    (description due : string) : option (heap * loc) :=
  let activities := asSlice (index h carePlan "activity") in
  let '(h, act) := NewCarePlanActivity h description due in
  let activities := activities ++ [AMap act] in
  l ← carePlan;
  Some (mapAssign h l "activity" (ASlice activities), l).

Module Add.

(** What one call of [AddActivity] takes from the terminal and from the
    libraries: the results of the two pickers, the description and the due
    date that the form leaves with its error, the errors of [json.Marshal]
    and of [UpdateResource], and the error of the spinner. *)
Record Session : Type := mkSession {
  pickedPatient : string * option error;
  pickedCarePlan : string * option error;
  formRun : string * string * option error;
  marshalErr : option error;
  updateReply : option error;
  spinRun : option error
}.

End Add.



(** *** Adding an activity, stated as properties *)

(** The maps of the activities are objects of the heap, and so are their
    detail maps: what [json.Unmarshal] decodes refers to nothing else. *)
Definition noDangling (h : heap) (activities : list any) : Prop :=
  forall act, AMap act ∈ activities ->
    is_Some (h !! act) /\
    forall d, getMap h (Some act) "detail" = Some d -> is_Some (h !! d).

(** The heap [h'] shows of the activity [a] what the heap [h] shows: the
    same detail map, with the same entries under the keys that the loops
    over the activities read. *)
Definition sameActivity (h h' : heap) (a : any) : Prop :=
  forall act, a = AMap act ->
    getMap h' (Some act) "detail" = getMap h (Some act) "detail" /\
    forall d key, getMap h (Some act) "detail" = Some d -> key <> "activity" ->
                  index h' (Some d) key = index h (Some d) key.

(** The entries of the detail map that [NewCarePlanActivity] makes. *)
Definition newDetail (description due : string) : gmap string any :=
  if bool_decide (due <> "")
  then <["scheduledString" := AString ("By " +:+ due)]>
         {[ "status" := AString "not-started";
            "description" := AString description ]}
  else {[ "status" := AString "not-started";
          "description" := AString description ]}.


(** *** Sample data *)




(** The sample plan with the first activity completed, after an activity
    was added to it. *)
Definition planWithWalk : heap :=
  default ∅ (fst <$> appendActivity (samplePlan "completed") (Some 1%positive)
                                    "Walk 20 minutes" "2026-12-01").

(** ** Care plans: ClinicDashboard *)

(** display.go, [PatientName] *)
Definition PatientName (lib : Library) (h : heap) (m : option loc) : string :=
  match getSlice h m "name" with
  | [] => "(unknown)"
  | first :: _ =>
      match asMap (Some first) with
      | None => "(unknown)"
      | Some name =>
          let given :=
            match getSlice h (Some name) "given" with
            | g :: _ => asString (Some g)
            | [] => ""
            end in
          let family := getString h (Some name) "family" in
          TrimSpace lib (given +:+ " " +:+ family)
      end
  end.

(** [resolvePatientName], after the calls [past]: the calls made up to its
    return, and the name. *)
Definition resolvePatientName (lib : Library) (sv : Server) (past : list Call)
    (patientID : string) : list Call * string :=
  let past' := past ++ [CRead "Patient" patientID] in
  let '(raw, err) := readReply sv past "Patient" patientID in
  match err with
  | Some _ => (past', patientID)
  | None =>
      match ParseMap lib raw with
      | inl _ => (past', patientID)
      | inr (h, m) => (past', PatientName lib h m)
      end
  end.

Module Clinic.

(** What [ClinicDashboard] shows: the events of the other functions, and
    the dashboard printed from the collected plans. *)
Inductive Shown : Type :=
| Ev (e : Event)
| PrintClinicDashboard (plans : list DashboardPlan.t).

(** The variables of the loop of [ClinicDashboard], with the calls made. *)
Record Loop : Type := mkLoop {
  calls : list Call;
  patientNames : gmap string string;
  allPlans : list DashboardPlan.t
}.

End Clinic.

(** The search of the closure of [ClinicDashboard]: [entries] and
    [fetchErr]. *)
Definition dashboardSearch (sv : Server) : list RawMessage * option error :=
  match searchReply sv [] "CarePlan" [("status", "active")] with
  | CallFailed err => ([], Some (Errorf_w "searching care plans: " err))
  | Replied StatusCode decoded =>
      if 400 <=? StatusCode then
        ([], Some (Errorf ("search failed: HTTP " +:+ itoa StatusCode)))
      else
        match decoded with
        | inl err => ([], Some (Errorf_w "parsing response: " err))
        | inr bundle => (extractResources bundle, None)
        end
  end.

(** One round of the loop over the entries. *)
Definition dashboardRound (lib : Library) (sv : Server) (st : Clinic.Loop)
    (raw : RawMessage) : Clinic.Loop :=
  match ParseMap lib raw with
  | inl _ => st
  | inr (h, m) =>
      let patientID := PatientRef h m in
      match Clinic.patientNames st !! patientID with
      | Some name =>
          Clinic.mkLoop (Clinic.calls st) (Clinic.patientNames st)
                        (Clinic.allPlans st ++ [GetDashboardPlan h m name])
      | None =>
          let '(past, name) :=
            resolvePatientName lib sv (Clinic.calls st) patientID in
          Clinic.mkLoop past (<[patientID := name]> (Clinic.patientNames st))
                        (Clinic.allPlans st ++ [GetDashboardPlan h m name])
      end
  end.

(** [ClinicDashboard]: the calls made to the store and what is shown;
    [spin] is the error of the spinner. *)
Definition ClinicDashboard (lib : Library) (sv : Server) (clk : Clock)
    (spin : option error) : list Call * list Clinic.Shown :=
  let past := [CSearch "CarePlan" [("status", "active")]] in
  let '(entries, fetchErr) := dashboardSearch sv in
  let elapsed := match fetchErr with
                 | None => atJoin clk - atStart clk
                 | Some _ => 0
                 end in
  match spin with
  | Some e => (past, [Clinic.Ev (ShowError e); Clinic.Ev PressEnter])
  | None =>
  match fetchErr with
  | Some e => (past, [Clinic.Ev (ShowError e); Clinic.Ev PressEnter])
  | None =>
      if bool_decide (length entries = 0%nat)
      then (past, [Clinic.Ev (Println (newline +:+ "  No active health plans found."));
                   Clinic.Ev PressEnter])
      else
        let st := fold_left (dashboardRound lib sv) entries
                            (Clinic.mkLoop past ∅ []) in
        (Clinic.calls st,
         [ Clinic.Ev (Println "");
           Clinic.PrintClinicDashboard (Clinic.allPlans st);
           Clinic.Ev (showTiming
                        ("Fetched " +:+ itoa (Z.of_nat (length entries))
                         +:+ " active care plans across "
                         +:+ itoa (Z.of_nat (size (Clinic.patientNames st)))
                         +:+ " patients") elapsed);
           Clinic.Ev PressEnter ])
  end end.

(** *** The loop of ClinicDashboard, stated as properties *)

(** The entries that [Parse] decodes, decoded. *)
Definition decodedPlans (lib : Library) (entries : list RawMessage)
  : list (heap * option loc) :=
  omap (fun raw => match ParseMap lib raw with
                   | inr hm => Some hm
                   | inl _ => None
                   end) entries.

(** The patient ids of the decoded plans. *)
Definition patientsOf (lib : Library) (entries : list RawMessage) : list string :=
  (fun hm => PatientRef hm.1 hm.2) <$> decodedPlans lib entries.

(** What holds of the variables of the loop after the entries [entries],
    with [reads] the ids of the patients read, in the order of the reads. *)
Definition dashboardInv (lib : Library) (sv : Server) (past0 : list Call)
    (entries : list RawMessage) (reads : list string) (st : Clinic.Loop) : Prop :=
  Clinic.calls st = past0 ++ (CRead "Patient" <$> reads) /\
  NoDup reads /\
  (forall id, id ∈ reads <-> id ∈ patientsOf lib entries) /\
  (forall id, is_Some (Clinic.patientNames st !! id) <-> id ∈ reads) /\
  size (Clinic.patientNames st) = length reads /\
  (forall i id,
      reads !! i = Some id ->
      Clinic.patientNames st !! id
      = Some (resolvePatientName lib sv
                (past0 ++ (CRead "Patient" <$> take i reads)) id).2) /\
  Clinic.allPlans st
  = (fun hm => GetDashboardPlan hm.1 hm.2
                 (default "" (Clinic.patientNames st !! PatientRef hm.1 hm.2)))
      <$> decodedPlans lib entries.

(** *** A sample clinic *)

Definition planFor (patient title : string) : heap :=
  {[ 1%positive := {[ "resourceType" := AString "CarePlan";
                      "title" := AString title;
                      "subject" := AMap 2%positive;
                      "activity" := ASlice [] ]};
     2%positive := {[ "reference" := AString ("Patient/" +:+ patient) ]} ]}.

Definition patientNamed (family : string) : heap :=
  {[ 1%positive := {[ "resourceType" := AString "Patient";
                      "name" := ASlice [AMap 2%positive] ]};
     2%positive := {[ "family" := AString family ]} ]}.

Definition clinicUnmarshal (raw : RawMessage) : error + (heap * option loc) :=
  if bool_decide (raw = "plan-a1") then inr (planFor "a" "Diet", Some 1%positive)
  else if bool_decide (raw = "plan-a2")
  then inr (planFor "a" "Exercise", Some 1%positive)
  else if bool_decide (raw = "plan-b") then inr (planFor "b" "Sleep", Some 1%positive)
  else if bool_decide (raw = "patient-a") then inr (patientNamed "Ada", Some 1%positive)
  else if bool_decide (raw = "patient-a-renamed")
  then inr (patientNamed "Augusta", Some 1%positive)
  else inl (Errorf "invalid character").

Definition clinicLibrary : Library := mkLibrary clinicUnmarshal (fun s => s).

Definition clinicEntries : list RawMessage :=
  ["plan-a1"; "broken"; "plan-b"; "plan-a2"].

(** A store with three plans of two patients and an entry that cannot be
    decoded.  Patient a is renamed once another patient has been read, and
    patient b cannot be read. *)
Definition clinicStore : Server :=
  mkServer
    (fun _ _ _ => found clinicEntries)
    (fun past _ id =>
       if bool_decide (id = "a")
       then (if bool_decide (CRead "Patient" "b" ∈ past)
             then "patient-a-renamed" else "patient-a", None)
       else ("", Some (StoreError NotFound "not found")))
    (fun _ _ _ => None).

(** ** The pickers: PickPatient and PickCarePlan *)

(** helpers.go, [mapStr] *)
Definition mapStr (h : heap) (m : option loc) (key : string) : string :=
  asString (index h m key).

(** [fetchAllPatients]; [search] is [SearchResources] of the client, which
    gives an error or the bundle. *)
Definition fetchAllPatients (search : string -> error + Bundle)
  : list RawMessage * option error :=
  match search "Patient" with
  | inl err => ([], Some (Errorf_w "searching patients: " err))
  | inr bundle => (extractResources bundle, None)
  end.

(** [searchCarePlans] *)
Definition searchCarePlans (a : Client) (patientID : string)
  : list RawMessage * option error :=
  match SearchResourcesWithResponse a "CarePlan"
          [("patient", patientID); ("status", "active")] with
  | CallFailed err => ([], Some (Errorf_w "searching care plans: " err))
  | Replied StatusCode decoded =>
      if 400 <=? StatusCode then
        ([], Some (Errorf ("search failed: HTTP " +:+ itoa StatusCode)))
      else
        match decoded with
        | inl err => ([], Some (Errorf_w "parsing response: " err))
        | inr bundle => (extractResources bundle, None)
        end
  end.

(** One round of the loop of [PickPatient] that builds the options: the
    label and the value of the option, or nothing for a resource that cannot
    be decoded. *)
Definition patientOption (lib : Library) (raw : RawMessage)
  : option (string * string) :=
  match ParseMap lib raw with
  | inl _ => None
  | inr (h, m) =>
      let id := ResourceID lib raw in
      let name := PatientName lib h m in
      let dob := mapStr h m "birthDate" in
      Some (name +:+ " (" +:+ dob +:+ ")", id)
  end.

(** One round of the loop of [PickCarePlan]. *)
Definition carePlanOption (lib : Library) (raw : RawMessage)
  : option (string * string) :=
  match ParseMap lib raw with
  | inl _ => None
  | inr (h, m) =>
      let id := mapStr h m "id" in
      let title := mapStr h m "title" in
      Some (title +:+ " (" +:+ substring 0 (Nat.min 8 (String.length id)) id +:+ ")",
            id)
  end.

(** [PickPatient]: what is printed, and the two results.  [spin] is the
    error of the spinner and [selectRun] the selection: the value it leaves
    in the variable, with its error, for the options it is given. *)
Definition PickPatient (lib : Library) (search : string -> error + Bundle)
    (spin : option error)
    (selectRun : list (string * string) -> string * option error)
  : list Event * (string * option error) :=
  let '(patients, fetchErr) := fetchAllPatients search in
  match spin with
  | Some e => ([], ("", Some e))
  | None =>
  match fetchErr with
  | Some e => ([], ("", Some e))
  | None =>
      if bool_decide (length patients = 0%nat)
      then ([Println (newline
                      +:+ "  No patients found. Try seeding sample data first.")],
            ("", None))
      else ([], selectRun (omap (patientOption lib) patients))
  end end.

(** [PickCarePlan] *)
Definition PickCarePlan (lib : Library) (a : Client) (spin : option error)
    (selectRun : list (string * string) -> string * option error)
    (patientID : string) : list Event * (string * option error) :=
  let '(plans, fetchErr) := searchCarePlans a patientID in
  match spin with
  | Some e => ([], ("", Some e))
  | None =>
  match fetchErr with
  | Some e => ([], ("", Some e))
  | None =>
      if bool_decide (length plans = 0%nat)
      then ([Println (newline
                      +:+ "  No active care plans found for this patient.")],
            ("", None))
      else
        let options := omap (carePlanOption lib) plans in
        if bool_decide (length options = 0%nat)
        then ([Println (newline
                        +:+ "  No active care plans found for this patient.")],
              ("", None))
        else ([], selectRun options)
  end end.

(** *** Sample data *)

(** A selection that takes the first option, and fails without one. *)
Definition selectFirst (options : list (string * string)) : string * option error :=
  match options with
  | (_, value) :: _ => (value, None)
  | [] => ("", Some (Errorf "no options"))
  end.

Definition idLibrary : Library :=
  mkLibrary (fun raw => if bool_decide (raw = "broken")
                        then inl (Errorf "invalid character")
                        else inr ({[ 1%positive := {[ "id" := AString raw;
                                                      "title" := AString "Diet" ]} ]},
                                  Some 1%positive))
            (fun s => s).

Definition planSearch : Client :=
  mkClient (fun _ id => (id, None))
           (fun _ _ => found ["broken"; "0123456789abcdef"]).

Definition patientSearch (resourceType : string) : error + Bundle :=
  inr (mkBundle (Some [mkBundleEntry (Some "p7"); mkBundleEntry None])).

(** ** Patients: UpdateContact *)

(** The statements of [UpdateContact] that add the contact points to the
    decoded patient: the heap they leave, with the location of the patient.
    [None] is the run-time panic of an assignment to an entry of the nil
    map. *)
Definition appendTelecoms (h : heap) (patient : option loc)
    (phone email : string) : option (heap * loc) :=
  let telecoms := asSlice (index h patient "telecom") in
  let '(h, telecoms) :=
    if bool_decide (phone <> "")
    then let '(h, l) := newMap h {[ "system" := AString "phone";
                                    "value" := AString phone ]} in
         (h, telecoms ++ [AMap l])
    else (h, telecoms) in
  let '(h, telecoms) :=
    if bool_decide (email <> "")
    then let '(h, l) := newMap h {[ "system" := AString "email";
                                    "value" := AString email ]} in
         (h, telecoms ++ [AMap l])
    else (h, telecoms) in
  l ← patient;
  Some (mapAssign h l "telecom" (ASlice telecoms), l).

Module Contact.

(** What one call of [UpdateContact] takes from the terminal and from the
    libraries: the result of the picker, the phone number and the address
    that the form leaves with its error, the errors of [json.Marshal] and of
    [UpdateResource], and the error of the spinner. *)
Record Session : Type := mkSession {
  pickedPatient : string * option error;
  formRun : string * string * option error;
  marshalErr : option error;
  updateReply : option error;
  spinRun : option error
}.

End Contact.



(** *** Adding contact points, stated as properties *)

(** The contact points that [UpdateContact] adds for what was typed: the
    phone number before the address, and nothing for a blank. *)
Definition typedTelecoms (phone email : string) : list (gmap string any) :=
  (if bool_decide (phone <> "")
   then [ {[ "system" := AString "phone"; "value" := AString phone ]} ]
   else [])
  ++ (if bool_decide (email <> "")
      then [ {[ "system" := AString "email"; "value" := AString email ]} ]
      else []).

(** *** Sample data *)

Definition samplePatient : heap :=
  {[ 1%positive := {[ "resourceType" := AString "Patient";
                      "id" := AString "p1";
                      "telecom" := ASlice [AMap 2%positive] ]};
     2%positive := {[ "system" := AString "phone";
                      "value" := AString "555-0100" ]} ]}.



(** ** Properties of the patient summary *)

Section SummaryFacts.
Variable a : Client.
Variable clk : Clock.
Variable patientID : string.

Lemma errOf_resolve now t v :
  errOf t (resolve patientID now v) = errOf t v.
Proof.
  unfold resolve.
  destruct v as [p o c pl ae el st [ep|] [eo|] [ec|] [epl|]], t; simpl;
    try destruct (hasNotFound ep); reflexivity.
Qed.

(** The cascade of guarded returns computes the priority selection. *)
Lemma resolve_apiErr now v :
  apiErr (resolve patientID now v) =
    match highestPriorityFailure (fun t => errOf t v) with
    | Some (t, e) =>
        Some (if bool_decide (t = TPatient) && hasNotFound e
              then notFoundMessage patientID
              else Errorf_w (label t) e)
    | None => apiErr v
    end.
Proof.
  unfold resolve, highestPriorityFailure, priority, notFoundMessage.
  destruct v as [p o c pl ae el st [ep|] [eo|] [ec|] [epl|]]; simpl;
    try destruct (hasNotFound ep); reflexivity.
Qed.

Lemma body_apiErr t v : apiErr (body a patientID t v) = apiErr v.
Proof.
  destruct t; simpl.
  - destruct (ReadResource a "Patient" patientID) as [raw [e|]]; reflexivity.
  - destruct (searchByPatient a "Observation" patientID); reflexivity.
  - destruct (searchByPatient a "Condition" patientID); reflexivity.
  - destruct (searchByPatient a "CarePlan" patientID); reflexivity.
Qed.

Lemma joined_apiErr : apiErr (joined a clk patientID) = None.
Proof. unfold joined. by rewrite !body_apiErr. Qed.

(** After the join every error slot holds the outcome of its own task. *)
Lemma errOf_joined t :
  errOf t (joined a clk patientID) = outcome a patientID t.
Proof.
  unfold joined, outcome; simpl.
  destruct (ReadResource a "Patient" patientID) as [raw [e|]];
    destruct (searchByPatient a "Observation" patientID);
    destruct (searchByPatient a "Condition" patientID);
    destruct (searchByPatient a "CarePlan" patientID);
    destruct t; reflexivity.
Qed.

Lemma highestPriorityFailure_ext (f g : Task -> option error) :
  (forall t, f t = g t) ->
  highestPriorityFailure f = highestPriorityFailure g.
Proof.
  intros H. unfold highestPriorityFailure, priority; simpl.
  by rewrite !H.
Qed.

Lemma Action_apiErr :
  apiErr (Action a clk patientID) =
    match highestPriorityFailure (outcome a patientID) with
    | Some (t, e) =>
        Some (if bool_decide (t = TPatient) && hasNotFound e
              then notFoundMessage patientID
              else Errorf_w (label t) e)
    | None => None
    end.
Proof.
  unfold Action. rewrite resolve_apiErr, joined_apiErr.
  by rewrite (highestPriorityFailure_ext _ _ errOf_joined).
Qed.

Lemma failure_selected (errs : Task -> option error) t :
  errs t <> None ->
  exists t' e, highestPriorityFailure errs = Some (t', e).
Proof.
  unfold highestPriorityFailure, priority; simpl.
  destruct (errs TPatient) eqn:E1; simpl; eauto.
  destruct (errs TObservations) eqn:E2; simpl; eauto.
  destruct (errs TConditions) eqn:E3; simpl; eauto.
  destruct (errs TPlans) eqn:E4; simpl; eauto.
  destruct t; congruence.
Qed.

(** The selected failure is a failure, and every task before it succeeded. *)
Lemma highestPriorityFailure_first errs t e :
  highestPriorityFailure errs = Some (t, e) ->
  errs t = Some e /\
  forall t', (rank t' < rank t)%nat -> errs t' = None.
Proof.
  unfold highestPriorityFailure, priority; simpl.
  destruct (errs TPatient) eqn:E1; simpl;
    [|destruct (errs TObservations) eqn:E2; simpl;
      [|destruct (errs TConditions) eqn:E3; simpl;
        [|destruct (errs TPlans) eqn:E4; simpl]]];
    intros [= <- <-]; (split; [done|]);
    intros [] Hlt; simpl in Hlt; (done || lia).
Qed.

Lemma highestPriorityFailure_patient (errs : Task -> option error) e :
  errs TPatient = Some e ->
  highestPriorityFailure errs = Some (TPatient, e).
Proof.
  intros H. unfold highestPriorityFailure, priority; simpl. by rewrite H.
Qed.

Lemma highestPriorityFailure_none (errs : Task -> option error) :
  (forall t, errs t = None) -> highestPriorityFailure errs = None.
Proof.
  intros H. unfold highestPriorityFailure, priority; simpl. by rewrite !H.
Qed.

Lemma rank_priority t : priority !! rank t = Some t.
Proof. by destruct t. Qed.

End SummaryFacts.

(** *** Error selection *)

(** C1, counterexample: when the patient read fails with a NotFound error,
    the selected failure is that of the patient read, yet the error returned
    is the fresh message "patient p1 not found": it is not the failure wrapped
    under the label of its task, and its text carries neither the label nor
    the text of the failure. *)
Lemma not_found_patient_is_not_label_wrapped :
  ~ label_wrapped_selection storeNoPatient clock0 "p1" /\
  highestPriorityFailure (outcome storeNoPatient "p1")
    = Some (TPatient, StoreError NotFound "HTTP 404: resource not found") /\
  apiErr (Action storeNoPatient clock0 "p1") = Some (Errorf "patient p1 not found").
Proof.
  split; [|split; reflexivity].
  intros H.
  specialize (H TPatient (StoreError NotFound "HTTP 404: resource not found") eq_refl).
  vm_compute in H. discriminate H.
Qed.

(** C1, as amended: whenever at least one of the four tasks fails, exactly one
    error is returned and it is determined by the failed task of highest
    priority alone (patient, observations, conditions, care plans): that
    failure wrapped under the label of its task, except that a patient read
    failing with a NotFound error is reworded as "patient <id> not found".
    Every task before the selected one succeeded, and no other store with the
    same selected failure gives a different error: failures of lower priority
    are discarded. *)
Theorem highest_priority_failure_is_returned
    (a : Client) (clk : Clock) (patientID : string) :
  (exists t, outcome a patientID t <> None) ->
  exists t e,
    highestPriorityFailure (outcome a patientID) = Some (t, e) /\
    outcome a patientID t = Some e /\
    (forall t', (rank t' < rank t)%nat -> outcome a patientID t' = None) /\
    apiErr (Action a clk patientID)
      = Some (if bool_decide (t = TPatient) && hasNotFound e
              then notFoundMessage patientID
              else Errorf_w (label t) e) /\
    Error (Errorf_w (label t) e) = label t +:+ Error e /\
    (forall a' clk',
        highestPriorityFailure (outcome a' patientID) = Some (t, e) ->
        apiErr (Action a' clk' patientID) = apiErr (Action a clk patientID)).
Proof.
  intros [t0 Hfail].
  destruct (failure_selected (outcome a patientID) t0 Hfail) as (t & e & Hsel).
  exists t, e.
  destruct (highestPriorityFailure_first _ _ _ Hsel) as [Ht Hbefore].
  repeat split; try done.
  - by rewrite Action_apiErr, Hsel.
  - intros a' clk' Hsel'. by rewrite !Action_apiErr, Hsel, Hsel'.
Qed.

Lemma highest_priority_failure_is_returned_witness :
  (exists t, outcome storeNoObservations "p1" t <> None) /\
  exists t e,
    highestPriorityFailure (outcome storeNoObservations "p1") = Some (t, e) /\
    outcome storeNoObservations "p1" t = Some e /\
    (forall t', (rank t' < rank t)%nat -> outcome storeNoObservations "p1" t' = None) /\
    apiErr (Action storeNoObservations clock0 "p1")
      = Some (if bool_decide (t = TPatient) && hasNotFound e
              then notFoundMessage "p1"
              else Errorf_w (label t) e) /\
    Error (Errorf_w (label t) e) = label t +:+ Error e /\
    (forall a' clk',
        highestPriorityFailure (outcome a' "p1") = Some (t, e) ->
        apiErr (Action a' clk' "p1") = apiErr (Action storeNoObservations clock0 "p1")).
Proof.
  split.
  - exists TObservations. vm_compute. discriminate.
  - apply (highest_priority_failure_is_returned storeNoObservations clock0 "p1").
    exists TObservations. vm_compute. discriminate.
Defined.

(** C2, counterexample: the patient is read, and the observation search is
    the failed task of highest priority, with an error of NotFound kind; the
    error returned is that failure under the label of the observation search,
    not the message "patient p1 not found". *)
Lemma not_found_search_is_not_reworded :
  ~ not_found_rewording_of_selected storeNoObservations clock0 "p1" /\
  highestPriorityFailure (outcome storeNoObservations "p1")
    = Some (TObservations,
            Errorf_w "searching Observation: "
                     (StoreError NotFound "HTTP 404: resource not found")) /\
  IsNotFound (outcome storeNoObservations "p1" TObservations) = true /\
  apiErr (Action storeNoObservations clock0 "p1")
    = Some (Errorf_w "loading observations: "
              (Errorf_w "searching Observation: "
                 (StoreError NotFound "HTTP 404: resource not found"))).
Proof.
  split; [|repeat split; reflexivity].
  intros H.
  specialize (H TObservations _ eq_refl eq_refl).
  vm_compute in H. discriminate H.
Qed.

(** C2, as amended: if the patient read, the task of highest priority, fails
    with an error of NotFound kind, that failure is the selected one and the
    error returned is the message "patient <id> not found", not a wrapped
    error, whatever the outcomes of the three searches. *)
Theorem not_found_patient_is_reworded
    (a : Client) (clk : Clock) (patientID : string) :
  IsNotFound (outcome a patientID TPatient) = true ->
  (exists e, highestPriorityFailure (outcome a patientID) = Some (TPatient, e) /\
             hasNotFound e = true) /\
  apiErr (Action a clk patientID) = Some (notFoundMessage patientID) /\
  Error (notFoundMessage patientID) = "patient " +:+ patientID +:+ " not found" /\
  (forall t e, apiErr (Action a clk patientID) <> Some (Errorf_w (label t) e)).
Proof.
  intros Hnf.
  destruct (outcome a patientID TPatient) as [e|] eqn:E; [|discriminate Hnf].
  simpl in Hnf.
  pose proof (highestPriorityFailure_patient _ e E) as Hsel.
  rewrite Action_apiErr, Hsel, Hnf. simpl.
  split; [eauto|]. split; [done|]. split; [done|].
  intros t e'. discriminate.
Qed.

Lemma not_found_patient_is_reworded_witness :
  IsNotFound (outcome storeNoPatient "p1" TPatient) = true /\
  outcome storeNoPatient "p1" TConditions
    = Some (Errorf_w "searching Condition: " (StoreError Transport "timeout")) /\
  apiErr (Action storeNoPatient clock0 "p1") = Some (notFoundMessage "p1").
Proof.
  split; [reflexivity|]. split; [reflexivity|].
  apply (not_found_patient_is_reworded storeNoPatient clock0 "p1"). reflexivity.
Defined.

(** C8: if the patient read does not fail with an error of NotFound kind
    while one of the three searches does, the error returned is the selected
    failure wrapped under the label of its task, with text
    "<label><underlying>", and it is never the not-found message. *)
Theorem not_found_search_is_label_wrapped
    (a : Client) (clk : Clock) (patientID : string) :
  IsNotFound (outcome a patientID TPatient) = false ->
  (exists t, t <> TPatient /\ IsNotFound (outcome a patientID t) = true) ->
  exists t e,
    highestPriorityFailure (outcome a patientID) = Some (t, e) /\
    apiErr (Action a clk patientID) = Some (Errorf_w (label t) e) /\
    Error (Errorf_w (label t) e) = label t +:+ Error e /\
    apiErr (Action a clk patientID) <> Some (notFoundMessage patientID).
Proof.
  intros Hp (t0 & Hne & Hnf).
  assert (Hfail : outcome a patientID t0 <> None).
  { intros E. rewrite E in Hnf. discriminate Hnf. }
  destruct (failure_selected (outcome a patientID) t0 Hfail) as (t & e & Hsel).
  destruct (highestPriorityFailure_first _ _ _ Hsel) as [Ht _].
  assert (Hguard : bool_decide (t = TPatient) && hasNotFound e = false).
  { destruct t; try reflexivity. rewrite Ht in Hp. exact Hp. }
  exists t, e. rewrite Action_apiErr, Hsel, Hguard.
  repeat split; try done.
Qed.

Lemma not_found_search_is_label_wrapped_witness :
  IsNotFound (outcome storeNoObservations "p1" TPatient) = false /\
  IsNotFound (outcome storeNoObservations "p1" TObservations) = true /\
  exists t e,
    highestPriorityFailure (outcome storeNoObservations "p1") = Some (t, e) /\
    apiErr (Action storeNoObservations clock0 "p1") = Some (Errorf_w (label t) e) /\
    Error (Errorf_w (label t) e) = label t +:+ Error e /\
    apiErr (Action storeNoObservations clock0 "p1") <> Some (notFoundMessage "p1").
Proof.
  split; [reflexivity|]. split; [reflexivity|].
  apply (not_found_search_is_label_wrapped storeNoObservations clock0 "p1").
  - reflexivity.
  - exists TObservations. split; [discriminate | reflexivity].
Defined.

(** *** Delivery of the aggregate *)

(** After the join every result slot holds what its own task returned. *)
Lemma joined_slots (a : Client) (clk : Clock) (patientID : string) :
  patient (joined a clk patientID) = fst (ReadResource a "Patient" patientID) /\
  observations (joined a clk patientID)
    = fst (searchByPatient a "Observation" patientID) /\
  conditions (joined a clk patientID)
    = fst (searchByPatient a "Condition" patientID) /\
  plans (joined a clk patientID) = fst (searchByPatient a "CarePlan" patientID) /\
  start (joined a clk patientID) = atStart clk.
Proof.
  unfold joined; simpl.
  destruct (ReadResource a "Patient" patientID) as [raw [e|]];
    destruct (searchByPatient a "Observation" patientID);
    destruct (searchByPatient a "Condition" patientID);
    destruct (searchByPatient a "CarePlan" patientID); simpl; done.
Qed.

(** The statements after the join leave the result slots alone. *)
Lemma resolve_slots (patientID : string) (now : Z) (v : Vars) :
  patient (resolve patientID now v) = patient v /\
  observations (resolve patientID now v) = observations v /\
  conditions (resolve patientID now v) = conditions v /\
  plans (resolve patientID now v) = plans v /\
  elapsed (resolve patientID now v) = now - start v.
Proof.
  unfold resolve.
  destruct v as [p o c pl ae el st [ep|] [eo|] [ec|] [epl|]]; simpl;
    try destruct (hasNotFound ep); done.
Qed.

(** C3: if all four tasks succeed, no error is returned, each of the four
    result slots holds the result of its own task, and the summary is
    delivered with the four slots in task order: patient, observations,
    conditions, care plans. *)
Theorem all_succeed_delivers_four_slots
    (a : Client) (clk : Clock) (patientID : string) :
  (forall t, outcome a patientID t = None) ->
  patientID <> "" ->
  apiErr (Action a clk patientID) = None /\
  patient (Action a clk patientID) = fst (ReadResource a "Patient" patientID) /\
  observations (Action a clk patientID)
    = fst (searchByPatient a "Observation" patientID) /\
  conditions (Action a clk patientID)
    = fst (searchByPatient a "Condition" patientID) /\
  plans (Action a clk patientID) = fst (searchByPatient a "CarePlan" patientID) /\
  exists msg,
    PatientSummary a clk (patientID, None) None
      = [ Println "";
          PrintSummary (fst (ReadResource a "Patient" patientID))
                       (fst (searchByPatient a "Observation" patientID))
                       (fst (searchByPatient a "Condition" patientID))
                       (fst (searchByPatient a "CarePlan" patientID));
          showTiming msg (atJoin clk - atStart clk);
          PressEnter ].
Proof.
  intros Hok Hid.
  assert (Herr : apiErr (Action a clk patientID) = None).
  { by rewrite Action_apiErr, (highestPriorityFailure_none _ Hok). }
  destruct (joined_slots a clk patientID) as (Hp & Ho & Hc & Hpl & Hst).
  destruct (resolve_slots patientID (atJoin clk) (joined a clk patientID))
    as (Rp & Ro & Rc & Rpl & Rel).
  fold (Action a clk patientID) in Rp, Ro, Rc, Rpl, Rel.
  rewrite Hp in Rp. rewrite Ho in Ro. rewrite Hc in Rc. rewrite Hpl in Rpl.
  rewrite Hst in Rel.
  repeat (split; [done|]).
  unfold PatientSummary.
  rewrite bool_decide_eq_false_2 by (intros H; by apply H).
  rewrite bool_decide_eq_false_2 by done.
  simpl orb. cbv iota. rewrite Herr, Rp, Ro, Rc, Rpl, Rel.
  eexists. reflexivity.
Qed.

Lemma all_succeed_delivers_four_slots_witness :
  (forall t, outcome storeAllFound "p1" t = None) /\
  "p1" <> "" /\
  apiErr (Action storeAllFound clock0 "p1") = None /\
  patient (Action storeAllFound clock0 "p1")
    = fst (ReadResource storeAllFound "Patient" "p1").
Proof.
  split; [by intros []|]. split; [discriminate|].
  split; apply (all_succeed_delivers_four_slots storeAllFound clock0 "p1");
    first [by intros [] | discriminate].
Defined.

(** The first scenario: 1, 3, 2 and 1 resources are found, and the summary
    is delivered with seven resources after 250 units of time. *)
Example summary_of_seven_resources :
  PatientSummary storeAllFound clock0 ("p1", None) None
    = [ Println "";
        PrintSummary "pat" ["o1"; "o2"; "o3"] ["c1"; "c2"] ["cp1"];
        showTiming "Loaded patient summary (7 resources, 4 parallel API calls)" 250;
        PressEnter ].
Proof. reflexivity. Qed.

(** The second scenario: the patient does not exist. *)
Example summary_of_missing_patient :
  PatientSummary storeNoPatient clock0 ("p1", None) None
    = [ShowError (Errorf "patient p1 not found"); PressEnter].
Proof. reflexivity. Qed.

(** C4: if any of the four tasks fails, the summary is not delivered,
    whatever the spinner returned: no event hands result slots to the
    operator; and when the spinner itself returned no error, the one selected
    error is all that is shown. *)
Theorem failure_delivers_no_summary
    (a : Client) (clk : Clock) (patientID : string) (spin : option error) :
  (exists t, outcome a patientID t <> None) ->
  patientID <> "" ->
  Forall (fun ev => delivers ev = false)
         (PatientSummary a clk (patientID, None) spin) /\
  exists e,
    apiErr (Action a clk patientID) = Some e /\
    PatientSummary a clk (patientID, None) None = [ShowError e; PressEnter].
Proof.
  intros [t0 Hfail] Hid.
  destruct (failure_selected (outcome a patientID) t0 Hfail) as (t & e & Hsel).
  pose proof (Action_apiErr a clk patientID) as Herr. rewrite Hsel in Herr.
  unfold PatientSummary.
  rewrite bool_decide_eq_false_2 by (intros H; by apply H).
  rewrite bool_decide_eq_false_2 by done.
  simpl orb. cbv iota. rewrite Herr.
  split.
  - destruct spin; repeat constructor.
  - eexists. split; reflexivity.
Qed.

Lemma failure_delivers_no_summary_witness :
  (exists t, outcome storeNoObservations "p1" t <> None) /\
  Forall (fun ev => delivers ev = false)
         (PatientSummary storeNoObservations clock0 ("p1", None) None) /\
  exists e,
    apiErr (Action storeNoObservations clock0 "p1") = Some e /\
    PatientSummary storeNoObservations clock0 ("p1", None) None
      = [ShowError e; PressEnter].
Proof.
  split.
  - exists TObservations. vm_compute. discriminate.
  - apply (failure_delivers_no_summary storeNoObservations clock0 "p1" None).
    + exists TObservations. vm_compute. discriminate.
    + discriminate.
Defined.

(** ** Properties of the runs of the closure *)

Section Runs.
Variable a : Client.
Variable clk : Clock.
Variable patientID : string.

Local Abbreviation run_step := (step a clk patientID).
Local Abbreviation holds := (invariant a clk patientID).
Local Abbreviation run_body := (body a patientID).

(** A goroutine writes its own two slots and nothing else. *)
Lemma body_frame t t' v :
  t <> t' ->
  resultOf t' (run_body t v) = resultOf t' v /\ errOf t' (run_body t v) = errOf t' v.
Proof.
  intros Hne. unfold body.
  destruct (ReadResource a "Patient" patientID) as [? [?|]];
    destruct (searchByPatient a "Observation" patientID);
    destruct (searchByPatient a "Condition" patientID);
    destruct (searchByPatient a "CarePlan" patientID);
    destruct t, t'; done.
Qed.

Lemma body_rest t v :
  apiErr (run_body t v) = apiErr v /\ elapsed (run_body t v) = elapsed v /\
  start (run_body t v) = start v.
Proof.
  unfold body.
  destruct (ReadResource a "Patient" patientID) as [? [?|]];
    destruct (searchByPatient a "Observation" patientID);
    destruct (searchByPatient a "Condition" patientID);
    destruct (searchByPatient a "CarePlan" patientID);
    destruct t; done.
Qed.

(** After its body a goroutine has left in its slots what its call
    returned; the error slot of the patient read is assigned only for a
    non-nil error and otherwise keeps its nil. *)
Lemma body_own t v :
  errOf t v = None ->
  resultOf t (run_body t v) = taskResult a patientID t /\
  errOf t (run_body t v) = outcome a patientID t.
Proof.
  unfold body, taskResult, outcome.
  destruct (ReadResource a "Patient" patientID) as [? [?|]];
    destruct (searchByPatient a "Observation" patientID);
    destruct (searchByPatient a "Condition" patientID);
    destruct (searchByPatient a "CarePlan" patientID);
    destruct t; done.
Qed.

Lemma resultOf_joined t :
  resultOf t (joined a clk patientID) = taskResult a patientID t.
Proof.
  destruct (joined_slots a clk patientID) as (Hp & Ho & Hc & Hpl & _).
  destruct t; simpl; congruence.
Qed.

(** Two valuations with the same slots are the same. *)
Lemma Vars_ext v1 v2 :
  (forall t, resultOf t v1 = resultOf t v2) ->
  (forall t, errOf t v1 = errOf t v2) ->
  start v1 = start v2 -> apiErr v1 = apiErr v2 -> elapsed v1 = elapsed v2 ->
  v1 = v2.
Proof.
  intros Hr He Hs Ha Hel.
  pose proof (Hr TPatient) as R1. pose proof (Hr TObservations) as R2.
  pose proof (Hr TConditions) as R3. pose proof (Hr TPlans) as R4.
  pose proof (He TPatient) as E1. pose proof (He TObservations) as E2.
  pose proof (He TConditions) as E3. pose proof (He TPlans) as E4.
  destruct v1, v2; simpl in *. congruence.
Qed.

Lemma joined_elapsed : elapsed (joined a clk patientID) = 0.
Proof.
  unfold joined.
  by rewrite !(proj1 (proj2 (body_rest _ _))).
Qed.

Lemma pending_Exited p : pending p = 0 -> p = Exited.
Proof. by destruct p. Qed.

Lemma pending_range p : 0 <= pending p <= 1.
Proof. destruct p; simpl; lia. Qed.

Lemma invariant_initial : holds initial.
Proof. repeat split; try done; by intros []. Qed.

Lemma set_start_slots x v t :
  resultOf t (set_start x v) = resultOf t v /\
  errOf t (set_start x v) = errOf t v.
Proof. by destruct t. Qed.

(** The eight parts of the invariant, one goal each. *)
Ltac split_invariant :=
  refine (conj _ (conj _ (conj _ (conj _ (conj _ (conj _ (conj _ _)))))));
  simpl.

(** The closure moves. *)
Lemma invariant_step_main s s' :
  holds s -> stepOf a clk patientID Main s = Some s' -> holds s'.
Proof.
  intros (Hl & Hwg & Hpw & Hres & Herr & Hst & Hpre & Hpost) Hstep.
  destruct s as [v w f m]; simpl in *.
  destruct m as [|t| | |]; simpl in *.
  - (* start := time.Now(); wg.Add(4) *)
    injection Hstep as <-.
    pose proof (Hl TPatient) as L1. pose proof (Hl TObservations) as L2.
    pose proof (Hl TConditions) as L3. pose proof (Hl TPlans) as L4.
    apply bool_decide_eq_true in L1, L2, L3, L4.
    split_invariant.
    + intros t. rewrite Hl. by destruct t.
    + rewrite L1, L2, L3, L4. simpl. lia.
    + discriminate.
    + intros t. rewrite (proj1 (set_start_slots _ v t)). apply Hres.
    + intros t. rewrite (proj2 (set_start_slots _ v t)). apply Herr.
    + done.
    + intros _. by apply Hpre.
    + discriminate.
  - (* go func() { ... }() *)
    injection Hstep as <-.
    assert (Hft : f t = NotStarted).
    { specialize (Hl t). rewrite Nat.ltb_irrefl in Hl.
      by apply bool_decide_eq_true in Hl. }
    split_invariant.
    + intros t'. unfold setPc. specialize (Hl t').
      destruct (decide (t' = t)) as [->|Hne].
      * by destruct t.
      * rewrite Hl. destruct t, t'; done.
    + subst w. destruct t; unfold setPc; simpl; rewrite Hft; simpl; lia.
    + by destruct t.
    + intros t'. rewrite Hres. unfold setPc.
      destruct (decide (t' = t)) as [->|Hne]; [by rewrite Hft | done].
    + intros t'. rewrite Herr. unfold setPc.
      destruct (decide (t' = t)) as [->|Hne]; [by rewrite Hft | done].
    + by destruct t.
    + intros _. by apply Hpre.
    + by destruct t.
  - (* wg.Wait() *)
    destruct (decide (w = 0)) as [->|]; [|discriminate].
    injection Hstep as <-.
    split_invariant; try done.
    + intros _ t. apply pending_Exited.
      pose proof (pending_range (f TPatient)).
      pose proof (pending_range (f TObservations)).
      pose proof (pending_range (f TConditions)).
      pose proof (pending_range (f TPlans)).
      destruct t; lia.
    + intros _. by apply Hpre.
  - (* elapsed = time.Since(start) and the guarded returns *)
    injection Hstep as <-.
    specialize (Hpw eq_refl).
    assert (Hv : v = joined a clk patientID).
    { apply Vars_ext.
      - intros t. by rewrite Hres, Hpw, resultOf_joined.
      - intros t. by rewrite Herr, Hpw, errOf_joined.
      - rewrite Hst. by destruct (joined_slots a clk patientID) as (_&_&_&_&->).
      - rewrite joined_apiErr. by apply Hpre.
      - rewrite joined_elapsed. by apply Hpre. }
    split_invariant; try done.
    + intros t.
      destruct (resolve_slots patientID (atJoin clk) v) as (Rp & Ro & Rc & Rpl & _).
      rewrite <- Hres. destruct t; simpl; congruence.
    + intros t. rewrite errOf_resolve. apply Herr.
    + rewrite <- Hst. unfold resolve.
      destruct v as [p o c pl ae el st [ep|] [eo|] [ec|] [epl|]]; simpl;
        try destruct (hasNotFound ep); reflexivity.
    + intros _. by rewrite Hv.
  - discriminate.
Qed.

(** A goroutine moves. *)
Lemma invariant_step_go t s s' :
  holds s -> stepOf a clk patientID (Go t) s = Some s' -> holds s'.
Proof.
  intros (Hl & Hwg & Hpw & Hres & Herr & Hst & Hpre & Hpost) Hstep.
  destruct s as [v w f m]; simpl in *.
  destruct (f t) eqn:Eft; try discriminate; injection Hstep as <-.
  all: assert (Hm : passedWait m = false)
    by (destruct (passedWait m) eqn:E; [specialize (Hpw eq_refl t); congruence | done]).
  all: assert (Hlt : launchedBy m t = true)
    by (specialize (Hl t); rewrite Eft in Hl; simpl in Hl;
        by destruct (launchedBy m t)).
  - (* the body *)
    split_invariant.
    + intros t'. unfold setPc.
      destruct (decide (t' = t)) as [->|Hne]; [by rewrite Hlt | apply Hl].
    + subst w. destruct m; try discriminate Hlt;
        destruct t; unfold setPc; simpl; rewrite Eft; simpl; lia.
    + rewrite Hm. discriminate.
    + intros t'. unfold setPc. destruct (decide (t' = t)) as [->|Hne]; simpl.
      * apply body_own. by rewrite Herr, Eft.
      * rewrite (proj1 (body_frame t t' v (not_eq_sym Hne))). apply Hres.
    + intros t'. unfold setPc. destruct (decide (t' = t)) as [->|Hne]; simpl.
      * apply body_own. by rewrite Herr, Eft.
      * rewrite (proj2 (body_frame t t' v (not_eq_sym Hne))). apply Herr.
    + destruct (body_rest t v) as (_ & _ & ->). exact Hst.
    + destruct (body_rest t v) as (-> & -> & _). exact Hpre.
    + intros ->. discriminate Hm.
  - (* the deferred wg.Done() *)
    split_invariant; [| | | | | exact Hst | exact Hpre |].
    + intros t'. unfold setPc.
      destruct (decide (t' = t)) as [->|Hne]; [by rewrite Hlt | apply Hl].
    + subst w. destruct m; try discriminate Hlt;
        destruct t; unfold setPc; simpl; rewrite Eft; simpl; lia.
    + rewrite Hm. discriminate.
    + intros t'. rewrite Hres. unfold setPc.
      destruct (decide (t' = t)) as [->|Hne]; [by rewrite Eft | done].
    + intros t'. rewrite Herr. unfold setPc.
      destruct (decide (t' = t)) as [->|Hne]; [by rewrite Eft | done].
    + intros ->. discriminate Hm.
Qed.

Lemma invariant_step s s' : holds s -> run_step s s' -> holds s'.
Proof.
  intros H [[|t] Hstep];
    eauto using invariant_step_main, invariant_step_go.
Qed.

Lemma invariant_reachable s : reachable a clk patientID s -> holds s.
Proof.
  intros H.
  eapply (rtc_ind_r (fun s => holds s) initial); [apply invariant_initial | | exact H].
  intros y z _ Hyz Hy. eapply invariant_step; eauto.
Qed.

(** Every step uses up one of the steps that are left. *)
Lemma step_decreases s s' :
  holds s -> run_step s s' -> (stepsLeft s' < stepsLeft s)%nat.
Proof.
  intros (Hl & _) [[|t] Hstep]; destruct s as [v w f m];
    unfold stepsLeft; simpl in *.
  - destruct m as [|t| | |]; simpl in *.
    + injection Hstep as <-. simpl. lia.
    + injection Hstep as <-.
      assert (Hft : f t = NotStarted).
      { specialize (Hl t). rewrite Nat.ltb_irrefl in Hl.
        by apply bool_decide_eq_true in Hl. }
      destruct t; unfold setPc; simpl; rewrite Hft; simpl; lia.
    + destruct (decide (w = 0)); [|discriminate].
      injection Hstep as <-. simpl. lia.
    + injection Hstep as <-. simpl. lia.
    + discriminate.
  - destruct (f t) eqn:Eft; try discriminate; injection Hstep as <-;
      destruct t; unfold setPc; simpl; rewrite Eft; simpl; lia.
Qed.

(** A started goroutine that is not gone can move, whatever the state of
    the others and whatever the error slots hold. *)
Lemma started_moves s t :
  pc s t = Launched \/ pc s t = BodyDone ->
  is_Some (stepOf a clk patientID (Go t) s).
Proof. intros [H|H]; simpl; rewrite H; eauto. Qed.

(** [wg.Wait()] returns exactly when all four goroutines are gone. *)
Lemma wait_returns_iff s :
  holds s -> mainPc s = MWait ->
  is_Some (stepOf a clk patientID Main s) <-> forall t, pc s t = Exited.
Proof.
  intros (_ & Hwg & _) Hm. simpl. rewrite Hm in Hwg |- *.
  split.
  - destruct (decide (wg s = 0)) as [E|]; [|by intros [? ?]].
    intros _ t. apply pending_Exited. rewrite E in Hwg.
    pose proof (pending_range (pc s TPatient)).
    pose proof (pending_range (pc s TObservations)).
    pose proof (pending_range (pc s TConditions)).
    pose proof (pending_range (pc s TPlans)).
    destruct t; lia.
  - intros H. rewrite !H in Hwg. simpl in Hwg. rewrite Hwg. simpl. eauto.
Qed.

(** No run is stuck before the closure returns. *)
Lemma progress s : holds s -> mainPc s <> MReturn -> exists s', run_step s s'.
Proof.
  intros Hinv Hm.
  destruct (mainPc s) eqn:Em; try done.
  - eexists. exists Main. simpl. by rewrite Em.
  - eexists. exists Main. simpl. by rewrite Em.
  - destruct Hinv as (Hl & Hwg & _). rewrite Em in Hl, Hwg. simpl in Hl.
    assert (Hgo : forall t, pc s t <> Exited -> exists s', run_step s s').
    { intros t Ht. specialize (Hl t). apply bool_decide_eq_false in Hl.
      destruct (started_moves s t) as [s' Hs'].
      - destruct (pc s t); eauto; done.
      - exists s'. by exists (Go t). }
    destruct (decide (pc s TPatient = Exited)) as [E1|]; [|eauto].
    destruct (decide (pc s TObservations = Exited)) as [E2|]; [|eauto].
    destruct (decide (pc s TConditions = Exited)) as [E3|]; [|eauto].
    destruct (decide (pc s TPlans = Exited)) as [E4|]; [|eauto].
    eexists. exists Main. simpl. rewrite Em.
    rewrite E1, E2, E3, E4 in Hwg. simpl in Hwg. rewrite Hwg. simpl. eauto.
  - eexists. exists Main. simpl. by rewrite Em.
Qed.

(** Every run can be continued until the closure returns. *)
Lemma completes s :
  holds s -> exists s', rtc run_step s s' /\ mainPc s' = MReturn.
Proof.
  remember (stepsLeft s) as n eqn:Hn.
  revert s Hn. induction (lt_wf n) as [n _ IH]. intros s -> Hinv.
  destruct (decide (mainPc s = MReturn)) as [E|Hne].
  - exists s. split; [apply rtc_refl | done].
  - destruct (progress s Hinv Hne) as [s1 Hs1].
    destruct (IH (stepsLeft s1) (step_decreases s s1 Hinv Hs1) s1 eq_refl
                 (invariant_step s s1 Hinv Hs1)) as (s' & Hrun & Hret).
    exists s'. split; [by eapply rtc_l | done].
Qed.

Lemma runSchedule_reachable schedule s :
  rtc run_step s (runSchedule a clk patientID schedule s).
Proof.
  unfold runSchedule. revert s.
  induction schedule as [|th schedule IH]; intros s; simpl.
  - apply rtc_refl.
  - destruct (stepOf a clk patientID th s) as [s1|] eqn:E.
    + eapply rtc_l; [by exists th | apply IH].
    + apply IH.
Qed.
End Runs.

(** Whatever the interleaving, the closure returns in the state that
    [Action] computes. *)
Lemma every_run_returns_Action
    (a : Client) (clk : Clock) (patientID : string) (s : Sched) :
  reachable a clk patientID s -> mainPc s = MReturn ->
  vars s = Action a clk patientID.
Proof.
  intros Hreach Hret.
  destruct (invariant_reachable a clk patientID s Hreach)
    as (_ & _ & _ & _ & _ & _ & _ & Hpost).
  by apply Hpost.
Qed.

(** *** The join *)

Example patient_failed_first :
  mainPc stateAfterFailedRead = MWait /\
  pc stateAfterFailedRead TPatient = Exited /\
  patientErr (vars stateAfterFailedRead)
    = Some (StoreError NotFound "HTTP 404: resource not found") /\
  pc stateAfterFailedRead TObservations = Launched /\
  pc stateAfterFailedRead TConditions = Launched /\
  pc stateAfterFailedRead TPlans = Launched /\
  wg stateAfterFailedRead = 3.
Proof. vm_compute. repeat split; reflexivity. Qed.

(** The reversed schedule is a complete run. *)
Example reversed_run_returns :
  mainPc (runSchedule storeNoPatient clock0 "p1" scheduleReversed initial) = MReturn /\
  vars (runSchedule storeNoPatient clock0 "p1" scheduleReversed initial)
    = Action storeNoPatient clock0 "p1".
Proof. vm_compute. split; reflexivity. Qed.

(** C5: in every state of every run, (1) once the closure is past
    [wg.Wait()], all four goroutines are gone and every slot holds the result
    or the error of its task, so that the statements that select the error run
    only then; (2) [wg.Wait()] returns exactly when all four goroutines are
    gone, whatever the error slots hold; (3) a goroutine that has been started
    is either gone or able to move, whatever happened to the others: no
    failure cancels a sibling; (4) the run is not stuck before the closure
    returns, every step uses up one of finitely many steps, and the run can
    be continued to the return of the closure, where all four goroutines
    have run to their end. *)
Theorem join_waits_for_every_task
    (a : Client) (clk : Clock) (patientID : string) (s : Sched) :
  reachable a clk patientID s ->
  (passedWait (mainPc s) = true ->
   forall t, pc s t = Exited /\
             resultOf t (vars s) = taskResult a patientID t /\
             errOf t (vars s) = outcome a patientID t) /\
  (mainPc s = MWait ->
   (is_Some (stepOf a clk patientID Main s) <-> forall t, pc s t = Exited)) /\
  (forall t, launchedBy (mainPc s) t = true ->
             pc s t = Exited \/ is_Some (stepOf a clk patientID (Go t) s)) /\
  (mainPc s <> MReturn -> exists s', step a clk patientID s s') /\
  (forall s', step a clk patientID s s' -> (stepsLeft s' < stepsLeft s)%nat) /\
  (exists s', rtc (step a clk patientID) s s' /\ mainPc s' = MReturn /\
              (forall t, pc s' t = Exited) /\
              vars s' = Action a clk patientID).
Proof.
  intros Hreach.
  pose proof (invariant_reachable a clk patientID s Hreach) as Hinv.
  split; [|split; [|split; [|split; [|split]]]].
  - intros Hpast t.
    destruct Hinv as (_ & _ & Hpw & Hres & Herr & _).
    specialize (Hpw Hpast). rewrite Hres, Herr, Hpw. done.
  - by apply wait_returns_iff.
  - intros t Hl. destruct Hinv as (Hns & _). specialize (Hns t).
    rewrite Hl in Hns. apply bool_decide_eq_false in Hns.
    destruct (pc s t) eqn:E; [done | right | right | by left];
      apply started_moves; rewrite E; eauto.
  - by apply progress.
  - intros s'. by apply step_decreases.
  - destruct (completes a clk patientID s Hinv) as (s' & Hrun & Hret).
    exists s'. split; [done|]. split; [done|].
    assert (Hinv' : invariant a clk patientID s').
    { apply invariant_reachable. unfold reachable in *. by etrans. }
    destruct Hinv' as (_ & _ & Hpw & _ & _ & _ & _ & Hpost).
    split; [apply Hpw; by rewrite Hret | by apply Hpost].
Qed.

Lemma join_waits_for_every_task_witness :
  reachable storeNoPatient clock0 "p1" stateAfterFailedRead /\
  (forall t, launchedBy (mainPc stateAfterFailedRead) t = true ->
             pc stateAfterFailedRead t = Exited \/
             is_Some (stepOf storeNoPatient clock0 "p1" (Go t) stateAfterFailedRead)) /\
  (exists s', rtc (step storeNoPatient clock0 "p1") stateAfterFailedRead s' /\
              mainPc s' = MReturn /\
              (forall t, pc s' t = Exited) /\
              vars s' = Action storeNoPatient clock0 "p1").
Proof.
  assert (Hs : reachable storeNoPatient clock0 "p1" stateAfterFailedRead)
    by apply runSchedule_reachable.
  split; [exact Hs|].
  split; apply (join_waits_for_every_task storeNoPatient clock0 "p1" _ Hs).
Defined.

(** *** The slots *)

(** C6: in every state of every run, a step of a goroutine leaves alone the
    result slot and the error slot of every other task, the program counter
    of every other goroutine and of the closure, and [apiErr], [elapsed] and
    [start]: it writes its own two slots or the counter of the wait group and
    nothing else.  Every slot holds the zero value until the body of its own
    task has run and what that task returned from then on; when the closure
    returns, each of the four result slots holds the result of its own
    task. *)
Theorem tasks_write_only_their_own_slots
    (a : Client) (clk : Clock) (patientID : string) (s : Sched) :
  reachable a clk patientID s ->
  (forall t s',
      stepOf a clk patientID (Go t) s = Some s' ->
      mainPc s' = mainPc s /\
      (forall t', t' <> t ->
                  pc s' t' = pc s t' /\
                  resultOf t' (vars s') = resultOf t' (vars s) /\
                  errOf t' (vars s') = errOf t' (vars s)) /\
      apiErr (vars s') = apiErr (vars s) /\
      elapsed (vars s') = elapsed (vars s) /\
      start (vars s') = start (vars s) /\
      (vars s' = vars s \/ wg s' = wg s)) /\
  (forall t,
      resultOf t (vars s)
        = (if ran (pc s t) then taskResult a patientID t else resultOf t zeroVars) /\
      errOf t (vars s)
        = (if ran (pc s t) then outcome a patientID t else None)) /\
  (mainPc s = MReturn ->
   forall t, resultOf t (vars s) = taskResult a patientID t /\
             errOf t (vars s) = outcome a patientID t).
Proof.
  intros Hreach.
  pose proof (invariant_reachable a clk patientID s Hreach)
    as (_ & _ & Hpw & Hres & Herr & _).
  split; [|split].
  - intros t s' Hstep. simpl in Hstep.
    destruct (pc s t) eqn:E; try discriminate; injection Hstep as <-; simpl.
    + split; [done|]. split.
      * intros t' Hne. unfold setPc. rewrite decide_False by done.
        split; [done|]. by apply body_frame.
      * destruct (body_rest a patientID t (vars s)) as (-> & -> & ->). eauto.
    + split; [done|]. split; [|eauto 6].
      intros t' Hne. unfold setPc. by rewrite decide_False.
  - intros t. by rewrite Hres, Herr.
  - intros Hret t. rewrite Hres, Herr, Hpw; [done|]. by rewrite Hret.
Qed.

Lemma tasks_write_only_their_own_slots_witness :
  reachable storeAllFound clock0 "p1" stateReversedRun /\
  mainPc stateReversedRun = MReturn /\
  (forall t, resultOf t (vars stateReversedRun) = taskResult storeAllFound "p1" t /\
             errOf t (vars stateReversedRun) = outcome storeAllFound "p1" t).
Proof.
  assert (Hs : reachable storeAllFound clock0 "p1" stateReversedRun)
    by apply runSchedule_reachable.
  split; [exact Hs|]. split; [reflexivity|].
  apply (tasks_write_only_their_own_slots storeAllFound clock0 "p1" _ Hs).
  reflexivity.
Defined.

(** ** Properties of start-up *)

(** The URL check passes exactly for an absolute URL that is acceptable. *)
Lemma validatePhenoStoreURL_None (os : Platform) (rawURL : string) :
  validatePhenoStoreURL os rawURL = None <->
  exists parsed,
    Parse os rawURL = inr parsed /\ Scheme parsed <> "" /\ Host parsed <> "" /\
    acceptable parsed.
Proof.
  unfold validatePhenoStoreURL, acceptable, loopbackHosts.
  destruct (Parse os rawURL) as [err|parsed].
  { split; [discriminate | by intros (? & ? & _)]. }
  repeat case_bool_decide; simpl; split;
    try discriminate; try (intros (p & [= <-] & ? & ? & Hacc));
    try intros _; try done.
  all: try (exists parsed; repeat split; try done;
            rewrite !elem_of_cons; naive_solver).
  all: destruct Hacc as [?|[? Hin]]; try done;
    rewrite !elem_of_cons, elem_of_nil in Hin; naive_solver.
Qed.

(** [Initialize] either fails and leaves the application as it was, or
    succeeds with all five variables set and a URL that passed the check. *)
Lemma Initialize_cases (os : Platform) (a : App) :
  ((exists err, snd (Initialize os a) = Some err) /\ fst (Initialize os a) = a) \/
  (snd (Initialize os a) = None /\
   (forall name, name ∈ requiredVariables -> Getenv os name <> "") /\
   validatePhenoStoreURL os (Getenv os "PHENOSTORE_URL") = None /\
   exists client, fst (Initialize os a) = mkApp (Some client)).
Proof.
  unfold Initialize, requiredVariables.
  repeat case_bool_decide; simpl; eauto.
  destruct (validatePhenoStoreURL os _) as [err|] eqn:Hv; simpl; eauto.
  destruct (NewClient os _ _ _ _ _) as [err|client]; simpl; eauto.
  right. repeat split; eauto. intros name Hin.
  rewrite !elem_of_cons, elem_of_nil in Hin. naive_solver.
Qed.

(** C9: [Initialize] returns an error and leaves the client unset whenever
    one of the five required variables is empty, or PHENOSTORE_URL is not an
    absolute URL, or its scheme is http and its host is none of localhost,
    127.0.0.1 and ::1 (scheme and host compared without regard to case);
    and whenever [Initialize] returns no error, PHENOSTORE_URL is an https URL
    or an http URL on one of those three hosts. *)
Theorem Initialize_accepts_only_safe_urls (os : Platform) (a : App) :
  (missingVariable os \/ notAbsolute os \/ plainHTTPOffLoopback os ->
   (exists err, snd (Initialize os a) = Some err) /\ fst (Initialize os a) = a) /\
  (snd (Initialize os a) = None ->
   (forall name, name ∈ requiredVariables -> Getenv os name <> "") /\
   exists parsed,
     Parse os (Getenv os "PHENOSTORE_URL") = inr parsed /\
     Scheme parsed <> "" /\ Host parsed <> "" /\ acceptable parsed).
Proof.
  destruct (Initialize_cases os a) as [[[err Herr] Hsame]|(Hok & Hvars & Hurl & _)].
  - split; [eauto|]. rewrite Herr. discriminate.
  - apply validatePhenoStoreURL_None in Hurl as (parsed & Hparse & Hs & Hh & Hacc).
    split; [|eauto 8].
    intros [(name & Hin & Hempty)|[Habs|(p & Hp & Hhttp & Hhost)]]; exfalso.
    + by apply (Hvars name).
    + unfold notAbsolute in Habs. rewrite Hparse in Habs. tauto.
    + rewrite Hparse in Hp. injection Hp as <-.
      destruct Hacc as [Hs'|[_ Hin]]; [congruence | done].
Qed.

Lemma Initialize_accepts_only_safe_urls_witness :
  plainHTTPOffLoopback (samplePlatform "http://api.phenostore.example.com") /\
  (exists err,
      snd (Initialize (samplePlatform "http://api.phenostore.example.com")
                      (mkApp None)) = Some err) /\
  fst (Initialize (samplePlatform "http://api.phenostore.example.com")
                  (mkApp None)) = mkApp None.
Proof.
  assert (H : plainHTTPOffLoopback (samplePlatform "http://api.phenostore.example.com")).
  { exists (mkURL "http" "api.phenostore.example.com" "api.phenostore.example.com").
    repeat split; try reflexivity.
    unfold loopbackHosts. vm_compute ToLower.
    rewrite !elem_of_cons, elem_of_nil. intros [?|[?|[?|[]]]]; discriminate. }
  split; [exact H|].
  apply (Initialize_accepts_only_safe_urls _ (mkApp None)). right. right. exact H.
Defined.

(** What start-up does on some URLs. *)
Example Initialize_samples :
  snd (Initialize (samplePlatform "https://api.phenostore.example.com") (mkApp None)) = None /\
  snd (Initialize (samplePlatform "HTTP://LocalHost:8080") (mkApp None)) = None /\
  snd (Initialize (samplePlatform "http://[::1]:8080") (mkApp None)) = None /\
  snd (Initialize (samplePlatform "http://api.phenostore.example.com") (mkApp None))
    = Some errNotHTTPS /\
  snd (Initialize (samplePlatform "api.phenostore.example.com") (mkApp None))
    = Some errNotAbsolute /\
  snd (Initialize (samplePlatform "") (mkApp None)) = Some errMissingVariables.
Proof. vm_compute. repeat split; reflexivity. Qed.

(** ** Properties of CompleteActivity *)

Lemma index_mapAssign_eq (h : heap) l key v :
  index (mapAssign h l key v) (Some l) key = Some v.
Proof.
  unfold index, mapAssign; simpl.
  rewrite lookup_insert_eq; simpl. by rewrite lookup_insert_eq.
Qed.

Lemma index_mapAssign_ne (h : heap) l key v l' key' :
  l <> l' \/ key <> key' ->
  index (mapAssign h l key v) (Some l') key' = index h (Some l') key'.
Proof.
  intros Hne. unfold index, mapAssign; simpl.
  destruct (decide (l = l')) as [->|Hl].
  - destruct Hne as [?|Hk]; [done|].
    rewrite lookup_insert_eq; simpl. rewrite lookup_insert_ne by done.
    by destruct (h !! l').
  - by rewrite lookup_insert_ne.
Qed.

Lemma asMap_Some v l : asMap v = Some l <-> v = Some (AMap l).
Proof. destruct v as [[]|]; simpl; split; congruence. Qed.

Lemma asString_completed v :
  asString v = "completed" <-> v = Some (AString "completed").
Proof. destruct v as [[]|]; simpl; split; congruence. Qed.

(** One round of the loop decides whether an activity is completed. *)
Lemma activityDone_spec (h : heap) (a : any) :
  activityDone h a = true <-> hasCompletedDetail h a.
Proof.
  unfold activityDone, hasCompletedDetail.
  rewrite bool_decide_eq_true, asString_completed. split.
  - intros H.
    destruct (asMap (index h (asMap (Some a)) "detail")) as [d|] eqn:Ed;
      [|discriminate H].
    destruct (asMap (Some a)) as [act|] eqn:Ea; [|discriminate Ed].
    apply asMap_Some in Ea as [= ->]. apply asMap_Some in Ed. eauto.
  - intros (act & d & -> & Hd & Hs). cbn [asMap]. by rewrite Hd.
Qed.

(** Every option carries the index of an activity that is a map with a
    detail map. *)
Lemma optionsFrom_elem (h : heap) (activities : list any) (i k : nat) :
  k ∈ (snd <$> optionsFrom h i activities) ->
  exists j act detail,
    k = (i + j)%nat /\ activities !! j = Some (AMap act) /\
    index h (Some act) "detail" = Some (AMap detail) /\
    asString (index h (Some detail) "status") <> "completed".
Proof.
  revert i. induction activities as [|a rest IH]; intros i; cbn [optionsFrom asMap].
  { by intros ?%elem_of_nil. }
  assert (Hrest : k ∈ (snd <$> optionsFrom h (S i) rest) ->
                  exists j act detail,
                    k = (i + j)%nat /\ (a :: rest) !! j = Some (AMap act) /\
                    index h (Some act) "detail" = Some (AMap detail) /\
                    asString (index h (Some detail) "status") <> "completed").
  { intros (j & act & d & -> & Hj & Hd & Hs)%IH.
    exists (S j), act, d. repeat split; try done. lia. }
  destruct a as [| | | | |act]; try exact Hrest.
  destruct (asMap (index h (Some act) "detail")) as [d|] eqn:Ed;
    [|exact Hrest].
  case_bool_decide as Hs; [exact Hrest|].
  rewrite fmap_cons, elem_of_cons. intros [->|Hin]; [|by apply Hrest].
  apply asMap_Some in Ed.
  exists 0%nat, act, d. repeat split; try done; lia.
Qed.

(** Writing a status "completed" keeps the activities that were completed. *)
Lemma hasCompletedDetail_mapAssign (h : heap) l a :
  hasCompletedDetail h a ->
  hasCompletedDetail (mapAssign h l "status" (AString "completed")) a.
Proof.
  intros (act & d & -> & Hd & Hs). exists act, d. split; [done|]. split.
  - rewrite index_mapAssign_ne; [done | by right].
  - destruct (decide (l = d)) as [->|Hne].
    + apply index_mapAssign_eq.
    + rewrite index_mapAssign_ne; [done | by left].
Qed.

#[local] Arguments index : simpl never.
#[local] Arguments mapAssign : simpl never.

(** The marking step, for a selection that is one of the options. *)
Lemma markCompleted_spec (h : heap) (carePlan : loc) (actIdx : nat) :
  rootIsNoDetail h carePlan ->
  actIdx ∈ (snd <$> buildOptions h (asSlice (index h (Some carePlan) "activity"))) ->
  exists h' allDone act detail,
    markCompleted h carePlan (asSlice (index h (Some carePlan) "activity")) actIdx
      = Some (h', allDone, detail) /\
    asSlice (index h (Some carePlan) "activity") !! actIdx = Some (AMap act) /\
    index h (Some act) "detail" = Some (AMap detail) /\
    index h' (Some detail) "status" = Some (AString "completed") /\
    asSlice (index h' (Some carePlan) "activity")
      = asSlice (index h (Some carePlan) "activity") /\
    (allDone = true <->
     Forall (hasCompletedDetail h') (asSlice (index h' (Some carePlan) "activity"))) /\
    (allDone = true -> topStatus h' carePlan = Some (AString "completed")) /\
    (allDone = false -> topStatus h' carePlan = topStatus h carePlan).
Proof.
  intros Hroot Hin.
  set (activities := asSlice (index h (Some carePlan) "activity")) in *.
  apply optionsFrom_elem in Hin as (j & act & d & -> & Hj & Hd & _).
  simpl in *. unfold markCompleted. rewrite Hj. simpl. rewrite Hd. simpl.
  set (h1 := mapAssign h d "status" (AString "completed")).
  assert (Hne : d <> carePlan) by (intros ->; by apply (Hroot act)).
  assert (Hacts1 : asSlice (index h1 (Some carePlan) "activity") = activities).
  { unfold h1. rewrite index_mapAssign_ne; [done | by right]. }
  assert (Hall : forallb (activityDone h1) activities = true <->
                 Forall (hasCompletedDetail h1) activities).
  { rewrite forallb_forall, Forall_forall.
    split; intros H x Hx; apply activityDone_spec, H; by apply list_elem_of_In. }
  destruct (forallb (activityDone h1) activities) eqn:Edone.
  - eexists _, true, act, d. split; [reflexivity|].
    assert (Hacts2 : asSlice (index (mapAssign h1 carePlan "status" (AString "completed"))
                                    (Some carePlan) "activity") = activities).
    { rewrite index_mapAssign_ne; [done | by right]. }
    repeat split; try done.
    + rewrite index_mapAssign_ne by (by left). apply index_mapAssign_eq.
    + intros _. rewrite Hacts2.
      eapply Forall_impl; [by apply Hall|].
      intros a. apply hasCompletedDetail_mapAssign.
    + intros _. apply index_mapAssign_eq.
  - eexists _, false, act, d. split; [reflexivity|].
    repeat split; try done.
    + apply index_mapAssign_eq.
    + rewrite Hacts1. intros H%Hall. discriminate H.
    + intros _. unfold topStatus, h1. rewrite index_mapAssign_ne; [done | by left].
Qed.

(** C10: when [CompleteActivity] gets as far as the update, for a plan that
    was decoded into [h] at [carePlan] and a selection that is one of the
    options, the update it sends is the plan in a heap [h'] in which the
    detail of the selected activity has status "completed"; if every activity
    of the plan then has a detail with status "completed", the top-level
    status of the plan sent is "completed"; otherwise the top-level status
    sent is the one that was read. *)
Theorem plan_completed_iff_all_activities_completed
    (a : Client) (ui : PlanSession) (patientID cpID : string)
    (raw : RawMessage) (h : heap) (carePlan : loc) (actIdx : nat) :
  pickedPatient ui = (patientID, None) -> patientID <> "" ->
  pickedCarePlan ui = (cpID, None) -> cpID <> "" ->
  loadSpin ui = None ->
  ReadResource a "CarePlan" cpID = (raw, None) ->
  Unmarshal ui raw = inr (h, carePlan) ->
  rootIsNoDetail h carePlan ->
  selectActivity ui (buildOptions h (asSlice (index h (Some carePlan) "activity")))
    = (actIdx, None) ->
  actIdx ∈ (snd <$> buildOptions h (asSlice (index h (Some carePlan) "activity"))) ->
  exists events h' act detail,
    CompleteActivity a ui = Some events /\
    sentUpdate events = Some (carePlan, h') /\
    asSlice (index h (Some carePlan) "activity") !! actIdx = Some (AMap act) /\
    index h (Some act) "detail" = Some (AMap detail) /\
    index h' (Some detail) "status" = Some (AString "completed") /\
    asSlice (index h' (Some carePlan) "activity")
      = asSlice (index h (Some carePlan) "activity") /\
    (Forall (hasCompletedDetail h') (asSlice (index h' (Some carePlan) "activity")) ->
     topStatus h' carePlan = Some (AString "completed")) /\
    (~ Forall (hasCompletedDetail h') (asSlice (index h' (Some carePlan) "activity")) ->
     topStatus h' carePlan = topStatus h carePlan).
Proof.
  intros Hpat Hpid Hplan Hcp Hspin Hread Hdec Hroot Hsel Hin.
  destruct (markCompleted_spec h carePlan actIdx Hroot Hin)
    as (h' & allDone & act & detail & Hmark & Hact & Hdet & Hst & Hacts & Hall
        & Htrue & Hfalse).
  assert (Hopts : buildOptions h (asSlice (index h (Some carePlan) "activity")) <> []).
  { intros E. rewrite E in Hin. by apply elem_of_nil in Hin. }
  assert (Hnonempty : asSlice (index h (Some carePlan) "activity") <> []).
  { intros E. rewrite E in Hopts. by apply Hopts. }
  assert (Hrun : exists events,
             CompleteActivity a ui = Some events /\
             sentUpdate events = Some (carePlan, h')).
  { unfold CompleteActivity. rewrite Hpat.
    rewrite bool_decide_eq_false_2 by (intros H; by apply H).
    rewrite bool_decide_eq_false_2 by done. cbn [orb].
    rewrite Hplan.
    rewrite bool_decide_eq_false_2 by (intros H; by apply H).
    rewrite bool_decide_eq_false_2 by done. cbn [orb].
    rewrite Hread, Hspin, Hdec.
    rewrite bool_decide_eq_false_2
      by (by intros ?%length_zero_iff_nil).
    rewrite bool_decide_eq_false_2
      by (by intros ?%length_zero_iff_nil).
    rewrite Hsel, Hmark. cbn [mbind option_bind].
    destruct (updateSpin ui); [eauto|].
    destruct (updateReply ui); eauto. }
  destruct Hrun as (events & Hrun & Hsent).
  exists events, h', act, detail.
  repeat (split; [done|]). split.
  - intros H. by apply Htrue, Hall.
  - intros H. apply Hfalse. destruct allDone; [|done].
    exfalso. by apply H, Hall.
Qed.

Lemma plan_completed_iff_all_activities_completed_witness :
  rootIsNoDetail (samplePlan "completed") 1%positive /\
  (1%nat ∈ (snd <$> buildOptions (samplePlan "completed")
                       (asSlice (index (samplePlan "completed") (Some 1%positive)
                                       "activity")))) /\
  exists events h' act detail,
    CompleteActivity storeAllFound (sampleSession "completed" 1) = Some events /\
    sentUpdate events = Some (1%positive, h') /\
    asSlice (index (samplePlan "completed") (Some 1%positive) "activity") !! 1%nat
      = Some (AMap act) /\
    index (samplePlan "completed") (Some act) "detail" = Some (AMap detail) /\
    index h' (Some detail) "status" = Some (AString "completed") /\
    asSlice (index h' (Some 1%positive) "activity")
      = asSlice (index (samplePlan "completed") (Some 1%positive) "activity") /\
    (Forall (hasCompletedDetail h') (asSlice (index h' (Some 1%positive) "activity")) ->
     topStatus h' 1%positive = Some (AString "completed")) /\
    (~ Forall (hasCompletedDetail h') (asSlice (index h' (Some 1%positive) "activity")) ->
     topStatus h' 1%positive = topStatus (samplePlan "completed") 1%positive).
Proof.
  assert (Hroot : rootIsNoDetail (samplePlan "completed") 1%positive).
  { intros l. unfold index, samplePlan; cbn [mbind option_bind].
    destruct (decide (l = 2%positive)) as [->|];
      [vm_compute; discriminate|].
    destruct (decide (l = 3%positive)) as [->|];
      [vm_compute; discriminate|].
    destruct (decide (l = 1%positive)) as [->|];
      [vm_compute; discriminate|].
    destruct (decide (l = 4%positive)) as [->|];
      [vm_compute; discriminate|].
    destruct (decide (l = 5%positive)) as [->|];
      [vm_compute; discriminate|].
    rewrite !lookup_insert_ne by done. rewrite lookup_singleton_ne by done.
    discriminate. }
  assert (Hin : 1%nat ∈ (snd <$> buildOptions (samplePlan "completed")
                           (asSlice (index (samplePlan "completed") (Some 1%positive)
                                           "activity")))).
  { vm_compute. apply list_elem_of_here. }
  split; [exact Hroot|]. split; [exact Hin|].
  apply (plan_completed_iff_all_activities_completed
           storeAllFound (sampleSession "completed" 1) "p1" "cp1" "pat"
           (samplePlan "completed") 1%positive 1%nat);
    first [assumption | discriminate | reflexivity].
Defined.

(** The two sample plans: with the first activity done, completing the
    second completes the plan; with the first not started, it does not. *)
Example complete_last_activity :
  sentStatus (CompleteActivity storeAllFound (sampleSession "completed" 1))
    = Some (Some (AString "completed")).
Proof. vm_compute. reflexivity. Qed.

Example complete_one_of_two :
  sentStatus (CompleteActivity storeAllFound (sampleSession "not-started" 1))
    = Some (Some (AString "active")).
Proof. vm_compute. reflexivity. Qed.

(** ** More properties of the runs of the closure *)

(** X1: in every state of every run the counter of the wait group lies
    between 0 and 4 and counts the goroutines that are not gone, and a
    goroutine whose deferred [wg.Done()] is still to run finds the counter at
    1 or more: the counter never becomes negative. *)
Theorem wait_group_counter_in_range
    (a : Client) (clk : Clock) (patientID : string) (s : Sched) :
  reachable a clk patientID s ->
  0 <= wg s <= 4 /\
  (mainPc s <> MStart ->
   wg s = pending (pc s TPatient) + pending (pc s TObservations)
          + pending (pc s TConditions) + pending (pc s TPlans)) /\
  (forall t, pc s t = BodyDone -> 1 <= wg s).
Proof.
  intros Hreach.
  destruct (invariant_reachable a clk patientID s Hreach) as (Hl & Hwg & _).
  pose proof (pending_range (pc s TPatient)).
  pose proof (pending_range (pc s TObservations)).
  pose proof (pending_range (pc s TConditions)).
  pose proof (pending_range (pc s TPlans)).
  assert (Hsum : mainPc s <> MStart ->
                 wg s = pending (pc s TPatient) + pending (pc s TObservations)
                        + pending (pc s TConditions) + pending (pc s TPlans)).
  { intros Hm. rewrite Hwg. by destruct (mainPc s). }
  split; [|split; [exact Hsum|]].
  - destruct (decide (mainPc s = MStart)) as [E|Hm].
    + rewrite Hwg, E. lia.
    + rewrite (Hsum Hm). lia.
  - intros t Ht.
    assert (Hm : mainPc s <> MStart).
    { intros E. specialize (Hl t). rewrite E, Ht in Hl. discriminate Hl. }
    rewrite (Hsum Hm). destruct t; rewrite Ht in *; simpl; lia.
Qed.

Lemma wait_group_counter_in_range_witness :
  reachable storeNoPatient clock0 "p1" stateAfterFailedRead /\
  0 <= wg stateAfterFailedRead <= 4.
Proof.
  assert (Hs : reachable storeNoPatient clock0 "p1" stateAfterFailedRead)
    by apply runSchedule_reachable.
  split; [exact Hs|].
  apply (wait_group_counter_in_range storeNoPatient clock0 "p1" _ Hs).
Defined.

(** X2: the variables with which the closure returns do not depend on the
    interleaving of the four goroutines: any two runs that have returned
    hold the same results, the same error slots, the same [apiErr] and the
    same [elapsed]. *)
Theorem result_does_not_depend_on_interleaving
    (a : Client) (clk : Clock) (patientID : string) (s1 s2 : Sched) :
  reachable a clk patientID s1 -> reachable a clk patientID s2 ->
  mainPc s1 = MReturn -> mainPc s2 = MReturn ->
  vars s1 = vars s2.
Proof.
  intros H1 H2 R1 R2.
  destruct (invariant_reachable a clk patientID s1 H1)
    as (_ & _ & _ & _ & _ & _ & _ & P1).
  destruct (invariant_reachable a clk patientID s2 H2)
    as (_ & _ & _ & _ & _ & _ & _ & P2).
  by rewrite (P1 R1), (P2 R2).
Qed.

Lemma result_does_not_depend_on_interleaving_witness :
  reachable storeNoObservations clock0 "p1" stateInOrderFailing /\
  reachable storeNoObservations clock0 "p1" stateReversedFailing /\
  mainPc stateInOrderFailing = MReturn /\
  mainPc stateReversedFailing = MReturn /\
  vars stateInOrderFailing = vars stateReversedFailing.
Proof.
  assert (H1 : reachable storeNoObservations clock0 "p1" stateInOrderFailing)
    by apply runSchedule_reachable.
  assert (H2 : reachable storeNoObservations clock0 "p1" stateReversedFailing)
    by apply runSchedule_reachable.
  split; [exact H1|]. split; [exact H2|].
  split; [reflexivity|]. split; [reflexivity|].
  apply (result_does_not_depend_on_interleaving
           storeNoObservations clock0 "p1" _ _ H1 H2); reflexivity.
Defined.

(** ** Properties of the search helper *)






(** ** More properties of start-up *)

(** The guard on the five variables. *)
Lemma missing_guard (os : Platform) :
  bool_decide (Getenv os "PHENOSTORE_URL" = "")
  || bool_decide (Getenv os "PHENOSTORE_CLIENT_ID" = "")
  || bool_decide (Getenv os "PHENOSTORE_CLIENT_SECRET" = "")
  || bool_decide (Getenv os "PHENOSTORE_TENANT" = "")
  || bool_decide (Getenv os "PHENOSTORE_STORE" = "") = true
  <-> missingVariable os.
Proof.
  rewrite !orb_true_iff, !bool_decide_eq_true.
  unfold missingVariable, requiredVariables. split.
  - intros [[[[H|H]|H]|H]|H]; eexists; (split; [|exact H]).
    + apply list_elem_of_here.
    + do 1 apply list_elem_of_further. apply list_elem_of_here.
    + do 2 apply list_elem_of_further. apply list_elem_of_here.
    + do 3 apply list_elem_of_further. apply list_elem_of_here.
    + do 4 apply list_elem_of_further. apply list_elem_of_here.
  - intros (name & Hin & Hempty).
    rewrite !elem_of_cons, elem_of_nil in Hin.
    destruct Hin as [->|[->|[->|[->|[->|[]]]]]]; auto.
Qed.

Lemma missing_guard_false (os : Platform) :
  ~ missingVariable os ->
  bool_decide (Getenv os "PHENOSTORE_URL" = "")
  || bool_decide (Getenv os "PHENOSTORE_CLIENT_ID" = "")
  || bool_decide (Getenv os "PHENOSTORE_CLIENT_SECRET" = "")
  || bool_decide (Getenv os "PHENOSTORE_TENANT" = "")
  || bool_decide (Getenv os "PHENOSTORE_STORE" = "") = false.
Proof.
  intros Hno. apply not_true_is_false. intros H. by apply Hno, missing_guard.
Qed.

(** The URL check on a URL that is absolute and not acceptable. *)
Lemma validatePhenoStoreURL_not_acceptable (os : Platform) (rawURL : string)
    (parsed : URL) :
  Parse os rawURL = inr parsed ->
  Scheme parsed <> "" -> Host parsed <> "" -> ~ acceptable parsed ->
  validatePhenoStoreURL os rawURL = Some errNotHTTPS.
Proof.
  intros Hparse Hs Hh Hacc. unfold validatePhenoStoreURL. rewrite Hparse.
  rewrite (bool_decide_eq_false_2 _ Hs), (bool_decide_eq_false_2 _ Hh).
  cbn [orb]. cbv zeta. unfold acceptable, loopbackHosts in Hacc.
  destruct (decide (ToLower (Scheme parsed) = "https")) as [E|E].
  { exfalso. apply Hacc. by left. }
  rewrite (bool_decide_eq_false_2 _ E).
  destruct (decide (ToLower (Scheme parsed) = "http")) as [E'|E'];
    [|by rewrite (bool_decide_eq_false_2 _ E')].
  rewrite (bool_decide_eq_true_2 _ E').
  destruct (decide (ToLower (Hostname parsed) = "localhost")) as [H1|H1].
  { exfalso. apply Hacc. right. split; [done|]. rewrite H1. apply list_elem_of_here. }
  destruct (decide (ToLower (Hostname parsed) = "127.0.0.1")) as [H2|H2].
  { exfalso. apply Hacc. right. split; [done|]. rewrite H2.
    apply list_elem_of_further, list_elem_of_here. }
  destruct (decide (ToLower (Hostname parsed) = "::1")) as [H3|H3].
  { exfalso. apply Hacc. right. split; [done|]. rewrite H3.
    do 2 apply list_elem_of_further. apply list_elem_of_here. }
  by rewrite (bool_decide_eq_false_2 _ H1), (bool_decide_eq_false_2 _ H2),
    (bool_decide_eq_false_2 _ H3).
Qed.


(** X6: the errors of start-up in the order in which they are found: an
    empty variable gives the error that lists the five names, whatever the
    URL; with all five set, a URL that is not absolute gives the error that
    asks for an absolute URL; an absolute URL that is neither https nor http
    on a loopback host gives the error that asks for https; and an error of
    [NewClient] is returned under the prefix "creating client: ".  In each
    case the application is left as it was. *)
Theorem Initialize_errors_in_order (os : Platform) (a : App) :
  (missingVariable os -> Initialize os a = (a, Some errMissingVariables)) /\
  (~ missingVariable os -> notAbsolute os ->
   Initialize os a = (a, Some errNotAbsolute)) /\
  (~ missingVariable os ->
   forall parsed,
     Parse os (Getenv os "PHENOSTORE_URL") = inr parsed ->
     Scheme parsed <> "" -> Host parsed <> "" -> ~ acceptable parsed ->
     Initialize os a = (a, Some errNotHTTPS)) /\
  (~ missingVariable os ->
   validatePhenoStoreURL os (Getenv os "PHENOSTORE_URL") = None ->
   forall err,
     NewClient os (Getenv os "PHENOSTORE_URL") (Getenv os "PHENOSTORE_CLIENT_ID")
               (Getenv os "PHENOSTORE_CLIENT_SECRET") (Getenv os "PHENOSTORE_TENANT")
               (Getenv os "PHENOSTORE_STORE") = inl err ->
     Initialize os a = (a, Some (Errorf_w "creating client: " err))).
Proof.
  split; [|split; [|split]].
  - intros Hmiss. unfold Initialize.
    by rewrite (proj2 (missing_guard os) Hmiss).
  - intros Hno Habs. unfold Initialize. rewrite (missing_guard_false os Hno).
    unfold notAbsolute in Habs. unfold validatePhenoStoreURL.
    destruct (Parse os (Getenv os "PHENOSTORE_URL")) as [err|parsed]; [done|].
    destruct Habs as [E|E]; rewrite (bool_decide_eq_true_2 _ E);
      by rewrite ?orb_true_r.
  - intros Hno parsed Hparse Hs Hh Hacc. unfold Initialize.
    rewrite (missing_guard_false os Hno).
    by rewrite (validatePhenoStoreURL_not_acceptable os _ parsed Hparse Hs Hh Hacc).
  - intros Hno Hv err Hnew. unfold Initialize.
    by rewrite (missing_guard_false os Hno), Hv, Hnew.
Qed.

Lemma Initialize_errors_in_order_witness :
  missingVariable (samplePlatform "") /\
  Initialize (samplePlatform "") (mkApp None) = (mkApp None, Some errMissingVariables).
Proof.
  assert (H : missingVariable (samplePlatform "")).
  { exists "PHENOSTORE_URL". split; [apply list_elem_of_here | reflexivity]. }
  split; [exact H|].
  by apply (Initialize_errors_in_order (samplePlatform "") (mkApp None)).
Defined.

(** ** Properties of the progress of a care plan *)

Lemma countActivity_state (h : heap) (counts : nat * nat) (a : any) :
  countActivity h counts a =
    match activityState h a with
    | None => counts
    | Some true => (S (fst counts), S (snd counts))
    | Some false => (fst counts, S (snd counts))
    end.
Proof.
  unfold countActivity, activityState. destruct counts as [c t].
  destruct (asMap (Some a)) as [act|]; [|done]. cbn [mbind option_bind].
  destruct (getMap h (Some act) "detail") as [d|]; [|done]. cbn [mbind option_bind].
  by case_bool_decide.
Qed.

(** The counters after the loop, from any start. *)
Lemma fold_countActivity (h : heap) (activities : list any) (c t : nat) :
  fold_left (countActivity h) activities (c, t) =
    ((c + length (filter (fun a => activityState h a = Some true) activities))%nat,
     (t + length (filter (fun a => is_Some (activityState h a)) activities))%nat).
Proof.
  revert c t. induction activities as [|a rest IH]; intros c t; cbn [fold_left].
  { simpl. f_equal; lia. }
  rewrite countActivity_state.
  destruct (activityState h a) as [[|]|] eqn:E; cbn [fst snd]; rewrite IH.
  - rewrite !filter_cons_True by (rewrite ?E; eauto). simpl. f_equal; lia.
  - rewrite filter_cons_False by (rewrite E; discriminate).
    rewrite filter_cons_True by (rewrite E; eauto). simpl. f_equal; lia.
  - rewrite !filter_cons_False by (rewrite E; first [discriminate | by intros [? ?]]).
    done.
Qed.

Lemma length_filter_le {A} (P Q : A -> Prop)
    `{!forall x, Decision (P x)} `{!forall x, Decision (Q x)} (l : list A) :
  (forall x, P x -> Q x) ->
  (length (filter P l) <= length (filter Q l))%nat.
Proof.
  intros HPQ. induction l as [|x l IH]; [done|].
  destruct (decide (P x)) as [HP|HP].
  - rewrite (filter_cons_True P) by done.
    rewrite (filter_cons_True Q) by auto. simpl. lia.
  - rewrite (filter_cons_False P) by done.
    destruct (decide (Q x)).
    + rewrite (filter_cons_True Q) by done. simpl. lia.
    + by rewrite (filter_cons_False Q).
Qed.

Lemma length_filter_all {A} (P : A -> Prop) `{!forall x, Decision (P x)}
    (l : list A) :
  length (filter P l) = length l <-> Forall P l.
Proof.
  induction l as [|x l IH]; [by split|].
  pose proof (length_filter P l) as Hle.
  destruct (decide (P x)) as [HP|HP].
  - rewrite filter_cons_True by done. simpl. rewrite Forall_cons. split.
    + intros [= Hlen]. split; [done | by apply IH].
    + intros [_ Hall]. f_equal. by apply IH.
  - rewrite filter_cons_False by done. simpl. rewrite Forall_cons. split.
    + intros Hlen. lia.
    + by intros [? _].
Qed.

(** X7: the counters of [carePlanProgress] never pass one another: completed
    is at most total, and total is at most the number of activities. *)
Theorem carePlanProgress_bounds (h : heap) (m : option loc) :
  (fst (carePlanProgress h m) <= snd (carePlanProgress h m))%nat /\
  (snd (carePlanProgress h m) <= length (getSlice h m "activity"))%nat.
Proof.
  unfold carePlanProgress. rewrite fold_countActivity. simpl. split.
  - apply length_filter_le. intros a ->. eauto.
  - apply length_filter.
Qed.

(** The state of an activity decides the test of the [allDone] loop. *)
Lemma activityDone_state (h : heap) (a : any) :
  activityDone h a = true <-> activityState h a = Some true.
Proof.
  unfold activityDone, activityState, getMap, getString.
  destruct (asMap (Some a)) as [act|]; cbn [mbind option_bind].
  - destruct (asMap (index h (Some act) "detail")) as [d|]; cbn [mbind option_bind].
    + rewrite bool_decide_eq_true. split; [intros H | intros [= H]].
      * by rewrite bool_decide_eq_true_2.
      * by apply bool_decide_eq_true in H.
    + rewrite bool_decide_eq_true. by split.
  - rewrite bool_decide_eq_true. by split.
Qed.

(** Writing a status "completed" keeps what an activity counts for, except
    that an activity that was not completed may become so. *)
Lemma activityState_mapAssign (h : heap) (l : loc) (a : any) :
  match activityState h a with
  | None => activityState (mapAssign h l "status" (AString "completed")) a = None
  | Some true =>
      activityState (mapAssign h l "status" (AString "completed")) a = Some true
  | Some false =>
      is_Some (activityState (mapAssign h l "status" (AString "completed")) a)
  end.
Proof.
  unfold activityState, getMap, getString.
  destruct (asMap (Some a)) as [act|]; cbn [mbind option_bind]; [|done].
  rewrite index_mapAssign_ne by (by right).
  destruct (asMap (index h (Some act) "detail")) as [d|]; cbn [mbind option_bind];
    [|done].
  destruct (decide (l = d)) as [->|Hne].
  - rewrite index_mapAssign_eq. simpl. by case_bool_decide; eauto.
  - rewrite index_mapAssign_ne by (by left). case_bool_decide; eauto.
Qed.

Lemma progress_mapAssign (h : heap) (l : loc) (activities : list any) :
  (length (filter (fun a => activityState h a = Some true) activities)
   <= length (filter (fun a => activityState
                                 (mapAssign h l "status" (AString "completed")) a
                               = Some true) activities))%nat /\
  length (filter (fun a => is_Some (activityState
                                      (mapAssign h l "status" (AString "completed")) a))
                 activities)
  = length (filter (fun a => is_Some (activityState h a)) activities).
Proof.
  split.
  - apply length_filter_le. intros a Ha.
    pose proof (activityState_mapAssign h l a) as H. by rewrite Ha in H.
  - induction activities as [|a rest IH]; [done|].
    pose proof (activityState_mapAssign h l a) as H.
    destruct (activityState h a) as [[|]|] eqn:E.
    + rewrite !filter_cons_True by (rewrite ?E, ?H; eauto). simpl. by rewrite IH.
    + rewrite !filter_cons_True by (rewrite ?E; eauto). simpl. by rewrite IH.
    + rewrite !filter_cons_False
        by (rewrite ?E, ?H; by intros [? ?]).
      done.
Qed.

(** X8: the plan that the marking step leaves is marked as all done exactly
    when [carePlanProgress] counts every entry of its activity list as
    completed.  An entry that is not a map with a detail map is never
    counted, so that a plan with such an entry is never marked. *)
Theorem allDone_iff_progress_is_full
    (h : heap) (carePlan : loc) (actIdx : nat)
    (h' : heap) (allDone : bool) (detail : loc) :
  markCompleted h carePlan (getSlice h (Some carePlan) "activity") actIdx
    = Some (h', allDone, detail) ->
  getSlice h' (Some carePlan) "activity" = getSlice h (Some carePlan) "activity" /\
  (allDone = true <->
   fst (carePlanProgress h' (Some carePlan))
   = length (getSlice h' (Some carePlan) "activity")).
Proof.
  unfold markCompleted, getSlice. intros Hmark.
  set (activities := asSlice (index h (Some carePlan) "activity")) in *.
  destruct (activities !! actIdx) as [a|]; [|discriminate Hmark].
  cbn [mbind option_bind] in Hmark.
  destruct (asMap (index h (asMap (Some a)) "detail")) as [d|];
    [|discriminate Hmark].
  cbn [mbind option_bind] in Hmark.
  set (h1 := mapAssign h d "status" (AString "completed")) in *.
  assert (Hacts1 : asSlice (index h1 (Some carePlan) "activity") = activities).
  { unfold h1. rewrite index_mapAssign_ne; [done | by right]. }
  assert (Hfull : forall g : heap,
             forallb (activityDone g) activities = true <->
             length (filter (fun a => activityState g a = Some true) activities)
             = length activities).
  { intros g. rewrite length_filter_all, forallb_forall, Forall_forall.
    split; intros H x Hx; apply activityDone_state, H; by apply list_elem_of_In. }
  destruct (forallb (activityDone h1) activities) eqn:Edone;
    injection Hmark as <- <- <-.
  - assert (Hacts2 : asSlice (index (mapAssign h1 carePlan "status" (AString "completed"))
                                    (Some carePlan) "activity") = activities).
    { rewrite index_mapAssign_ne; [done | by right]. }
    split; [done|]. split; [intros _|done].
    unfold carePlanProgress, getSlice. rewrite Hacts2, fold_countActivity. simpl.
    apply Hfull in Edone.
    pose proof (proj1 (progress_mapAssign h1 carePlan activities)) as Hle.
    pose proof (length_filter
                  (fun a => activityState
                              (mapAssign h1 carePlan "status" (AString "completed")) a
                            = Some true) activities).
    lia.
  - split; [done|]. split; [discriminate|].
    unfold carePlanProgress, getSlice. rewrite Hacts1, fold_countActivity. simpl.
    intros H%Hfull. congruence.
Qed.

Lemma length_filter_lt {A} (P Q : A -> Prop)
    `{!forall x, Decision (P x)} `{!forall x, Decision (Q x)}
    (l : list A) (i : nat) (x : A) :
  (forall y, P y -> Q y) ->
  l !! i = Some x -> ~ P x -> Q x ->
  (length (filter P l) < length (filter Q l))%nat.
Proof.
  intros HPQ. revert i. induction l as [|y l IH]; intros i Hi HP HQ; [done|].
  destruct i as [|i]; simpl in Hi.
  - injection Hi as ->.
    rewrite (filter_cons_False P) by done.
    rewrite (filter_cons_True Q) by done. simpl.
    pose proof (length_filter_le P Q l HPQ). lia.
  - specialize (IH i Hi HP HQ).
    destruct (decide (P y)).
    + rewrite (filter_cons_True P) by done.
      rewrite (filter_cons_True Q) by auto. simpl. lia.
    + rewrite (filter_cons_False P) by done.
      destruct (decide (Q y)).
      * rewrite (filter_cons_True Q) by done. simpl. lia.
      * by rewrite (filter_cons_False Q).
Qed.

(** What the options loop and the progress loop see is the same. *)
Lemma optionsFrom_state (h : heap) (activities : list any) (i k : nat) :
  k ∈ (snd <$> optionsFrom h i activities) <->
  exists j a, k = (i + j)%nat /\ activities !! j = Some a /\
              activityState h a = Some false.
Proof.
  revert i. induction activities as [|a rest IH]; intros i;
    cbn [optionsFrom asMap].
  { split; [by intros ?%elem_of_nil | by intros (j & ? & _ & ? & _)]. }
  assert (Hskip : activityState h a <> Some false ->
                  (k ∈ (snd <$> optionsFrom h (S i) rest) <->
                   exists j a', k = (i + j)%nat /\ (a :: rest) !! j = Some a' /\
                                activityState h a' = Some false)).
  { intros Hst. rewrite IH. split.
    - intros (j & a' & -> & Hj & Ha'). exists (S j), a'.
      repeat split; try done. lia.
    - intros ([|j] & a' & -> & Hj & Ha'); simpl in Hj.
      + by injection Hj as <-.
      + exists j, a'. repeat split; try done. lia. }
  destruct (activityState h a) as [[|]|] eqn:Est.
  1, 3: unfold activityState, getMap, getString in Est;
    destruct a as [| | | | |act]; cbn [asMap mbind option_bind] in Est |- *;
    try (by apply Hskip);
    destruct (asMap (index h (Some act) "detail")) as [d|];
    cbn [mbind option_bind] in Est |- *; try (by apply Hskip);
    case_bool_decide; try (by apply Hskip); discriminate Est.
  pose proof Est as Hopen.
  unfold activityState, getMap, getString in Est.
  destruct a as [| | | | |act]; cbn [asMap mbind option_bind] in Est |- *;
    try discriminate Est.
  destruct (asMap (index h (Some act) "detail")) as [d|];
    cbn [mbind option_bind] in Est |- *; [|discriminate Est].
  case_bool_decide as Hs; [discriminate Est|].
  rewrite fmap_cons, elem_of_cons, IH. cbn [snd]. split.
  - intros [->|(j & a' & -> & Hj & Ha')].
    + exists 0%nat, (AMap act). repeat split; try lia. exact Hopen.
    + exists (S j), a'. repeat split; try done. lia.
  - intros ([|j] & a' & -> & Hj & Ha'); simpl in Hj.
    + left. lia.
    + right. exists j, a'. repeat split; try done. lia.
Qed.

Lemma length_optionsFrom (h : heap) (activities : list any) (i : nat) :
  length (optionsFrom h i activities)
  = length (filter (fun a => activityState h a = Some false) activities).
Proof.
  revert i. induction activities as [|a rest IH]; intros i; [done|].
  cbn [optionsFrom].
  destruct (activityState h a) as [[|]|] eqn:Est;
    [rewrite filter_cons_False by (rewrite Est; discriminate)
    |rewrite filter_cons_True by done
    |rewrite filter_cons_False by (rewrite Est; discriminate)];
    unfold activityState, getMap, getString in Est;
    destruct a as [| | | | |act]; cbn [asMap mbind option_bind] in Est |- *;
    try discriminate Est; try apply IH;
    destruct (asMap (index h (Some act) "detail")) as [d|];
    cbn [mbind option_bind] in Est |- *; try discriminate Est; try apply IH;
    case_bool_decide; try discriminate Est; try apply IH.
  simpl. by rewrite IH.
Qed.

Lemma count_states (h : heap) (activities : list any) :
  length (filter (fun a => is_Some (activityState h a)) activities)
  = (length (filter (fun a => activityState h a = Some true) activities)
     + length (filter (fun a => activityState h a = Some false) activities))%nat.
Proof.
  induction activities as [|a rest IH]; [done|].
  destruct (activityState h a) as [[|]|] eqn:Est.
  - rewrite (filter_cons_True (fun a => is_Some _)) by (rewrite Est; eauto).
    rewrite (filter_cons_True (fun a => _ = Some true)) by done.
    rewrite (filter_cons_False (fun a => _ = Some false)) by (rewrite Est; discriminate).
    simpl. lia.
  - rewrite (filter_cons_True (fun a => is_Some _)) by (rewrite Est; eauto).
    rewrite (filter_cons_False (fun a => _ = Some true)) by (rewrite Est; discriminate).
    rewrite (filter_cons_True (fun a => _ = Some false)) by done.
    simpl. lia.
  - rewrite (filter_cons_False (fun a => is_Some _)) by (rewrite Est; by intros [? ?]).
    rewrite (filter_cons_False (fun a => _ = Some true)) by (rewrite Est; discriminate).
    rewrite (filter_cons_False (fun a => _ = Some false)) by (rewrite Est; discriminate).
    done.
Qed.

(** X9: the options that [CompleteActivity] offers are exactly the
    activities that [carePlanProgress] counts without counting them as
    completed: an index is offered if and only if the activity at it is a map
    with a detail map whose status is not "completed", and the number of
    options is total minus completed. *)
Theorem options_are_the_open_activities (h : heap) (m : option loc) :
  (forall i,
      i ∈ (snd <$> buildOptions h (getSlice h m "activity")) <->
      exists a, getSlice h m "activity" !! i = Some a /\
                activityState h a = Some false) /\
  length (buildOptions h (getSlice h m "activity"))
  = (snd (carePlanProgress h m) - fst (carePlanProgress h m))%nat.
Proof.
  split.
  - intros i. unfold buildOptions. rewrite optionsFrom_state. split.
    + intros (j & a & -> & Hj & Ha). eauto.
    + intros (a & Hi & Ha). exists i, a. done.
  - unfold buildOptions, carePlanProgress.
    rewrite length_optionsFrom, fold_countActivity. simpl.
    rewrite count_states. lia.
Qed.

(** What a successful marking step did. *)
Lemma markCompleted_inv (h : heap) (carePlan : loc) (activities : list any)
    (actIdx : nat) (h' : heap) (allDone : bool) (detail : loc) :
  markCompleted h carePlan activities actIdx = Some (h', allDone, detail) ->
  exists act,
    activities !! actIdx = Some (AMap act) /\
    index h (Some act) "detail" = Some (AMap detail) /\
    allDone = forallb (activityDone (mapAssign h detail "status" (AString "completed")))
                      activities /\
    h' = (if allDone
          then mapAssign (mapAssign h detail "status" (AString "completed"))
                         carePlan "status" (AString "completed")
          else mapAssign h detail "status" (AString "completed")).
Proof.
  unfold markCompleted. intros Hmark.
  destruct (activities !! actIdx) as [a|]; [|discriminate Hmark].
  cbn [mbind option_bind] in Hmark.
  destruct a as [| | | | |act]; try discriminate Hmark.
  cbn [asMap] in Hmark.
  destruct (asMap (index h (Some act) "detail")) as [d|] eqn:Ed;
    [|discriminate Hmark].
  apply asMap_Some in Ed. cbn [mbind option_bind] in Hmark.
  injection Hmark as <- <- <-. eauto.
Qed.

(** X10: completing an offered activity leaves the total of
    [carePlanProgress] as it was and raises the number of completed
    activities by at least one. *)
Theorem completing_raises_progress
    (h : heap) (carePlan : loc) (actIdx : nat)
    (h' : heap) (allDone : bool) (detail : loc) :
  actIdx ∈ (snd <$> buildOptions h (getSlice h (Some carePlan) "activity")) ->
  markCompleted h carePlan (getSlice h (Some carePlan) "activity") actIdx
    = Some (h', allDone, detail) ->
  snd (carePlanProgress h' (Some carePlan)) = snd (carePlanProgress h (Some carePlan)) /\
  (fst (carePlanProgress h (Some carePlan))
   < fst (carePlanProgress h' (Some carePlan)))%nat.
Proof.
  intros Hin Hmark.
  unfold buildOptions in Hin.
  apply optionsFrom_state in Hin as (j & a & -> & Ha & Hopen). simpl in Ha.
  unfold getSlice in *.
  set (activities := asSlice (index h (Some carePlan) "activity")) in *.
  apply markCompleted_inv in Hmark as (act & Hact & Hd & HallDone & ->).
  change (0 + j)%nat with j in Hact.
  rewrite Ha in Hact. injection Hact as ->.
  set (h1 := mapAssign h detail "status" (AString "completed")) in *.
  assert (Hdone1 : activityState h1 (AMap act) = Some true).
  { unfold activityState, getMap, getString, h1. cbn [asMap mbind option_bind].
    rewrite index_mapAssign_ne by (by right). rewrite Hd.
    cbn [asMap mbind option_bind]. by rewrite index_mapAssign_eq. }
  pose proof (progress_mapAssign h detail activities) as [Hc1 Ht1].
  fold h1 in Hc1, Ht1.
  assert (Hlt1 : (length (filter (fun a => activityState h a = Some true) activities)
                  < length (filter (fun a => activityState h1 a = Some true) activities))%nat).
  { eapply (length_filter_lt _ _ activities j (AMap act)); try done.
    - intros y Hy. pose proof (activityState_mapAssign h detail y) as H.
      by rewrite Hy in H.
    - rewrite Hopen. discriminate. }
  assert (Hacts1 : asSlice (index h1 (Some carePlan) "activity") = activities).
  { unfold h1. rewrite index_mapAssign_ne; [done | by right]. }
  unfold carePlanProgress, getSlice.
  destruct allDone; cbv iota.
  - pose proof (progress_mapAssign h1 carePlan activities) as [Hc2 Ht2].
    rewrite index_mapAssign_ne by (by right). rewrite Hacts1.
    fold activities. rewrite !fold_countActivity. simpl. split; [congruence | lia].
  - rewrite Hacts1.
    fold activities. rewrite !fold_countActivity. simpl. split; [congruence | lia].
Qed.

(** The sample plans are roots, and their second activity is offered. *)
Lemma samplePlan_rootIsNoDetail (firstStatus : string) :
  rootIsNoDetail (samplePlan firstStatus) 1%positive.
Proof.
  intros l. unfold index, samplePlan; cbn [mbind option_bind].
  destruct (decide (l = 1%positive)) as [->|]; [vm_compute; discriminate|].
  destruct (decide (l = 2%positive)) as [->|]; [vm_compute; discriminate|].
  destruct (decide (l = 3%positive)) as [->|]; [vm_compute; discriminate|].
  destruct (decide (l = 4%positive)) as [->|];
    [rewrite !lookup_insert_ne by done; rewrite lookup_insert_eq; done|].
  destruct (decide (l = 5%positive)) as [->|];
    [rewrite !lookup_insert_ne by done; rewrite lookup_singleton_eq; done|].
  rewrite !lookup_insert_ne by done. rewrite lookup_singleton_ne by done.
  discriminate.
Qed.

Lemma samplePlan_second_offered :
  1%nat ∈ (snd <$> buildOptions (samplePlan "not-started")
                     (getSlice (samplePlan "not-started") (Some 1%positive) "activity")) /\
  1%nat ∈ (snd <$> buildOptions (samplePlan "completed")
                     (getSlice (samplePlan "completed") (Some 1%positive) "activity")).
Proof.
  split; vm_compute.
  - apply list_elem_of_further, list_elem_of_here.
  - apply list_elem_of_here.
Qed.

Lemma allDone_iff_progress_is_full_witness :
  exists h' allDone detail,
    markCompleted (samplePlan "completed") 1%positive
                  (getSlice (samplePlan "completed") (Some 1%positive) "activity") 1
      = Some (h', allDone, detail) /\
    (allDone = true <->
     fst (carePlanProgress h' (Some 1%positive))
     = length (getSlice h' (Some 1%positive) "activity")).
Proof.
  destruct (markCompleted_spec (samplePlan "completed") 1%positive 1
              (samplePlan_rootIsNoDetail _) (proj2 samplePlan_second_offered))
    as (h' & allDone & act & detail & Hmark & _).
  exists h', allDone, detail. split; [exact Hmark|].
  apply (allDone_iff_progress_is_full _ _ _ _ _ _ Hmark).
Defined.

Lemma completing_raises_progress_witness :
  exists h' allDone detail,
    1%nat ∈ (snd <$> buildOptions (samplePlan "not-started")
                       (getSlice (samplePlan "not-started") (Some 1%positive) "activity")) /\
    markCompleted (samplePlan "not-started") 1%positive
                  (getSlice (samplePlan "not-started") (Some 1%positive) "activity") 1
      = Some (h', allDone, detail) /\
    snd (carePlanProgress h' (Some 1%positive))
    = snd (carePlanProgress (samplePlan "not-started") (Some 1%positive)) /\
    (fst (carePlanProgress (samplePlan "not-started") (Some 1%positive))
     < fst (carePlanProgress h' (Some 1%positive)))%nat.
Proof.
  destruct (markCompleted_spec (samplePlan "not-started") 1%positive 1
              (samplePlan_rootIsNoDetail _) (proj1 samplePlan_second_offered))
    as (h' & allDone & act & detail & Hmark & _).
  exists h', allDone, detail.
  split; [exact (proj1 samplePlan_second_offered)|]. split; [exact Hmark|].
  apply (completing_raises_progress _ _ _ _ _ _
           (proj1 samplePlan_second_offered) Hmark).
Defined.

(** One round of the dashboard loop, by the state of the activity. *)
Lemma dashboardActivity_state (h : heap) (dp : DashboardPlan.t) (a : any) :
  let dp' := dashboardActivity h dp a in
  DashboardPlan.PatientName dp' = DashboardPlan.PatientName dp /\
  DashboardPlan.Title dp' = DashboardPlan.Title dp /\
  (DashboardPlan.Completed dp', DashboardPlan.Total dp')
  = countActivity h (DashboardPlan.Completed dp, DashboardPlan.Total dp) a /\
  match activityState h a with
  | Some false =>
      exists item, DashboardPlan.Outstanding dp' = DashboardPlan.Outstanding dp ++ [item]
                   /\ Status item <> "completed"
  | _ => DashboardPlan.Outstanding dp' = DashboardPlan.Outstanding dp
  end.
Proof.
  unfold dashboardActivity, countActivity, activityState.
  destruct (asMap (Some a)) as [act|]; cbn [mbind option_bind]; [|done].
  destruct (getMap h (Some act) "detail") as [d|]; cbn [mbind option_bind]; [|done].
  case_bool_decide as Hs; cbn; repeat split; eauto.
Qed.

(** The dashboard plan after the loop, from any start. *)
Lemma fold_dashboardActivity (h : heap) (activities : list any)
    (dp : DashboardPlan.t) :
  let dp' := fold_left (dashboardActivity h) activities dp in
  DashboardPlan.PatientName dp' = DashboardPlan.PatientName dp /\
  DashboardPlan.Title dp' = DashboardPlan.Title dp /\
  (DashboardPlan.Completed dp', DashboardPlan.Total dp')
  = fold_left (countActivity h) activities
              (DashboardPlan.Completed dp, DashboardPlan.Total dp) /\
  (length (DashboardPlan.Outstanding dp')
   = length (DashboardPlan.Outstanding dp)
     + length (filter (fun a => activityState h a = Some false) activities))%nat /\
  (Forall (fun item => Status item <> "completed") (DashboardPlan.Outstanding dp) ->
   Forall (fun item => Status item <> "completed") (DashboardPlan.Outstanding dp')).
Proof.
  revert dp. induction activities as [|a rest IH]; intros dp; cbn [fold_left].
  { cbn zeta. repeat split; try done. }
  specialize (IH (dashboardActivity h dp a)). cbn zeta in IH |- *.
  destruct IH as (Hn & Ht & Hc & Hl & Hf).
  destruct (dashboardActivity_state h dp a) as (Hn1 & Ht1 & Hc1 & Ho1).
  rewrite Hn, Ht, Hc, Hl, Hn1, Ht1, Hc1. clear Hn Ht Hc Hl.
  split; [done|]. split; [done|]. split; [done|].
  destruct (activityState h a) as [[|]|] eqn:Est.
  - rewrite Ho1 in *. rewrite filter_cons_False by (rewrite Est; discriminate).
    split; [done | exact Hf].
  - destruct Ho1 as (item & Ho1 & Hitem). rewrite Ho1 in *.
    rewrite filter_cons_True by done. rewrite length_app. simpl. split; [lia|].
    intros Hall. apply Hf. apply Forall_app. split; [done|]. by constructor.
  - rewrite Ho1 in *. rewrite filter_cons_False by (rewrite Est; discriminate).
    split; [done | exact Hf].
Qed.

(** X11: the plan that [GetDashboardPlan] returns carries the given patient
    name and the title of the care plan; its counters are those of
    [carePlanProgress]; every activity that is counted is either completed
    or listed as outstanding, and no outstanding item has status
    "completed". *)
Theorem GetDashboardPlan_agrees_with_progress
    (h : heap) (carePlan : option loc) (patientName : string) :
  DashboardPlan.PatientName (GetDashboardPlan h carePlan patientName) = patientName /\
  DashboardPlan.Title (GetDashboardPlan h carePlan patientName)
  = getString h carePlan "title" /\
  (DashboardPlan.Completed (GetDashboardPlan h carePlan patientName),
   DashboardPlan.Total (GetDashboardPlan h carePlan patientName))
  = carePlanProgress h carePlan /\
  DashboardPlan.Total (GetDashboardPlan h carePlan patientName)
  = (DashboardPlan.Completed (GetDashboardPlan h carePlan patientName)
     + length (DashboardPlan.Outstanding (GetDashboardPlan h carePlan patientName)))%nat /\
  Forall (fun item => Status item <> "completed")
         (DashboardPlan.Outstanding (GetDashboardPlan h carePlan patientName)).
Proof.
  unfold GetDashboardPlan, carePlanProgress.
  destruct (fold_dashboardActivity h (getSlice h carePlan "activity")
              (DashboardPlan.mk patientName (getString h carePlan "title")
                                0%nat 0%nat []))
    as (Hn & Ht & Hc & Hl & Hf).
  cbn zeta in *. cbn [DashboardPlan.PatientName DashboardPlan.Title
    DashboardPlan.Completed DashboardPlan.Total DashboardPlan.Outstanding] in *.
  split; [done|]. split; [done|]. split; [done|]. split; [|by apply Hf].
  rewrite fold_countActivity in Hc. injection Hc as Hc1 Hc2.
  rewrite Hc1, Hc2, Hl, count_states. simpl. lia.
Qed.

Lemma substring_all (s : string) : substring 0 (String.length s) s = s.
Proof. induction s as [|c s IH]; [done|]. simpl. by rewrite IH. Qed.

(** X12: [PatientRef] undoes the prefix that the builder of a care plan puts
    before the patient id: for a subject whose reference is "Patient/"
    followed by an id it returns that id, whatever the id; a reference
    without the prefix is returned whole, and a plan without a subject map
    gives the empty string. *)
Theorem PatientRef_strips_the_prefix (h : heap) (m : option loc) :
  (getMap h m "subject" = None -> PatientRef h m = "") /\
  (forall sub,
      getMap h m "subject" = Some sub ->
      (forall id,
          getString h (Some sub) "reference" = "Patient/" +:+ id ->
          PatientRef h m = id) /\
      (String.prefix "Patient/" (getString h (Some sub) "reference") = false ->
       PatientRef h m = getString h (Some sub) "reference")).
Proof.
  unfold PatientRef. split; [by intros ->|].
  intros sub ->. split.
  - intros id ->.
    change (String.prefix "Patient/" ("Patient/" +:+ id)) with (String.prefix "" id).
    replace (String.prefix "" id) with true by (by destruct id).
    change (String.length ("Patient/" +:+ id)) with (8 + String.length id)%nat.
    replace (8 + String.length id - 8)%nat with (String.length id) by lia.
    change (substring 8 (String.length id) ("Patient/" +:+ id))
      with (substring 0 (String.length id) id).
    apply substring_all.
  - by intros ->.
Qed.

Lemma PatientRef_strips_the_prefix_witness :
  PatientRef planOfPatient (Some 1%positive) = "abc123".
Proof.
  apply (proj1 (proj2 (PatientRef_strips_the_prefix planOfPatient (Some 1%positive))
                      2%positive eq_refl) "abc123").
  reflexivity.
Defined.

(** ** Properties of DeleteSeedData *)

Lemma searchByTag_calls (lib : Library) (sv : Server) (past : list Call)
    (rt tag : string) :
  (searchByTag lib sv past rt tag).1.1 = past ++ [CSearch rt [("_tag", tag)]].
Proof.
  unfold searchByTag. destruct (searchReply sv past rt _) as [err|code decoded];
    [done|]. destruct (400 <=? code); [done|]. by destruct decoded.
Qed.

Lemma searchByTag_error (lib : Library) (sv : Server) (past : list Call)
    (rt tag : string) :
  (searchByTag lib sv past rt tag).2
  = searchFailure rt (searchReply sv past rt [("_tag", tag)]).
Proof.
  unfold searchByTag, searchFailure.
  destruct (searchReply sv past rt _) as [err|code decoded]; [done|].
  destruct (400 <=? code); [done|]. by destruct decoded.
Qed.

Lemma searchByTag_ids (lib : Library) (sv : Server) (past : list Call)
    (rt id : string) :
  id ∈ (searchByTag lib sv past rt seedTagQuery).1.2 ->
  id <> "" /\ taggedAsSeed lib sv past rt id.
Proof.
  unfold searchByTag, taggedAsSeed.
  destruct (searchReply sv past rt _) as [err|code decoded]; cbn [fst snd].
  { by intros ?%elem_of_nil. }
  destruct (400 <=? code) eqn:Hcode; cbn [fst snd].
  { by intros ?%elem_of_nil. }
  destruct decoded as [err|bundle]; cbn [fst snd].
  { by intros ?%elem_of_nil. }
  intros [Hne (raw & -> & Hraw)%list_elem_of_fmap]%list_elem_of_filter.
  split; [done|]. exists code, bundle, raw.
  repeat split; [lia | done].
Qed.

(** *** The order of the calls *)

Lemma inPlace_nil (n : nat) : inPlace n [].
Proof.
  split; [by intros c ?%elem_of_nil|]. intros i j c1 c2 _ H. by destruct i.
Qed.

Lemma inPlace_snoc (n : nat) (calls : list Call) (c : Call) :
  inPlace n calls -> typeOf c ∈ resourceTypes ->
  (n <= placeOf (typeOf c))%nat ->
  inPlace (placeOf (typeOf c)) (calls ++ [c]).
Proof.
  intros [Hall Hord] Hin Hn. split.
  - intros c' [Hc'|Hc']%elem_of_app.
    + destruct (Hall c' Hc'). split; [done|lia].
    + apply list_elem_of_singleton in Hc' as ->. split; [done|lia].
  - intros i j c1 c2 Hij H1 H2.
    apply lookup_snoc_Some in H2 as [[Hj H2]| [-> <-]].
    + rewrite lookup_app_l in H1 by lia. eauto.
    + rewrite lookup_app_l in H1 by lia.
      apply list_elem_of_lookup_2, Hall in H1. lia.
Qed.

Lemma deleteEach_inPlace (sv : Server) (rt : string) (ids : list string)
    (past : list Call) (deleted : nat) :
  rt ∈ resourceTypes -> inPlace (placeOf rt) past ->
  inPlace (placeOf rt) (deleteEach sv rt ids past deleted).1.1.
Proof.
  intros Hrt. revert past deleted.
  induction ids as [|id rest IH]; intros past deleted Hpast; [done|].
  cbn [deleteEach].
  assert (Hnext : inPlace (placeOf rt) (past ++ [CDelete rt id])).
  { by apply (inPlace_snoc (placeOf rt) past (CDelete rt id)). }
  destruct (deleteReply sv past rt id); [done|]. by apply IH.
Qed.

Lemma deleteByType_inPlace (lib : Library) (sv : Server) (types : list string)
    (past : list Call) (deleted n : nat) :
  ascending types -> inPlace n past ->
  Forall (fun rt => (n <= placeOf rt)%nat) types ->
  exists m, inPlace m (deleteByType lib sv types past deleted).1.1.
Proof.
  revert past deleted n.
  induction types as [|rt rest IH]; intros past deleted n Hasc Hpast Hn.
  { by exists n. }
  destruct Hasc as (Hrt & Hrest & Hasc). apply Forall_cons in Hn as [Hn _].
  cbn [deleteByType].
  pose proof (searchByTag_calls lib sv past rt seedTagQuery) as Hcalls.
  destruct (searchByTag lib sv past rt seedTagQuery) as [[past1 ids] err].
  cbn [fst] in Hcalls. subst past1.
  assert (H1 : inPlace (placeOf rt) (past ++ [CSearch rt [("_tag", seedTagQuery)]])).
  { by apply (inPlace_snoc n past (CSearch rt _)). }
  destruct err; [by eexists|].
  pose proof (deleteEach_inPlace sv rt ids _ deleted Hrt H1) as H2.
  destruct (deleteEach sv rt ids _ deleted) as [[past2 deleted2] err].
  cbn [fst] in H2. destruct err; [by eexists|].
  by apply (IH past2 deleted2 (placeOf rt)).
Qed.

Lemma ascending_resourceTypes : ascending resourceTypes.
Proof.
  unfold resourceTypes. cbn [ascending].
  repeat split; repeat constructor; vm_compute; lia.
Qed.

(** *** The ids that are deleted *)

Lemma deletionsSought_snoc (lib : Library) (sv : Server) (calls : list Call)
    (c : Call) :
  deletionsSought lib sv calls ->
  (forall rt id, c = CDelete rt id ->
     id <> "" /\
     exists i, (i < length calls)%nat /\
               calls !! i = Some (CSearch rt [("_tag", seedTagQuery)]) /\
               taggedAsSeed lib sv (take i calls) rt id) ->
  deletionsSought lib sv (calls ++ [c]).
Proof.
  intros Hcalls Hc j rt id Hj.
  apply lookup_snoc_Some in Hj as [[Hlt Hj]| [-> ->]].
  - destruct (Hcalls j rt id Hj) as (Hne & i & Hi & Hs & Ht).
    split; [done|]. exists i.
    rewrite lookup_app_l by lia. rewrite take_app_le by lia. done.
  - destruct (Hc rt id eq_refl) as (Hne & i & Hi & Hs & Ht).
    split; [done|]. exists i.
    rewrite lookup_app_l by lia. rewrite take_app_le by lia. done.
Qed.

Lemma deleteEach_deletionsSought (lib : Library) (sv : Server) (rt : string)
    (ids : list string) (past : list Call) (deleted : nat) :
  deletionsSought lib sv past ->
  (forall id, id ∈ ids ->
     id <> "" /\
     exists i, (i < length past)%nat /\
               past !! i = Some (CSearch rt [("_tag", seedTagQuery)]) /\
               taggedAsSeed lib sv (take i past) rt id) ->
  deletionsSought lib sv (deleteEach sv rt ids past deleted).1.1.
Proof.
  revert past deleted.
  induction ids as [|id rest IH]; intros past deleted Hpast Hids; [done|].
  cbn [deleteEach].
  assert (Hnext : deletionsSought lib sv (past ++ [CDelete rt id])).
  { apply deletionsSought_snoc; [done|]. intros rt' id' [= <- <-].
    apply Hids, list_elem_of_here. }
  destruct (deleteReply sv past rt id); [done|].
  apply IH; [done|]. intros id' Hid'.
  destruct (Hids id' (list_elem_of_further _ _ _ Hid')) as (Hne & i & Hi & Hs & Ht).
  split; [done|]. exists i. rewrite length_app.
  rewrite lookup_app_l by lia. rewrite take_app_le by lia.
  split; [lia|done].
Qed.

Lemma deleteByType_deletionsSought (lib : Library) (sv : Server)
    (types : list string) (past : list Call) (deleted : nat) :
  deletionsSought lib sv past ->
  deletionsSought lib sv (deleteByType lib sv types past deleted).1.1.
Proof.
  revert past deleted.
  induction types as [|rt rest IH]; intros past deleted Hpast; [done|].
  cbn [deleteByType].
  pose proof (searchByTag_calls lib sv past rt seedTagQuery) as Hcalls.
  pose proof (searchByTag_ids lib sv past rt) as Hids.
  destruct (searchByTag lib sv past rt seedTagQuery) as [[past1 ids] err].
  cbn [fst snd] in Hcalls, Hids. subst past1.
  assert (H1 : deletionsSought lib sv (past ++ [CSearch rt [("_tag", seedTagQuery)]])).
  { apply deletionsSought_snoc; [done|]. intros ? ? [=]. }
  destruct err; [done|].
  pose proof (deleteEach_deletionsSought lib sv rt ids _ deleted H1) as H2.
  destruct (deleteEach sv rt ids _ deleted) as [[past2 deleted2] err].
  cbn [fst] in H2.
  assert (H3 : deletionsSought lib sv past2).
  { apply H2. intros id Hid. destruct (Hids id Hid) as [Hne Ht].
    split; [done|]. exists (length past). rewrite length_app. cbn [length].
    split; [lia|]. split; [by apply list_lookup_middle|].
    by rewrite take_app_length. }
  destruct err; [done|]. by apply IH.
Qed.

Lemma onlySeedCalls_snoc (calls : list Call) (c : Call) :
  onlySeedCalls calls ->
  ((exists rt id, c = CDelete rt id) \/
   (exists rt, c = CSearch rt [("_tag", seedTagQuery)])) ->
  onlySeedCalls (calls ++ [c]).
Proof.
  intros Hcalls Hc c' [Hc'|Hc']%elem_of_app; [by apply Hcalls|].
  by apply list_elem_of_singleton in Hc' as ->.
Qed.

Lemma deleteEach_onlySeedCalls (sv : Server) (rt : string)
    (ids : list string) (past : list Call) (deleted : nat) :
  onlySeedCalls past -> onlySeedCalls (deleteEach sv rt ids past deleted).1.1.
Proof.
  revert past deleted.
  induction ids as [|id rest IH]; intros past deleted Hpast; [done|].
  cbn [deleteEach].
  assert (Hnext : onlySeedCalls (past ++ [CDelete rt id])).
  { apply onlySeedCalls_snoc; [done|]. left. eauto. }
  destruct (deleteReply sv past rt id); [done|]. by apply IH.
Qed.

Lemma deleteByType_onlySeedCalls (lib : Library) (sv : Server)
    (types : list string) (past : list Call) (deleted : nat) :
  onlySeedCalls past ->
  onlySeedCalls (deleteByType lib sv types past deleted).1.1.
Proof.
  revert past deleted.
  induction types as [|rt rest IH]; intros past deleted Hpast; [done|].
  cbn [deleteByType].
  pose proof (searchByTag_calls lib sv past rt seedTagQuery) as Hcalls.
  destruct (searchByTag lib sv past rt seedTagQuery) as [[past1 ids] err].
  cbn [fst] in Hcalls. subst past1.
  assert (H1 : onlySeedCalls (past ++ [CSearch rt [("_tag", seedTagQuery)]])).
  { apply onlySeedCalls_snoc; [done|]. right. eauto. }
  destruct err; [done|].
  pose proof (deleteEach_onlySeedCalls sv rt ids _ deleted H1) as H2.
  destruct (deleteEach sv rt ids _ deleted) as [[past2 deleted2] err].
  cbn [fst] in H2. destruct err; [done|]. by apply IH.
Qed.

(** *** Failures *)

Lemma noFailure_nil (sv : Server) : noFailure sv [].
Proof. intros pre c post H. by destruct pre. Qed.

Lemma noFailure_snoc (sv : Server) (calls : list Call) (c : Call) :
  noFailure sv calls -> callError sv calls c = None ->
  noFailure sv (calls ++ [c]).
Proof.
  intros Hcalls Hc pre c' post Heq.
  destruct post as [|x post _] using rev_ind.
  - apply app_inj_tail in Heq as [-> ->]. done.
  - rewrite app_comm_cons, app_assoc in Heq.
    apply app_inj_tail in Heq as [-> _]. by apply (Hcalls pre c' post).
Qed.

Lemma deleteEach_loopsEnd (sv : Server) (rt : string) (ids : list string)
    (past : list Call) (deleted : nat) :
  noFailure sv past ->
  deleted = length (filter (fun c => isDelete c = true) past) ->
  loopsEnd sv (deleteEach sv rt ids past deleted).
Proof.
  revert past deleted.
  induction ids as [|id rest IH]; intros past deleted Hpast Hcount; [done|].
  cbn [deleteEach].
  destruct (deleteReply sv past rt id) as [err|] eqn:Hreply.
  - exists past, (CDelete rt id). repeat split; [done|].
    cbn [callError]. by rewrite Hreply.
  - apply IH.
    + apply noFailure_snoc; [done|]. cbn [callError]. by rewrite Hreply.
    + rewrite filter_app, length_app, <- Hcount.
      rewrite filter_cons_True by done. simpl. lia.
Qed.

Lemma deleteByType_loopsEnd (lib : Library) (sv : Server)
    (types : list string) (past : list Call) (deleted : nat) :
  noFailure sv past ->
  deleted = length (filter (fun c => isDelete c = true) past) ->
  loopsEnd sv (deleteByType lib sv types past deleted).
Proof.
  revert past deleted.
  induction types as [|rt rest IH]; intros past deleted Hpast Hcount; [done|].
  cbn [deleteByType].
  pose proof (searchByTag_calls lib sv past rt seedTagQuery) as Hcalls.
  pose proof (searchByTag_error lib sv past rt seedTagQuery) as Herr.
  destruct (searchByTag lib sv past rt seedTagQuery) as [[past1 ids] err].
  cbn [fst snd] in Hcalls, Herr. subst past1.
  destruct err as [e|].
  { exists past, (CSearch rt [("_tag", seedTagQuery)]). repeat split; done. }
  assert (H1 : noFailure sv (past ++ [CSearch rt [("_tag", seedTagQuery)]])).
  { by apply noFailure_snoc. }
  assert (H2 : deleted = length (filter (fun c => isDelete c = true)
                                   (past ++ [CSearch rt [("_tag", seedTagQuery)]]))).
  { rewrite filter_app, length_app, <- Hcount.
    rewrite filter_cons_False by done. simpl. lia. }
  pose proof (deleteEach_loopsEnd sv rt ids _ deleted H1 H2) as H3.
  destruct (deleteEach sv rt ids _ deleted) as [[past2 deleted2] err].
  destruct err as [e|]; [done|]. destruct H3 as [H3 H4]. by apply IH.
Qed.

(** The calls of [DeleteSeedData] are those of its closure, or none. *)
Lemma DeleteSeedData_calls (lib : Library) (sv : Server) (clk : Clock)
    (ui : Seed.Session) :
  (DeleteSeedData lib sv clk ui).1 = [] \/
  (Seed.confirmRun ui = (true, None) /\
   (DeleteSeedData lib sv clk ui).1
   = (deleteByType lib sv resourceTypes [] 0%nat).1.1).
Proof.
  unfold DeleteSeedData, deleteAction.
  destruct (Seed.confirmRun ui) as [confirm [e|]]; [by left|].
  destruct confirm; [|by left]. right. split; [done|].
  replace (bool_decide (None <> None) || negb true) with false
    by (by rewrite bool_decide_eq_false_2 by naive_solver).
  destruct (deleteByType lib sv resourceTypes [] 0%nat) as [[calls deleted] err].
  cbn [fst snd Seed.apiErr Seed.deleted].
  destruct (Seed.spinRun ui); [done|]. destruct err; [done|].
  by case_bool_decide.
Qed.

(** X13: the calls of [DeleteSeedData] follow the order of the list of
    resource types: of two calls, searches or deletions, the earlier one
    names a type that stands no later in the list CarePlan, Observation,
    Condition, Patient than the type of the later one.  So once a call has
    named patients, every later call names patients: care plans,
    observations and conditions are deleted before any patient is. *)
Theorem DeleteSeedData_deletes_dependents_first (lib : Library) (sv : Server)
    (clk : Clock) (ui : Seed.Session) (i j : nat) (c1 c2 : Call) :
  (i < j)%nat ->
  (DeleteSeedData lib sv clk ui).1 !! i = Some c1 ->
  (DeleteSeedData lib sv clk ui).1 !! j = Some c2 ->
  typeOf c1 ∈ resourceTypes /\ typeOf c2 ∈ resourceTypes /\
  (placeOf (typeOf c1) <= placeOf (typeOf c2))%nat /\
  (typeOf c1 = "Patient" -> typeOf c2 = "Patient").
Proof.
  intros Hij H1 H2.
  destruct (DeleteSeedData_calls lib sv clk ui) as [Hnil|[_ Heq]].
  { rewrite Hnil in H1. by destruct i. }
  rewrite Heq in H1, H2.
  destruct (deleteByType_inPlace lib sv resourceTypes [] 0 0
              ascending_resourceTypes (inPlace_nil 0)) as (m & Hall & Hord).
  { unfold resourceTypes. repeat constructor; lia. }
  pose proof (proj1 (Hall c1 (list_elem_of_lookup_2 _ _ _ H1))) as Hc1.
  pose proof (proj1 (Hall c2 (list_elem_of_lookup_2 _ _ _ H2))) as Hc2.
  pose proof (Hord i j c1 c2 Hij H1 H2) as Hle.
  repeat split; try done.
  intros Hp. rewrite Hp in Hle. unfold resourceTypes in Hc2.
  rewrite !elem_of_cons, elem_of_nil in Hc2.
  destruct Hc2 as [E|[E|[E|[E|[]]]]]; rewrite E in Hle |- *;
    vm_compute in Hle; first [done | lia].
Qed.

Lemma DeleteSeedData_deletes_dependents_first_witness :
  typeOf (CDelete "CarePlan" "cp1") ∈ resourceTypes /\
  typeOf (CDelete "Patient" "p1") ∈ resourceTypes /\
  (placeOf (typeOf (CDelete "CarePlan" "cp1"))
   <= placeOf (typeOf (CDelete "Patient" "p1")))%nat /\
  (typeOf (CDelete "CarePlan" "cp1") = "Patient" ->
   typeOf (CDelete "Patient" "p1") = "Patient").
Proof.
  apply (DeleteSeedData_deletes_dependents_first
           sampleLibrary (seedStore false) clock0 seedConfirmed 1 5);
    [lia | reflexivity | reflexivity].
Defined.

(** X14: [DeleteSeedData] touches only what carries the seed tag.  Every
    call it makes is a deletion or a search for the tag
    "phenostore-example|seed"; and every deletion is of an id that is not
    empty and that an earlier search of the same run, for the same resource
    type, was answered with: the store then held a resource with that id
    under the tag.  Nothing is deleted unless the operator confirmed. *)
Theorem DeleteSeedData_deletes_only_seed_resources (lib : Library)
    (sv : Server) (clk : Clock) (ui : Seed.Session) :
  onlySeedCalls (DeleteSeedData lib sv clk ui).1 /\
  forall j rt id,
    (DeleteSeedData lib sv clk ui).1 !! j = Some (CDelete rt id) ->
    Seed.confirmRun ui = (true, None) /\ id <> "" /\
    exists i,
      (i < j)%nat /\
      (DeleteSeedData lib sv clk ui).1 !! i
        = Some (CSearch rt [("_tag", seedTagQuery)]) /\
      taggedAsSeed lib sv (take i (DeleteSeedData lib sv clk ui).1) rt id.
Proof.
  destruct (DeleteSeedData_calls lib sv clk ui) as [Hnil|[Hconfirm Heq]].
  { rewrite Hnil. split; [by intros c ?%elem_of_nil|]. intros j ? ? H.
    by destruct j. }
  rewrite Heq. split.
  - apply deleteByType_onlySeedCalls. by intros c ?%elem_of_nil.
  - intros j rt id Hj. split; [done|].
    apply (deleteByType_deletionsSought lib sv resourceTypes [] 0); [|done].
    intros ? ? ? H. done.
Qed.

Lemma DeleteSeedData_deletes_only_seed_resources_witness :
  Seed.confirmRun seedConfirmed = (true, None) /\ "p2" <> "" /\
  exists i,
    (i < 6)%nat /\
    (DeleteSeedData sampleLibrary (seedStore false) clock0 seedConfirmed).1 !! i
      = Some (CSearch "Patient" [("_tag", seedTagQuery)]) /\
    taggedAsSeed sampleLibrary (seedStore false)
      (take i (DeleteSeedData sampleLibrary (seedStore false) clock0 seedConfirmed).1)
      "Patient" "p2".
Proof.
  apply (proj2 (DeleteSeedData_deletes_only_seed_resources
                  sampleLibrary (seedStore false) clock0 seedConfirmed) 6%nat).
  reflexivity.
Defined.

(** X15: [DeleteSeedData] stops at the first failure.  If the store answers
    one of its calls with a failure (a search that fails, that is answered
    with a status of 400 or more or whose body cannot be decoded, or a
    deletion that fails), that call is the last one made: no later id and no
    later resource type is touched.  With no error of the spinner, what is
    shown is the error of that call: for a deletion the store's error under
    the prefix "deleting <type>/<id>: ". *)
Theorem DeleteSeedData_stops_at_first_failure (lib : Library) (sv : Server)
    (clk : Clock) (ui : Seed.Session) (pre post : list Call) (c : Call)
    (e : error) :
  (DeleteSeedData lib sv clk ui).1 = pre ++ c :: post ->
  callError sv pre c = Some e ->
  post = [] /\
  (Seed.spinRun ui = None ->
   (DeleteSeedData lib sv clk ui).2 = [ShowError e; PressEnter]).
Proof.
  intros Hcalls Hfail.
  pose proof (deleteByType_loopsEnd lib sv resourceTypes [] 0
                (noFailure_nil sv) eq_refl) as Hend.
  revert Hcalls. unfold DeleteSeedData, deleteAction.
  destruct (Seed.confirmRun ui) as [confirm [e'|]];
    [by destruct pre|].
  destruct confirm; [|by destruct pre].
  replace (bool_decide (None <> None) || negb true) with false
    by (by rewrite bool_decide_eq_false_2 by naive_solver).
  destruct (deleteByType lib sv resourceTypes [] 0%nat) as [[calls deleted] err].
  cbn [loopsEnd] in Hend. cbn [fst snd Seed.apiErr Seed.deleted].
  assert (Hcases : forall (calls' : list Call) (x : list Event),
             (calls', x).1 = pre ++ c :: post -> calls' = pre ++ c :: post)
    by done.
  destruct err as [x|].
  - destruct Hend as (pre' & c' & -> & Hpre' & Hc').
    intros Hcalls.
    assert (Heq : pre' ++ [c'] = pre ++ c :: post).
    { by destruct (Seed.spinRun ui). }
    clear Hcalls.
    destruct post as [|y post _] using rev_ind.
    + apply app_inj_tail in Heq as [-> ->].
      split; [done|]. intros ->. cbn [fst snd]. congruence.
    + rewrite app_comm_cons, app_assoc in Heq.
      apply app_inj_tail in Heq as [-> _].
      rewrite (Hpre' pre c post eq_refl) in Hfail. done.
  - destruct Hend as [Hno _]. intros Hcalls.
    assert (Heq : calls = pre ++ c :: post).
    { destruct (Seed.spinRun ui); [done|]. by case_bool_decide. }
    rewrite (Hno pre c post Heq) in Hfail. done.
Qed.

Lemma DeleteSeedData_stops_at_first_failure_witness :
  @nil Call = [] /\
  (Seed.spinRun seedConfirmed = None ->
   (DeleteSeedData sampleLibrary (seedStore true) clock0 seedConfirmed).2
   = [ShowError (Errorf_w "deleting Patient/p2: "
                   (StoreError Transport "resource is referenced"));
      PressEnter]).
Proof.
  apply (DeleteSeedData_stops_at_first_failure
           sampleLibrary (seedStore true) clock0 seedConfirmed
           [CSearch "CarePlan" [("_tag", seedTagQuery)];
            CDelete "CarePlan" "cp1";
            CSearch "Observation" [("_tag", seedTagQuery)];
            CSearch "Condition" [("_tag", seedTagQuery)];
            CSearch "Patient" [("_tag", seedTagQuery)];
            CDelete "Patient" "p1"]
           [] (CDelete "Patient" "p2"));
    reflexivity.
Defined.

(** X16: when the operator confirms, the spinner reports no error and no
    call is answered with a failure, [DeleteSeedData] reports the number of
    deletions it made: "No seed data found." when it made none, and else
    the count, twice, with the time between the two clock readings. *)
Theorem DeleteSeedData_reports_its_deletions (lib : Library) (sv : Server)
    (clk : Clock) (ui : Seed.Session) :
  Seed.confirmRun ui = (true, None) -> Seed.spinRun ui = None ->
  noFailure sv (DeleteSeedData lib sv clk ui).1 ->
  (DeleteSeedData lib sv clk ui).2
  = match length (filter (fun c => isDelete c = true)
                    (DeleteSeedData lib sv clk ui).1) with
    | O => [Println (newline +:+ "  No seed data found."); PressEnter]
    | S k =>
        [ Println (newline +:+ "  Deleted " +:+ itoa (Z.of_nat (S k))
                   +:+ " seed resources.");
          showTiming ("Deleted " +:+ itoa (Z.of_nat (S k)) +:+ " resources")
                     (atJoin clk - atStart clk);
          PressEnter ]
    end.
Proof.
  intros Hconfirm Hspin.
  pose proof (deleteByType_loopsEnd lib sv resourceTypes [] 0
                (noFailure_nil sv) eq_refl) as Hend.
  unfold DeleteSeedData, deleteAction. rewrite Hconfirm, Hspin.
  replace (bool_decide (None <> None) || negb true) with false
    by (by rewrite bool_decide_eq_false_2 by naive_solver).
  destruct (deleteByType lib sv resourceTypes [] 0%nat) as [[calls deleted] err].
  cbn [loopsEnd] in Hend. cbn [fst snd Seed.apiErr Seed.deleted Seed.elapsed].
  destruct err as [x|].
  - destruct Hend as (pre & c & -> & _ & Hc). cbn [fst]. intros Hno.
    rewrite (Hno pre c [] eq_refl) in Hc. done.
  - destruct Hend as [_ ->]. intros _.
    case_bool_decide as Hzero.
    + cbn [fst snd]. by rewrite Hzero.
    + cbn [fst snd].
      by destruct (length (filter (fun c => isDelete c = true) calls)).
Qed.

Lemma DeleteSeedData_reports_its_deletions_witness :
  (DeleteSeedData sampleLibrary (seedStore false) clock0 seedConfirmed).2
  = [ Println (newline +:+ "  Deleted 3 seed resources.");
      showTiming "Deleted 3 resources" 250;
      PressEnter ].
Proof.
  apply (DeleteSeedData_reports_its_deletions
           sampleLibrary (seedStore false) clock0 seedConfirmed);
    [reflexivity | reflexivity |].
  intros pre c post H. vm_compute in H.
  repeat (destruct pre as [|? pre];
          [injection H as <- _; reflexivity | injection H as <- H]).
  by destruct pre.
Defined.

(** ** Properties of AddActivity *)

(** The heap after [appendActivity], written out. *)
Lemma appendActivity_heap (h : heap) (carePlan : loc) (description due : string) :
  is_Some (h !! carePlan) ->
  exists act detail entries,
    h !! carePlan = Some entries /\
    h !! detail = None /\ h !! act = None /\
    detail <> carePlan /\ act <> carePlan /\ act <> detail /\
    appendActivity h (Some carePlan) description due
    = Some (<[carePlan := <["activity" :=
                              ASlice (getSlice h (Some carePlan) "activity"
                                      ++ [AMap act])]> entries]>
              (<[act := {[ "detail" := AMap detail ]}]>
                 (<[detail := newDetail description due]> h)),
            carePlan).
Proof.
  intros [entries Hplan].
  set (detail := fresh (dom h)).
  assert (Hdetail : h !! detail = None).
  { apply not_elem_of_dom, is_fresh. }
  set (h1 := <[detail := {[ "status" := AString "not-started";
                            "description" := AString description ]}]> h).
  set (h2 := if bool_decide (due <> "")
             then mapAssign h1 detail "scheduledString" (AString ("By " +:+ due))
             else h1).
  assert (H2 : h2 = <[detail := newDetail description due]> h).
  { unfold h2, newDetail, mapAssign, h1. case_bool_decide; [|done].
    rewrite lookup_insert_eq. cbn [default]. by rewrite insert_insert_eq. }
  set (act := fresh (dom h2)).
  assert (Hact2 : h2 !! act = None).
  { apply not_elem_of_dom, is_fresh. }
  assert (Hne : act <> detail).
  { intros E. rewrite H2, E, lookup_insert_eq in Hact2. done. }
  assert (Hact : h !! act = None).
  { rewrite H2, lookup_insert_ne in Hact2 by done. done. }
  exists act, detail, entries.
  repeat split; try done; try congruence.
  unfold appendActivity, NewCarePlanActivity, newMap.
  fold detail. fold h1. fold h2. fold act.
  cbn [mbind option_bind]. unfold mapAssign, getSlice.
  rewrite lookup_insert_ne by congruence.
  rewrite H2, lookup_insert_ne by congruence.
  by rewrite Hplan.
Qed.

(** What was in the heap is read as before under every key but "activity". *)
Lemma appendActivity_frame (h : heap) (carePlan act detail : loc)
    (entries A D : gmap string any) (v : any) (l : loc) (key : string) :
  h !! carePlan = Some entries -> h !! act = None -> h !! detail = None ->
  is_Some (h !! l) -> key <> "activity" ->
  index (<[carePlan := <["activity" := v]> entries]>
           (<[act := A]> (<[detail := D]> h))) (Some l) key
  = index h (Some l) key.
Proof.
  intros Hplan Hact Hdetail [x Hl] Hkey. unfold index. cbn [mbind option_bind].
  destruct (decide (l = carePlan)) as [->|Hne].
  - rewrite lookup_insert_eq, Hplan. cbn [mbind option_bind].
    by rewrite lookup_insert_ne.
  - rewrite !lookup_insert_ne by congruence. done.
Qed.

Lemma appendActivity_sameActivity (h : heap) (carePlan act detail : loc)
    (entries A D : gmap string any) (v : any) (activities : list any) :
  h !! carePlan = Some entries -> h !! act = None -> h !! detail = None ->
  noDangling h activities ->
  Forall (sameActivity h (<[carePlan := <["activity" := v]> entries]>
                            (<[act := A]> (<[detail := D]> h)))) activities.
Proof.
  intros Hplan Hact Hdetail Hno. apply Forall_forall. intros a Ha act' ->.
  destruct (Hno act' Ha) as [Hsome Hd]. split.
  - unfold getMap. by rewrite appendActivity_frame.
  - intros d key Hdet Hkey. apply appendActivity_frame; auto.
Qed.

Lemma sameActivity_state (h h' : heap) (a : any) :
  sameActivity h h' a -> activityState h' a = activityState h a.
Proof.
  intros Hsame. unfold activityState. destruct a; try done.
  destruct (Hsame l eq_refl) as [Hdet Hkeys]. cbn [asMap mbind option_bind].
  rewrite Hdet. destruct (getMap h (Some l) "detail") as [d|]; [|done].
  cbn [mbind option_bind]. unfold getString. by rewrite (Hkeys d "status").
Qed.

Lemma sameActivity_count (h h' : heap) (activities : list any) (counts : nat * nat) :
  Forall (sameActivity h h') activities ->
  fold_left (countActivity h') activities counts
  = fold_left (countActivity h) activities counts.
Proof.
  intros Hall. revert counts.
  induction Hall as [|a rest Ha _ IH]; intros counts; [done|].
  cbn [fold_left]. rewrite IH. f_equal.
  rewrite !countActivity_state. by rewrite (sameActivity_state h h' a).
Qed.

Lemma sameActivity_options (h h' : heap) (activities : list any) (i : nat) :
  Forall (sameActivity h h') activities ->
  optionsFrom h' i activities = optionsFrom h i activities.
Proof.
  intros Hall. revert i.
  induction Hall as [|a rest Ha _ IH]; intros i; [done|].
  cbn [optionsFrom]. rewrite IH.
  destruct (asMap (Some a)) as [act|] eqn:Hact; [|done].
  assert (a = AMap act) as -> by (by destruct a; simplify_eq/=).
  destruct (Ha act eq_refl) as [Hdet Hkeys]. unfold getMap in Hdet, Hkeys.
  rewrite Hdet.
  destruct (asMap (index h (Some act) "detail")) as [d|] eqn:Hd; [|done].
  by rewrite (Hkeys d "status"), (Hkeys d "description").
Qed.

Lemma sameActivity_dashboard (h h' : heap) (activities : list any)
    (dp : DashboardPlan.t) :
  Forall (sameActivity h h') activities ->
  fold_left (dashboardActivity h') activities dp
  = fold_left (dashboardActivity h) activities dp.
Proof.
  intros Hall. revert dp.
  induction Hall as [|a rest Ha _ IH]; intros dp; [done|].
  cbn [fold_left]. rewrite IH. f_equal. unfold dashboardActivity.
  destruct (asMap (Some a)) as [act|] eqn:Hact; [|done].
  assert (a = AMap act) as -> by (by destruct a; simplify_eq/=).
  destruct (Ha act eq_refl) as [Hdet Hkeys]. rewrite Hdet.
  destruct (getMap h (Some act) "detail") as [d|] eqn:Hd; [|done].
  unfold getString.
  by rewrite (Hkeys d "status"), (Hkeys d "description"),
    (Hkeys d "scheduledString").
Qed.

Lemma optionsFrom_app (h : heap) (l1 l2 : list any) (i : nat) :
  optionsFrom h i (l1 ++ l2)
  = optionsFrom h i l1 ++ optionsFrom h (i + length l1) l2.
Proof.
  revert i. induction l1 as [|a l1 IH]; intros i.
  { cbn [app length optionsFrom]. by rewrite Nat.add_0_r. }
  cbn [app length optionsFrom]. rewrite IH.
  replace (S i + length l1)%nat with (i + S (length l1))%nat by lia.
  destruct (asMap (Some a)) as [act|]; [|done].
  destruct (asMap (index h (Some act) "detail")) as [d|]; [|done].
  by case_bool_decide.
Qed.

Lemma newDetail_entries (description due : string) :
  newDetail description due !! "status" = Some (AString "not-started") /\
  newDetail description due !! "description" = Some (AString description) /\
  asString (newDetail description due !! "scheduledString")
  = (if bool_decide (due <> "") then "By " +:+ due else "").
Proof.
  unfold newDetail. case_bool_decide; repeat split; reflexivity.
Qed.

(** X17: the three statements of [AddActivity] that change the plan add
    exactly one activity, at the end of the list: a new map whose only entry
    is a new detail map with status "not-started", the description that was
    typed and, when a due date was typed, the schedule note "By <date>".
    Every other entry of the plan, its status among them, and every other
    map of the decoded plan are left as they were. *)
Theorem appendActivity_adds_one_open_activity
    (h : heap) (carePlan : loc) (description due : string) :
  is_Some (h !! carePlan) ->
  exists h' act detail,
    appendActivity h (Some carePlan) description due = Some (h', carePlan) /\
    getSlice h' (Some carePlan) "activity"
    = getSlice h (Some carePlan) "activity" ++ [AMap act] /\
    h !! act = None /\ h !! detail = None /\
    h' !! act = Some {[ "detail" := AMap detail ]} /\
    h' !! detail = Some (newDetail description due) /\
    (forall key, key <> "activity" ->
                 index h' (Some carePlan) key = index h (Some carePlan) key) /\
    (forall l, l <> carePlan -> is_Some (h !! l) -> h' !! l = h !! l).
Proof.
  intros Hsome.
  destruct (appendActivity_heap h carePlan description due Hsome)
    as (act & detail & entries & Hplan & Hdetail & Hact & Hdc & Hac & Had & Heq).
  eexists _, act, detail. split; [exact Heq|].
  split.
  { unfold getSlice at 1, index. cbn [mbind option_bind].
    by rewrite lookup_insert_eq; cbn [mbind option_bind];
      rewrite lookup_insert_eq. }
  split; [done|]. split; [done|].
  split. { by rewrite lookup_insert_ne, lookup_insert_eq by done. }
  split. { by rewrite !lookup_insert_ne, lookup_insert_eq by done. }
  split.
  - intros key Hkey. apply appendActivity_frame; auto.
  - intros l Hl [x Hx]. rewrite !lookup_insert_ne; congruence.
Qed.

Lemma appendActivity_adds_one_open_activity_witness :
  exists h' act detail,
    appendActivity (samplePlan "completed") (Some 1%positive)
                   "Walk 20 minutes" "2026-12-01" = Some (h', 1%positive) /\
    getSlice h' (Some 1%positive) "activity"
    = getSlice (samplePlan "completed") (Some 1%positive) "activity" ++ [AMap act] /\
    samplePlan "completed" !! act = None /\
    samplePlan "completed" !! detail = None /\
    h' !! act = Some {[ "detail" := AMap detail ]} /\
    h' !! detail = Some (newDetail "Walk 20 minutes" "2026-12-01") /\
    (forall key, key <> "activity" ->
                 index h' (Some 1%positive) key
                 = index (samplePlan "completed") (Some 1%positive) key) /\
    (forall l, l <> 1%positive -> is_Some (samplePlan "completed" !! l) ->
               h' !! l = samplePlan "completed" !! l).
Proof.
  apply (appendActivity_adds_one_open_activity
           (samplePlan "completed") 1%positive "Walk 20 minutes" "2026-12-01").
  by eexists.
Defined.

(** X18: an added activity is an open one for the rest of the program.  On
    a decoded plan whose activities refer to maps of the plan,
    [carePlanProgress] counts one activity more after [appendActivity] and as
    many completed ones as before; [CompleteActivity] offers the activities
    it offered before and then the new one, numbered by its position; and
    [GetDashboardPlan] lists it last among the outstanding ones, with status
    "not-started". *)
Theorem added_activity_is_open
    (h h' : heap) (carePlan : loc) (description due name : string) :
  is_Some (h !! carePlan) ->
  noDangling h (getSlice h (Some carePlan) "activity") ->
  appendActivity h (Some carePlan) description due = Some (h', carePlan) ->
  carePlanProgress h' (Some carePlan)
  = (fst (carePlanProgress h (Some carePlan)),
     S (snd (carePlanProgress h (Some carePlan)))) /\
  buildOptions h' (getSlice h' (Some carePlan) "activity")
  = buildOptions h (getSlice h (Some carePlan) "activity")
    ++ [(itoa (Z.of_nat (length (getSlice h (Some carePlan) "activity")) + 1)
         +:+ ". " +:+ description,
         length (getSlice h (Some carePlan) "activity"))] /\
  GetDashboardPlan h' (Some carePlan) name
  = (fun dp =>
       DashboardPlan.mk (DashboardPlan.PatientName dp) (DashboardPlan.Title dp)
         (DashboardPlan.Completed dp) (S (DashboardPlan.Total dp))
         (DashboardPlan.Outstanding dp
          ++ [mkDashboardItem description "not-started"
                (if bool_decide (due <> "") then "By " +:+ due else "")]))
      (GetDashboardPlan h (Some carePlan) name).
Proof.
  intros Hsome Hno Happ.
  destruct (appendActivity_heap h carePlan description due Hsome)
    as (act & detail & entries & Hplan & Hdetail & Hact & Hdc & Hac & Had & Heq).
  rewrite Heq in Happ. injection Happ as <-.
  set (activities := getSlice h (Some carePlan) "activity") in *.
  set (h' := <[carePlan := _]> _).
  pose proof (appendActivity_sameActivity h carePlan act detail entries
                {[ "detail" := AMap detail ]} (newDetail description due)
                (ASlice (activities ++ [AMap act])) activities
                Hplan Hact Hdetail Hno) as Hsame.
  fold h' in Hsame.
  assert (Hacts : getSlice h' (Some carePlan) "activity" = activities ++ [AMap act]).
  { unfold getSlice, index, h'. cbn [mbind option_bind].
    by rewrite lookup_insert_eq; cbn [mbind option_bind];
      rewrite lookup_insert_eq. }
  assert (Hnew : h' !! act = Some {[ "detail" := AMap detail ]}).
  { unfold h'. by rewrite lookup_insert_ne, lookup_insert_eq by done. }
  assert (Hnewd : h' !! detail = Some (newDetail description due)).
  { unfold h'. by rewrite !lookup_insert_ne, lookup_insert_eq by done. }
  destruct (newDetail_entries description due) as (Hst & Hdesc & Hsched).
  assert (Hdet : getMap h' (Some act) "detail" = Some detail).
  { unfold getMap, index. cbn [mbind option_bind]. by rewrite Hnew. }
  assert (Hstatus : getString h' (Some detail) "status" = "not-started").
  { unfold getString, index. cbn [mbind option_bind].
    rewrite Hnewd. cbn [mbind option_bind]. by rewrite Hst. }
  assert (Hdescr : getString h' (Some detail) "description" = description).
  { unfold getString, index. cbn [mbind option_bind].
    rewrite Hnewd. cbn [mbind option_bind]. by rewrite Hdesc. }
  assert (Hnote : getString h' (Some detail) "scheduledString"
                  = if bool_decide (due <> "") then "By " +:+ due else "").
  { unfold getString, index. cbn [mbind option_bind].
    rewrite Hnewd. cbn [mbind option_bind]. exact Hsched. }
  split; [|split].
  - unfold carePlanProgress. rewrite Hacts, fold_left_app.
    rewrite (sameActivity_count h h' activities _ Hsame).
    fold activities.
    destruct (fold_left (countActivity h) activities (0%nat, 0%nat)) as [c t].
    cbn [fold_left countActivity asMap fst snd]. rewrite Hdet, Hstatus.
    by rewrite bool_decide_eq_false_2.
  - unfold buildOptions. rewrite Hacts, optionsFrom_app.
    rewrite (sameActivity_options h h' activities _ Hsame). f_equal.
    cbn [optionsFrom asMap]. unfold getMap, getString in Hdet, Hstatus, Hdescr.
    rewrite Hdet, Hstatus, Hdescr.
    by rewrite bool_decide_eq_false_2.
  - unfold GetDashboardPlan. rewrite Hacts, fold_left_app.
    rewrite (sameActivity_dashboard h h' activities _ Hsame).
    assert (Htitle : getString h' (Some carePlan) "title"
                     = getString h (Some carePlan) "title").
    { unfold getString, h'. by rewrite appendActivity_frame. }
    rewrite Htitle. fold activities.
    cbn [fold_left]. unfold dashboardActivity at 1. cbn [asMap].
    rewrite Hdet, Hstatus, Hdescr, Hnote.
    by rewrite bool_decide_eq_false_2.
Qed.

Lemma samplePlan_noDangling (firstStatus : string) :
  noDangling (samplePlan firstStatus)
             (getSlice (samplePlan firstStatus) (Some 1%positive) "activity").
Proof.
  intros act Hin. change (AMap act ∈ [AMap 2%positive; AMap 3%positive]) in Hin.
  rewrite !elem_of_cons, elem_of_nil in Hin.
  destruct Hin as [[= ->]|[[= ->]|[]]].
  - split; [by eexists|]. intros d [= <-]. by eexists.
  - split; [by eexists|]. intros d [= <-]. by eexists.
Qed.

Lemma added_activity_is_open_witness :
  carePlanProgress planWithWalk (Some 1%positive)
  = (fst (carePlanProgress (samplePlan "completed") (Some 1%positive)),
     S (snd (carePlanProgress (samplePlan "completed") (Some 1%positive)))) /\
  buildOptions planWithWalk (getSlice planWithWalk (Some 1%positive) "activity")
  = buildOptions (samplePlan "completed")
                 (getSlice (samplePlan "completed") (Some 1%positive) "activity")
    ++ [(itoa (Z.of_nat (length (getSlice (samplePlan "completed")
                                          (Some 1%positive) "activity")) + 1)
         +:+ ". " +:+ "Walk 20 minutes",
         length (getSlice (samplePlan "completed") (Some 1%positive) "activity"))] /\
  GetDashboardPlan planWithWalk (Some 1%positive) "Ada"
  = (fun dp =>
       DashboardPlan.mk (DashboardPlan.PatientName dp) (DashboardPlan.Title dp)
         (DashboardPlan.Completed dp) (S (DashboardPlan.Total dp))
         (DashboardPlan.Outstanding dp
          ++ [mkDashboardItem "Walk 20 minutes" "not-started"
                (if bool_decide ("2026-12-01" <> "") then "By " +:+ "2026-12-01"
                 else "")]))
      (GetDashboardPlan (samplePlan "completed") (Some 1%positive) "Ada").
Proof.
  apply (added_activity_is_open (samplePlan "completed") planWithWalk 1%positive
           "Walk 20 minutes" "2026-12-01" "Ada");
    [by eexists | apply samplePlan_noDangling | reflexivity].
Defined.




(** ** Properties of ClinicDashboard *)

Lemma resolvePatientName_calls (lib : Library) (sv : Server) (past : list Call)
    (id : string) :
  (resolvePatientName lib sv past id).1 = past ++ [CRead "Patient" id].
Proof.
  unfold resolvePatientName.
  destruct (readReply sv past "Patient" id) as [raw [e|]]; [done|].
  by destruct (ParseMap lib raw) as [|[h m]].
Qed.

Lemma dashboardInv_start (lib : Library) (sv : Server) (past0 : list Call) :
  dashboardInv lib sv past0 [] [] (Clinic.mkLoop past0 ∅ []).
Proof.
  unfold dashboardInv. cbn [Clinic.calls Clinic.patientNames Clinic.allPlans].
  split; [by rewrite app_nil_r|]. split; [constructor|].
  split; [done|]. split.
  { intros id. rewrite lookup_empty. split; [by intros [? ?] | by intros ?%elem_of_nil]. }
  split; [done|]. split; [|done].
  intros i id H. by destruct i.
Qed.

Lemma dashboardRound_inv (lib : Library) (sv : Server) (past0 : list Call)
    (entries : list RawMessage) (reads : list string) (st : Clinic.Loop)
    (raw : RawMessage) :
  dashboardInv lib sv past0 entries reads st ->
  exists reads',
    dashboardInv lib sv past0 (entries ++ [raw]) reads'
                 (dashboardRound lib sv st raw).
Proof.
  intros (Hcalls & Hnodup & Hreads & Hnames & Hsize & Hresolved & Hplans).
  unfold dashboardRound.
  destruct (ParseMap lib raw) as [e|[h m]] eqn:Hparse.
  { exists reads. unfold dashboardInv, patientsOf, decodedPlans.
    rewrite omap_app. cbn [omap list_omap]. rewrite Hparse, app_nil_r. done. }
  set (id := PatientRef h m).
  assert (Hdec : decodedPlans lib (entries ++ [raw])
                 = decodedPlans lib entries ++ [(h, m)]).
  { unfold decodedPlans. rewrite omap_app. cbn [omap list_omap].
    by rewrite Hparse. }
  assert (Hpat : patientsOf lib (entries ++ [raw]) = patientsOf lib entries ++ [id]).
  { unfold patientsOf. by rewrite Hdec, fmap_app. }
  destruct (Clinic.patientNames st !! id) as [name|] eqn:Hname.
  - exists reads. unfold dashboardInv.
    cbn [Clinic.calls Clinic.patientNames Clinic.allPlans].
    split; [done|]. split; [done|]. split.
    { intros id'. rewrite Hpat, elem_of_app, list_elem_of_singleton, <- Hreads.
      split; [auto|]. intros [?| ->]; [done|]. apply Hnames. eauto. }
    split; [done|]. split; [done|]. split; [done|].
    rewrite Hdec, fmap_app, <- Hplans. cbn [fmap list_fmap fst snd].
    fold id. by rewrite Hname.
  - pose proof (resolvePatientName_calls lib sv (Clinic.calls st) id) as Hpast.
    destruct (resolvePatientName lib sv (Clinic.calls st) id) as [past name] eqn:Hres.
    cbn [fst] in Hpast.
    assert (Hnotin : id ∉ reads).
    { intros Hin. apply Hnames in Hin. rewrite Hname in Hin. by destruct Hin. }
    exists (reads ++ [id]). unfold dashboardInv.
    cbn [Clinic.calls Clinic.patientNames Clinic.allPlans].
    split. { by rewrite Hpast, Hcalls, fmap_app, app_assoc. }
    split.
    { apply NoDup_app. split; [done|]. split; [|apply NoDup_singleton].
      intros x Hx ->%list_elem_of_singleton. done. }
    split.
    { intros id'. rewrite Hpat, !elem_of_app, !list_elem_of_singleton, <- Hreads.
      done. }
    split.
    { intros id'. rewrite lookup_insert_is_Some, elem_of_app,
        list_elem_of_singleton, Hnames.
      destruct (decide (id = id')); naive_solver. }
    split.
    { rewrite map_size_insert_None by done. rewrite length_app. simpl. lia. }
    split.
    { intros i id' Hi. apply lookup_snoc_Some in Hi as [[Hlt Hi]|[-> <-]].
      - rewrite take_app_le by lia.
        rewrite lookup_insert_ne; [by apply Hresolved|].
        intros ->. by apply list_elem_of_lookup_2 in Hi.
      - rewrite take_app_length, lookup_insert_eq, <- Hcalls, Hres. done. }
    rewrite Hdec, fmap_app. cbn [fmap list_fmap fst snd]. fold id.
    rewrite lookup_insert_eq. cbn [default]. f_equal.
    rewrite Hplans. apply list_fmap_ext. intros i hm Hhm.
    rewrite lookup_insert_ne; [done|]. intros E. apply Hnotin, Hreads.
    rewrite E. unfold patientsOf.
    apply (list_elem_of_fmap_2 (fun hm => PatientRef hm.1 hm.2)).
    by apply list_elem_of_lookup_2 in Hhm.
Qed.

Lemma dashboard_loop (lib : Library) (sv : Server) (past0 : list Call)
    (entries : list RawMessage) :
  exists reads,
    dashboardInv lib sv past0 entries reads
      (fold_left (dashboardRound lib sv) entries (Clinic.mkLoop past0 ∅ [])).
Proof.
  induction entries as [|raw entries IH] using rev_ind.
  { exists []. apply dashboardInv_start. }
  destruct IH as [reads IH]. rewrite fold_left_app. cbn [fold_left].
  by apply (dashboardRound_inv lib sv past0 entries reads).
Qed.

Lemma dashboardSearch_error (sv : Server) :
  (dashboardSearch sv).2 <> None -> (dashboardSearch sv).1 = [].
Proof.
  unfold dashboardSearch.
  destruct (searchReply sv [] "CarePlan" _) as [err|code decoded]; [done|].
  destruct (400 <=? code); [done|]. by destruct decoded.
Qed.

(** X20: [ClinicDashboard] makes one search for the active care plans and
    then reads each patient at most once, however many plans the patient
    has: the reads are of distinct ids, each the patient of a plan that was
    found and could be decoded, and, with no error of the spinner, every
    such patient is read. *)
Theorem ClinicDashboard_reads_each_patient_once (lib : Library) (sv : Server)
    (clk : Clock) (spin : option error) :
  exists reads,
    (ClinicDashboard lib sv clk spin).1
    = CSearch "CarePlan" [("status", "active")] :: (CRead "Patient" <$> reads) /\
    NoDup reads /\
    (forall id, id ∈ reads -> id ∈ patientsOf lib (dashboardSearch sv).1) /\
    (spin = None ->
     forall id, id ∈ patientsOf lib (dashboardSearch sv).1 -> id ∈ reads).
Proof.
  pose proof (dashboardSearch_error sv) as Herr.
  unfold ClinicDashboard.
  destruct (dashboardSearch sv) as [entries fetchErr]. cbn [fst snd] in *.
  assert (Hnone : forall (calls : list Call) (shown : list Clinic.Shown),
             (calls, shown).1 = CSearch "CarePlan" [("status", "active")]
                                :: (CRead "Patient" <$> []) ->
             (spin = None -> entries = []) ->
             exists reads,
               (calls, shown).1 = CSearch "CarePlan" [("status", "active")]
                                  :: (CRead "Patient" <$> reads) /\
               NoDup reads /\
               (forall id, id ∈ reads -> id ∈ patientsOf lib entries) /\
               (spin = None ->
                forall id, id ∈ patientsOf lib entries -> id ∈ reads)).
  { intros calls shown Hcalls Hentries. exists [].
    split; [done|]. split; [constructor|]. split; [by intros id ?%elem_of_nil|].
    intros Hspin id. by rewrite (Hentries Hspin). }
  destruct spin as [e|]; [by apply Hnone|].
  destruct fetchErr as [e|]; [apply Hnone; [done|]; intros _; by apply Herr|].
  case_bool_decide as Hlen.
  { apply Hnone; [done|]. intros _. by apply length_zero_iff_nil. }
  destruct (dashboard_loop lib sv [CSearch "CarePlan" [("status", "active")]] entries)
    as (reads & Hcalls & Hnodup & Hreads & _).
  exists reads. cbn [fst]. split; [exact Hcalls|]. split; [done|].
  split; [by intros id ?%Hreads | by intros _ id ?%Hreads].
Qed.

(** X21: what [ClinicDashboard] shows when the search finds plans and the
    spinner reports no error.  The dashboard has one plan for each entry
    that could be decoded, in the order of the entries, and all plans of one
    patient carry one name: the one that [resolvePatientName] gave when the
    patient was read, whatever the store would answer later.  The line below
    reports the number of entries found, decoded or not, and the number of
    patients read. *)
Theorem ClinicDashboard_shows_one_name_per_patient (lib : Library)
    (sv : Server) (clk : Clock) (entries : list RawMessage) :
  dashboardSearch sv = (entries, None) -> entries <> [] ->
  exists reads nameOf,
    ClinicDashboard lib sv clk None
    = (CSearch "CarePlan" [("status", "active")] :: (CRead "Patient" <$> reads),
       [ Clinic.Ev (Println "");
         Clinic.PrintClinicDashboard
           ((fun hm => GetDashboardPlan hm.1 hm.2 (nameOf (PatientRef hm.1 hm.2)))
              <$> decodedPlans lib entries);
         Clinic.Ev (showTiming
                      ("Fetched " +:+ itoa (Z.of_nat (length entries))
                       +:+ " active care plans across "
                       +:+ itoa (Z.of_nat (length reads)) +:+ " patients")
                      (atJoin clk - atStart clk));
         Clinic.Ev PressEnter ]) /\
    forall i id,
      reads !! i = Some id ->
      nameOf id
      = (resolvePatientName lib sv
           (CSearch "CarePlan" [("status", "active")]
            :: (CRead "Patient" <$> take i reads)) id).2.
Proof.
  intros Hsearch Hne. unfold ClinicDashboard. rewrite Hsearch.
  rewrite bool_decide_eq_false_2 by (by rewrite length_zero_iff_nil).
  destruct (dashboard_loop lib sv [CSearch "CarePlan" [("status", "active")]] entries)
    as (reads & Hcalls & _ & _ & _ & Hsize & Hresolved & Hplans).
  exists reads,
    (fun id => default ""
                 (Clinic.patientNames
                    (fold_left (dashboardRound lib sv) entries
                       (Clinic.mkLoop [CSearch "CarePlan" [("status", "active")]] ∅ []))
                  !! id)).
  split.
  - by rewrite Hcalls, Hsize, Hplans.
  - intros i id Hi. by rewrite (Hresolved i id Hi).
Qed.

Lemma ClinicDashboard_shows_one_name_per_patient_witness :
  exists reads nameOf,
    ClinicDashboard clinicLibrary clinicStore clock0 None
    = (CSearch "CarePlan" [("status", "active")] :: (CRead "Patient" <$> reads),
       [ Clinic.Ev (Println "");
         Clinic.PrintClinicDashboard
           ((fun hm => GetDashboardPlan hm.1 hm.2 (nameOf (PatientRef hm.1 hm.2)))
              <$> decodedPlans clinicLibrary clinicEntries);
         Clinic.Ev (showTiming
                      ("Fetched " +:+ itoa (Z.of_nat (length clinicEntries))
                       +:+ " active care plans across "
                       +:+ itoa (Z.of_nat (length reads)) +:+ " patients")
                      (atJoin clock0 - atStart clock0));
         Clinic.Ev PressEnter ]) /\
    forall i id,
      reads !! i = Some id ->
      nameOf id
      = (resolvePatientName clinicLibrary clinicStore
           (CSearch "CarePlan" [("status", "active")]
            :: (CRead "Patient" <$> take i reads)) id).2.
Proof.
  apply (ClinicDashboard_shows_one_name_per_patient
           clinicLibrary clinicStore clock0 clinicEntries);
    [reflexivity | discriminate].
Defined.

(** ** Properties of the pickers *)

Lemma fetchAllPatients_found (search : string -> error + Bundle)
    (patients : list RawMessage) :
  fetchAllPatients search = (patients, None) ->
  exists bundle, search "Patient" = inr bundle /\
                 patients = extractResources bundle.
Proof.
  unfold fetchAllPatients. destruct (search "Patient") as [e|bundle]; [done|].
  intros [= <-]. eauto.
Qed.

Lemma searchCarePlans_found (a : Client) (patientID : string)
    (plans : list RawMessage) :
  searchCarePlans a patientID = (plans, None) ->
  exists StatusCode bundle,
    SearchResourcesWithResponse a "CarePlan"
      [("patient", patientID); ("status", "active")]
    = Replied StatusCode (inr bundle) /\
    StatusCode < 400 /\ plans = extractResources bundle.
Proof.
  unfold searchCarePlans.
  destruct (SearchResourcesWithResponse a "CarePlan" _) as [e|code decoded];
    [done|].
  destruct (400 <=? code) eqn:Hcode; [done|].
  destruct decoded as [e|bundle]; [done|]. intros [= <-].
  exists code, bundle. repeat split. lia.
Qed.

(** X22: [PickPatient] returns a patient that the store listed.  If the
    selection, when it reports no error, leaves the value of one of the
    options it was given, then an id that [PickPatient] returns without
    error, and that is not empty, is the id of a resource in the bundle
    with which the store answered the search for patients. *)
Theorem PickPatient_returns_a_listed_patient (lib : Library)
    (search : string -> error + Bundle) (spin : option error)
    (selectRun : list (string * string) -> string * option error)
    (events : list Event) (id : string) :
  (forall options, (selectRun options).2 = None ->
                   (selectRun options).1 ∈ (snd <$> options)) ->
  PickPatient lib search spin selectRun = (events, (id, None)) ->
  id <> "" ->
  spin = None /\
  exists bundle raw,
    search "Patient" = inr bundle /\ raw ∈ extractResources bundle /\
    ResourceID lib raw = id.
Proof.
  intros Hselect. unfold PickPatient.
  destruct (fetchAllPatients search) as [patients fetchErr] eqn:Hfetch.
  destruct spin as [e|]; [done|]. destruct fetchErr as [e|]; [done|].
  destruct (fetchAllPatients_found search patients Hfetch) as (bundle & Hs & ->).
  case_bool_decide; [by intros [= _ <-]|].
  intros [= _ Hrun] Hne. split; [done|].
  pose proof (Hselect (omap (patientOption lib) (extractResources bundle))) as Hin.
  rewrite Hrun in Hin. specialize (Hin eq_refl). cbn [fst] in Hin.
  apply list_elem_of_fmap in Hin as ([label value] & -> & Hin).
  apply list_elem_of_omap in Hin as (raw & Hraw & Hopt).
  exists bundle, raw. split; [done|]. split; [done|].
  unfold patientOption in Hopt.
  destruct (ParseMap lib raw) as [e|[h m]]; [done|]. by injection Hopt as _ <-.
Qed.

Lemma PickPatient_returns_a_listed_patient_witness :
  @None error = None /\
  exists bundle raw,
    patientSearch "Patient" = inr bundle /\
    raw ∈ extractResources bundle /\
    ResourceID idLibrary raw = "p7".
Proof.
  apply (PickPatient_returns_a_listed_patient idLibrary patientSearch None
           selectFirst []).
  - intros [|[label value] rest]; [done|]. intros _. apply list_elem_of_here.
  - reflexivity.
  - discriminate.
Defined.

(** X23: [PickCarePlan] offers only active plans of the patient, and never
    an empty selection.  It either returns the empty id without running the
    selection, or runs the selection once, on a list of options that is not
    empty.  So if the selection, given options, leaves the value of one of
    them when it reports no error, an id that [PickCarePlan] returns without
    error, and that is not empty, is the id of a decoded resource of the
    bundle with which the store answered the search for the care plans of
    that patient with status active. *)
Theorem PickCarePlan_returns_a_found_plan (lib : Library) (a : Client)
    (spin : option error)
    (selectRun : list (string * string) -> string * option error)
    (patientID : string) :
  ((PickCarePlan lib a spin selectRun patientID).2.1 = "" \/
   exists options,
     options <> [] /\
     PickCarePlan lib a spin selectRun patientID = ([], selectRun options)) /\
  ((forall options, options <> [] -> (selectRun options).2 = None ->
                    (selectRun options).1 ∈ (snd <$> options)) ->
   forall events id,
     PickCarePlan lib a spin selectRun patientID = (events, (id, None)) ->
     id <> "" ->
     exists StatusCode bundle raw h m,
       SearchResourcesWithResponse a "CarePlan"
         [("patient", patientID); ("status", "active")]
       = Replied StatusCode (inr bundle) /\
       StatusCode < 400 /\
       raw ∈ extractResources bundle /\
       ParseMap lib raw = inr (h, m) /\
       getString h m "id" = id).
Proof.
  unfold PickCarePlan.
  destruct (searchCarePlans a patientID) as [plans fetchErr] eqn:Hfetch.
  destruct spin as [e|]; [by split; [left|]|].
  destruct fetchErr as [e|]; [by split; [left|]|].
  destruct (searchCarePlans_found a patientID plans Hfetch)
    as (code & bundle & Hs & Hcode & ->).
  case_bool_decide; [split; [by left|]; by intros _ ? ? [= _ <-]|].
  case_bool_decide as Hopts; [split; [by left|]; by intros _ ? ? [= _ <-]|].
  rewrite length_zero_iff_nil in Hopts. split.
  { right. by eexists. }
  intros Hselect events id [= _ Hrun] Hne.
  pose proof (Hselect _ Hopts) as Hin.
  rewrite Hrun in Hin. specialize (Hin eq_refl). cbn [fst] in Hin.
  apply list_elem_of_fmap in Hin as ([label value] & -> & Hin).
  apply list_elem_of_omap in Hin as (raw & Hraw & Hopt).
  unfold carePlanOption in Hopt.
  destruct (ParseMap lib raw) as [e|[h m]] eqn:Hparse; [done|].
  injection Hopt as _ <-.
  exists code, bundle, raw, h, m. done.
Qed.

Lemma PickCarePlan_returns_a_found_plan_witness :
  exists StatusCode bundle raw h m,
    SearchResourcesWithResponse planSearch "CarePlan"
      [("patient", "p1"); ("status", "active")]
    = Replied StatusCode (inr bundle) /\
    StatusCode < 400 /\
    raw ∈ extractResources bundle /\
    ParseMap idLibrary raw = inr (h, m) /\
    getString h m "id" = "0123456789abcdef".
Proof.
  apply (proj2 (PickCarePlan_returns_a_found_plan
                  idLibrary planSearch None selectFirst "p1")) with (events := []).
  - intros [|[label value] rest]; [done|]. intros _ _. apply list_elem_of_here.
  - reflexivity.
  - discriminate.
Defined.

(** ** Properties of UpdateContact *)

Lemma newMap_fresh (h : heap) (entries : gmap string any) :
  h !! (newMap h entries).2 = None /\
  (newMap h entries).1 = <[(newMap h entries).2 := entries]> h.
Proof. split; [apply not_elem_of_dom, is_fresh | done]. Qed.

(** X24: on a decoded patient that is a map, the statements of
    [UpdateContact] that change the patient add the typed contact points at
    the end of the telecom list, the phone number before the address, each
    as a new map with its system and value, and nothing for a field left
    blank.  The contact points that were there, every other entry of the
    patient and every other map are left as they were. *)
Theorem appendTelecoms_adds_what_was_typed
    (h : heap) (patient : loc) (phone email : string) :
  is_Some (h !! patient) ->
  exists h' added,
    appendTelecoms h (Some patient) phone email = Some (h', patient) /\
    getSlice h' (Some patient) "telecom"
    = getSlice h (Some patient) "telecom" ++ (AMap <$> added) /\
    Forall (fun l => h !! l = None) added /\
    (fun l => h' !! l) <$> added = Some <$> typedTelecoms phone email /\
    (forall key, key <> "telecom" ->
                 index h' (Some patient) key = index h (Some patient) key) /\
    (forall l, l <> patient -> is_Some (h !! l) -> h' !! l = h !! l).
Proof.
  intros [entries Hpatient].
  unfold appendTelecoms, typedTelecoms, getSlice.
  set (telecoms := asSlice (index h (Some patient) "telecom")).
  set (P := {[ "system" := AString "phone"; "value" := AString phone ]}
            : gmap string any).
  set (E := {[ "system" := AString "email"; "value" := AString email ]}
            : gmap string any).
  destruct (bool_decide (phone <> "")).
  - destruct (newMap_fresh h P) as [Hp1 Hp2].
    destruct (newMap h P) as [h1 p]. cbn [fst snd] in Hp1, Hp2. subst h1.
    assert (Hpp : p <> patient) by congruence.
    destruct (bool_decide (email <> "")).
    + destruct (newMap_fresh (<[p := P]> h) E) as [He1 He2].
      destruct (newMap (<[p := P]> h) E) as [h2 e]. cbn [fst snd] in He1, He2.
      subst h2.
      assert (Hep : e <> p).
      { intros ->. by rewrite lookup_insert_eq in He1. }
      rewrite lookup_insert_ne in He1 by done.
      assert (Hee : e <> patient) by congruence.
      cbn [mbind option_bind]. eexists _, [p; e]. split; [done|].
      unfold mapAssign, index. cbn [mbind option_bind].
      rewrite !lookup_insert_eq. cbn [mbind option_bind].
      rewrite lookup_insert_eq. split; [by rewrite <- app_assoc|].
      split; [by repeat constructor|]. split.
      { cbn [fmap list_fmap app].
        rewrite (lookup_insert_ne _ patient p) by done.
        rewrite (lookup_insert_ne _ e p) by done. rewrite lookup_insert_eq.
        rewrite (lookup_insert_ne _ patient e) by done.
        by rewrite lookup_insert_eq. }
      rewrite !lookup_insert_ne by done. rewrite Hpatient. cbn [default]. split.
      * intros key Hkey. cbn [mbind option_bind]. by rewrite lookup_insert_ne.
      * intros l Hl [x Hx]. rewrite !lookup_insert_ne; congruence.
    + cbn [mbind option_bind]. eexists _, [p]. split; [done|].
      unfold mapAssign, index. cbn [mbind option_bind].
      rewrite !lookup_insert_eq. cbn [mbind option_bind].
      rewrite lookup_insert_eq. split; [done|].
      split; [by repeat constructor|]. split.
      { cbn [fmap list_fmap app].
        rewrite (lookup_insert_ne _ patient p) by done.
        by rewrite lookup_insert_eq. }
      rewrite !lookup_insert_ne by done. rewrite Hpatient. cbn [default]. split.
      * intros key Hkey. cbn [mbind option_bind]. by rewrite lookup_insert_ne.
      * intros l Hl [x Hx]. rewrite !lookup_insert_ne; congruence.
  - destruct (bool_decide (email <> "")).
    + destruct (newMap_fresh h E) as [He1 He2].
      destruct (newMap h E) as [h2 e]. cbn [fst snd] in He1, He2. subst h2.
      assert (Hee : e <> patient) by congruence.
      cbn [mbind option_bind]. eexists _, [e]. split; [done|].
      unfold mapAssign, index. cbn [mbind option_bind].
      rewrite !lookup_insert_eq. cbn [mbind option_bind].
      rewrite lookup_insert_eq. split; [done|].
      split; [by repeat constructor|]. split.
      { cbn [fmap list_fmap app].
        rewrite (lookup_insert_ne _ patient e) by done.
        by rewrite lookup_insert_eq. }
      rewrite !lookup_insert_ne by done. rewrite Hpatient. cbn [default]. split.
      * intros key Hkey. cbn [mbind option_bind]. by rewrite lookup_insert_ne.
      * intros l Hl [x Hx]. rewrite !lookup_insert_ne; congruence.
    + cbn [mbind option_bind]. eexists _, []. split; [done|].
      unfold mapAssign, index. cbn [mbind option_bind].
      rewrite !lookup_insert_eq. cbn [mbind option_bind].
      rewrite lookup_insert_eq. split; [by rewrite app_nil_r|].
      split; [constructor|]. split; [done|].
      rewrite Hpatient. cbn [default]. split.
      * intros key Hkey. cbn [mbind option_bind]. by rewrite lookup_insert_ne.
      * intros l Hl [x Hx]. rewrite !lookup_insert_ne; congruence.
Qed.

Lemma appendTelecoms_adds_what_was_typed_witness :
  exists h' added,
    appendTelecoms samplePatient (Some 1%positive) "" "ada@example.org"
    = Some (h', 1%positive) /\
    getSlice h' (Some 1%positive) "telecom"
    = getSlice samplePatient (Some 1%positive) "telecom" ++ (AMap <$> added) /\
    Forall (fun l => samplePatient !! l = None) added /\
    (fun l => h' !! l) <$> added = Some <$> typedTelecoms "" "ada@example.org" /\
    (forall key, key <> "telecom" ->
                 index h' (Some 1%positive) key
                 = index samplePatient (Some 1%positive) key) /\
    (forall l, l <> 1%positive -> is_Some (samplePatient !! l) ->
               h' !! l = samplePatient !! l).
Proof.
  apply (appendTelecoms_adds_what_was_typed samplePatient 1%positive
           "" "ada@example.org").
  by eexists.
Defined.


